(** * Blended latent diffusion: a shallow embedding of
    [scripts/text_editing_stable_diffusion.py]

    The script edits an image inside a mask: it denoises a batch of random
    latents under classifier-free guidance and, after every sampler step,
    blends the result with a freshly noised copy of the source latent.

    Layout of this file.
    - Part I embeds the program: Python exceptions, Python [float]
      (IEEE binary64) and [int], torch half tensors (IEEE binary16), the
      numpy mask pipeline of [_read_mask], the kernel schedule of
      [morph_dilation], the [--morph] command line argument, and the
      denoising loop of [edit_image] over the interface of the pretrained
      models; then the pixel arithmetic around the autoencoder and the
      joining of the results in the script body.
    - Part II proves the properties.
    - Part III proves further properties of the code: the slicing of the
      schedule, runs with morphing, the pixels a mask is read from, the
      conversion of the decoder output, the layout of the saved image and
      the state threaded through the loop.

    Floating point numbers are [spec_float] values of the standard library
    ([SpecFloat]), evaluated with its correctly rounded operations: binary64
    for Python floats and float64 arrays, binary16 for half tensors. *)

From Stdlib Require Import ZArith Lia Bool String.
From Stdlib Require Import Floats.SpecFloat.
From stdpp Require Import base list.

Local Open Scope Z_scope.

(* ===================================================================== *)
(** * Part I: the program                                                *)
(* ===================================================================== *)

(** ** Python exceptions and fallible computations *)

Inductive exn : Type :=
| ZeroDivisionError
| OverflowError
| ValueError
| RuntimeError.

Inductive result (A : Type) : Type :=
| Ok (a : A)
| Raise (e : exn).
Arguments Ok {A} a.
Arguments Raise {A} e.

Definition bind {A B : Type} (r : result A) (k : A -> result B) : result B :=
  match r with
  | Ok a => k a
  | Raise e => Raise e
  end.

Notation "x <- r ;; k" := (bind r (fun x => k))
  (at level 100, r at next level, right associativity, only parsing).

Definition raises {A : Type} (r : result A) : bool :=
  match r with
  | Ok _ => false
  | Raise _ => true
  end.

(** ** Rounding outcome

    The float that the rounding of [SpecFloat] returns for a final
    mantissa [m] and exponent [e]: a zero, a finite number, or an infinity
    on overflow. *)
Definition round_result (prec emax : Z) (s : bool) (m e : Z) : spec_float :=
  match m with
  | Z0 => S754_zero s
  | Zpos p => if e <=? emax - prec then S754_finite s p e else S754_infinity s
  | Zneg _ => S754_nan
  end.

(** Identity of two floats as data (sign of zero included). *)
Definition same_float (x y : spec_float) : bool :=
  match x, y with
  | S754_zero a, S754_zero b => Bool.eqb a b
  | S754_infinity a, S754_infinity b => Bool.eqb a b
  | S754_nan, S754_nan => true
  | S754_finite a m e, S754_finite b n f => Bool.eqb a b && Pos.eqb m n && Z.eqb e f
  | _, _ => false
  end.

(** ** Python [float] and the [int] operations that produce one *)

Module PyFloat.

Definition prec : Z := 53.
Definition emax : Z := 1024.

(** Literals of the source, as (mantissa, exponent) of their binary64 value. *)
Definition zero : spec_float := S754_zero false.
Definition one : spec_float := S754_finite false 4503599627370496 (-52).
Definition half : spec_float := S754_finite false 4503599627370496 (-53).
Definition c_0_18215 : spec_float := S754_finite false 6562645377004287 (-55).
Definition c_7_5 : spec_float := S754_finite false 8444249301319680 (-50).
Definition c_0_25 : spec_float := S754_finite false 4503599627370496 (-54).

(** [math.isfinite]. *)
Definition is_finite (x : spec_float) : bool :=
  match x with
  | S754_zero _ | S754_finite _ _ _ => true
  | S754_infinity _ | S754_nan => false
  end.

(** [float(n)] for an [int]: correctly rounded, [OverflowError] when the
    integer is beyond the largest float. *)
Definition float_of_int (n : Z) : result spec_float :=
  match binary_normalize prec emax n 0 false with
  | S754_infinity _ => Raise OverflowError
  | x => Ok x
  end.

(** [int(x)]: truncation toward zero; infinities and NaN raise. *)
Definition int_of_float (x : spec_float) : result Z :=
  match x with
  | S754_nan => Raise ValueError
  | S754_infinity _ => Raise OverflowError
  | S754_zero _ => Ok 0
  | S754_finite s m e => Ok (cond_Zopp s (Z.shiftl (Zpos m) e))
  end.

(** [math.floor] on a finite float (used to state results only). *)
Definition floor (x : spec_float) : Z :=
  match x with
  | S754_finite s m e => Z.shiftl (cond_Zopp s (Zpos m)) e
  | _ => 0
  end.

(** [n * x] with [n : int], [x : float]: the integer is converted first. *)
Definition mul_int_float (n : Z) (x : spec_float) : result spec_float :=
  f <- float_of_int n ;;
  Ok (SFmul prec emax f x).

(** [a / b] on two [int]s (true division): the correctly rounded quotient.
    A zero divisor raises; a zero dividend gives a signed zero. *)
Definition truediv (a b : Z) : result spec_float :=
  if b =? 0 then Raise ZeroDivisionError
  else if a =? 0 then Ok (S754_zero (b <? 0))
  else
    let '(q, e, l) := SFdiv_core_binary prec emax (Z.abs a) 0 (Z.abs b) 0 in
    match binary_round_aux prec emax (xorb (a <? 0) (b <? 0)) q e l with
    | S754_infinity _ => Raise OverflowError
    | x => Ok x
    end.

(** [x / y] on floats, as numpy applies it elementwise. *)
Definition div (x y : spec_float) : spec_float := SFdiv prec emax x y.

(** Exact conversion of a [uint8] value. *)
Definition of_u8 (v : Z) : spec_float := binary_normalize prec emax v 0 false.

End PyFloat.

(** Python slicing [l[k:]]: a negative start counts from the end. *)
Definition py_slice_from {A : Type} (l : list A) (k : Z) : list A :=
  let n := Z.of_nat (length l) in
  let start := if k <? 0 then Z.max 0 (n + k) else k in
  drop (Z.to_nat start) l.

(** ** Half precision tensors *)

Module Half.

Definition prec : Z := 11.
Definition emax : Z := 16.

Definition zero : spec_float := S754_zero false.
Definition one : spec_float := S754_finite false 1024 (-10).

Definition add (x y : spec_float) : spec_float := SFadd prec emax x y.
Definition sub (x y : spec_float) : spec_float := SFsub prec emax x y.
Definition mul (x y : spec_float) : spec_float := SFmul prec emax x y.

(** Numeric equality [==] of two elements. *)
Definition eqb (x y : spec_float) : bool := SFeqb x y.

Definition valid (x : spec_float) : bool := valid_binary prec emax x.

Definition is_finite (x : spec_float) : bool := PyFloat.is_finite x.

Definition is_zero (x : spec_float) : bool :=
  match x with
  | S754_zero _ => true
  | _ => false
  end.

(** [.half()] on a float64 element: round to nearest even. *)
Definition of_f64 (x : spec_float) : spec_float :=
  match x with
  | S754_finite s m e => binary_round prec emax s m e
  | _ => x
  end.

(** [.half()] on a uint8 element. *)
Definition of_u8 (v : Z) : spec_float := binary_normalize prec emax v 0 false.

(** [astype(np.uint8)] on a float16 element (values 0.0 and 1.0 in use). *)
Definition to_u8 (x : spec_float) : Z :=
  match x with
  | S754_finite s m e => (cond_Zopp s (Z.shiftl (Zpos m) e)) mod 256
  | _ => 0
  end.

End Half.

(** A [H x W] plane of half elements, a [C x H x W] latent and a batch. *)
Abbreviation plane := (list (list spec_float)) (only parsing).
Abbreviation latent := (list (list (list spec_float))) (only parsing).
Abbreviation batch := (list (list (list (list spec_float)))) (only parsing).

Definition at_pixel (p : plane) (y x : nat) : option spec_float :=
  match p !! y with
  | Some row => row !! x
  | None => None
  end.

Definition at_position (b : batch) (n c y x : nat) : option spec_float :=
  match b !! n with
  | Some l => match l !! c with
              | Some p => at_pixel p y x
              | None => None
              end
  | None => None
  end.

(** Elementwise map over a two dimensional array. *)
Definition map2d {A B : Type} (f : A -> B) (a : list (list A)) : list (list B) :=
  fmap (M:=list) (fmap (M:=list) f) a.

(** A two dimensional array of [h] rows and [w] columns, and a batch of
    shape [N, C, H, W]. *)
Definition grid_shape {A : Type} (h w : nat) (g : list (list A)) : Prop :=
  length g = h /\ Forall (fun row => length row = w) g.

Definition has_shape (n c h w : nat) (b : batch) : Prop :=
  length b = n /\ Forall (fun l => length l = c /\ Forall (grid_shape h w) l) b.

(** Broadcasting, as torch applies it to an elementwise operation on two
    tensors: along every axis the sizes must be equal, or one of them 1,
    and an axis of size 1 is repeated along the other operand. A tensor
    is a nested list here, so one whose outer axis is empty does not
    record its inner sizes. *)
Definition sizes_agree (n m : nat) : bool :=
  (n =? m)%nat || (n =? 1)%nat || (m =? 1)%nat.

(** One axis of an elementwise operation. Where the sizes do not agree
    the common prefix is paired; the operations below check
    [broadcastable] first and raise instead. *)
Definition broadcast {A B C : Type} (f : A -> B -> C) (a : list A) (b : list B) : list C :=
  match a, b with
  | [x], _ :: _ :: _ => fmap (M:=list) (f x) b
  | _ :: _ :: _, [y] => fmap (M:=list) (fun x => f x y) a
  | _, _ => zip_with f a b
  end.

(** Whether two operands can be broadcast along this axis and, entry by
    paired entry, along the inner ones. *)
Definition broadcastable {A B : Type} (inner : A -> B -> bool) (a : list A) (b : list B)
    : bool :=
  sizes_agree (length a) (length b) && forallb (fun ok : bool => ok) (broadcast inner a b).

Definition rows_broadcastable (r q : list spec_float) : bool :=
  sizes_agree (length r) (length q).

Definition planes_broadcastable (p q : plane) : bool :=
  broadcastable rows_broadcastable p q.

Definition batches_broadcastable (a b : batch) : bool :=
  broadcastable (broadcastable planes_broadcastable) a b.

(** Elementwise binary operation on two batches, broadcast. *)
Definition batch_map2 (f : spec_float -> spec_float -> spec_float)
    (a b : batch) : batch :=
  broadcast (broadcast (broadcast (broadcast f))) a b.

(** ** The mask image and [_read_mask] *)

Module Mask.

(** An 8 bit grayscale image (mode "L"): rows of pixel values. *)
Abbreviation gray_image := (list (list Z)) (only parsing).

Definition pixel_ok (v : Z) : Prop := 0 <= v <= 255.

Definition image_ok (img : gray_image) : Prop :=
  Forall (Forall pixel_ok) img.

(** A two dimensional numpy array with its dtype. *)
Inductive ndarray : Type :=
| U8 (a : list (list Z))
| F64 (a : list (list spec_float)).

(** [Image.resize(dest_size, Image.NEAREST)]: every destination pixel is
    the source pixel under its centre. The library steps through the
    source in floating point; the integer formula below is what it
    computes whenever the steps add up exactly, as they do for the
    destination size 64 of the script (the scale is a multiple of 1/64)
    and for every integer ratio of the sizes. At other sizes a centre
    that falls on a pixel boundary may be rounded to the neighbour. *)
Definition source_index (dst_len src_len i : nat) : nat :=
  ((2 * i + 1) * src_len / (2 * dst_len))%nat.

Definition source_pixel (img : gray_image) (y x : nat) : Z :=
  default 0 (match img !! y with
             | Some row => row !! x
             | None => None
             end).

Definition resize_nearest (img : gray_image) (w h : nat) : gray_image :=
  let src_h := length img in
  let src_w := length (default [] (head img)) in
  fmap (M:=list) (fun y : nat =>
          fmap (M:=list) (fun x : nat =>
                  source_pixel img (source_index h src_h y) (source_index w src_w x))
               (seq 0 w))
       (seq 0 h).

(** [np.max] of a uint8 array; an empty array raises. *)
Definition np_max (a : list (list Z)) : result Z :=
  match concat a with
  | [] => Raise ValueError
  | v :: vs => Ok (foldr Z.max v vs)
  end.

(** [mask / 255]: true division turns the array into float64. *)
Definition divide_255 (a : list (list Z)) : list (list spec_float) :=
  map2d (fun v => PyFloat.div (PyFloat.of_u8 v) (PyFloat.of_u8 255)) a.

(** [mask[mask < 0.5] = 0] *)
Definition below_to_zero (m : ndarray) : ndarray :=
  match m with
  | U8 a =>
      U8 (map2d (fun v => if SFltb (PyFloat.of_u8 v) PyFloat.half then 0 else v) a)
  | F64 a =>
      F64 (map2d (fun x => if SFltb x PyFloat.half then PyFloat.zero else x) a)
  end.

(** [mask[mask >= 0.5] = 1] *)
Definition above_to_one (m : ndarray) : ndarray :=
  match m with
  | U8 a =>
      U8 (map2d (fun v => if SFleb PyFloat.half (PyFloat.of_u8 v) then 1 else v) a)
  | F64 a =>
      F64 (map2d (fun x => if SFleb PyFloat.half x then PyFloat.one else x) a)
  end.

(** The two assignments in program order. *)
Definition threshold (m : ndarray) : ndarray := above_to_one (below_to_zero m).

(** The two assignments on one element of each dtype. *)
Definition cut_u8 (v : Z) : Z :=
  let v1 := if SFltb (PyFloat.of_u8 v) PyFloat.half then 0 else v in
  if SFleb PyFloat.half (PyFloat.of_u8 v1) then 1 else v1.

Definition cut_f64 (x : spec_float) : spec_float :=
  let x1 := if SFltb x PyFloat.half then PyFloat.zero else x in
  if SFleb PyFloat.half x1 then PyFloat.one else x1.

(** [torch.from_numpy(mask).half()] *)
Definition to_half (m : ndarray) : plane :=
  match m with
  | U8 a => map2d Half.of_u8 a
  | F64 a => map2d Half.of_f64 a
  end.

(** The array part of [_read_mask], from [np.array(mask)] on. *)
Definition mask_of_array (a : list (list Z)) : result plane :=
  mx <- np_max a ;;
  let mask := if 1 <? mx then F64 (divide_255 a) else U8 a in
  Ok (to_half (threshold mask)).

(** [_read_mask(mask_path, dest_size)]; [org_mask] is the opened image
    converted to mode "L". The latent mask has shape [1, 1, h, w]; the two
    leading axes are left implicit. *)
Definition _read_mask (org_mask : gray_image) (dest_w dest_h : nat)
    : result (plane * gray_image) :=
  mask <- mask_of_array (resize_nearest org_mask dest_w dest_h) ;;
  Ok (mask, org_mask).

(** Elements of a plane, row by row. *)
Definition elements (p : plane) : list spec_float := concat p.

(** Arrays as numpy holds them: uint8 entries are in range. *)
Definition array_ok (m : ndarray) : Prop :=
  match m with
  | U8 a => Forall (Forall pixel_ok) a
  | F64 _ => True
  end.

(** An array that holds only the two values written by thresholding. *)
Definition is_binary (m : ndarray) : Prop :=
  match m with
  | U8 a => Forall (Forall (fun v => v = 0 \/ v = 1)) a
  | F64 a => Forall (Forall (fun x => x = PyFloat.zero \/ x = PyFloat.one)) a
  end.

(** The value of a pixel after [_read_mask]: pixels are divided by 255
    only when the largest one exceeds 1, then cut at 0.5. *)
Definition mask_value (mx v : Z) : spec_float :=
  if (if 1 <? mx then 128 <=? v else 1 <=? v) then Half.one else Half.zero.

End Mask.

(** ** The mask morphology controller, [morph_dilation] *)

Module Morph.

(** The image processing library, seen through the three calls made. The
    structuring element is a square of ones, given by its side. *)
Record Cv2 : Type := {
  cv_close : plane -> Z -> plane;
  cv_erode : list (list Z) -> Z -> list (list Z);
  cv_dilate : list (list Z) -> Z -> list (list Z)
}.

(** The operation chosen for a step, with the side of its kernel. *)
Inductive morph_op : Type :=
| Erode (kernel_size : Z)
| Dilate (kernel_size : Z).

(** [np.ones((k, k), np.uint8)]: a negative dimension raises. *)
Definition np_ones_square (k : Z) : result Z :=
  if k <? 0 then Raise ValueError else Ok k.

(** The branch of [morph_dilation] that selects operation and kernel. *)
Definition morph_kernel (i threshold dilation_init : Z) : result morph_op :=
  if i <? threshold then
    kernel <- np_ones_square 2 ;;
    Ok (Erode kernel)
  else
    q <- PyFloat.truediv (dilation_init * i) threshold ;;
    kernel_size <- PyFloat.int_of_float q ;;
    kernel <- np_ones_square kernel_size ;;
    Ok (Dilate kernel).

Definition astype_u8 (p : plane) : list (list Z) :=
  map2d Half.to_u8 p.

Definition morph_dilation (cv : Cv2) (mask : plane)
    (i threshold dilation_init : Z) : result (list (list Z)) :=
  let closed := cv_close cv mask 1 in
  op <- morph_kernel i threshold dilation_init ;;
  match op with
  | Erode k => Ok (cv_erode cv (astype_u8 closed) k)
  | Dilate k => Ok (cv_dilate cv (astype_u8 closed) k)
  end.

(** The loop setup: [total] timesteps are processed, the threshold is half
    of them, and [dilation_init] is the constant 5. *)
Definition threshold_of (total : Z) : Z := total / 2.
Definition dilation_init : Z := 5.

End Morph.

(** ** The [--morph] command line argument *)

Module Args.

(** The values the [morph] attribute takes: the [bool] default and the
    [str] taken from the command line, and what a caller may assign
    instead: a [bool], an [int], a [float], a [numpy.bool_], or an object
    of another type, which is known here only by the truth value of its
    comparison with [True]. *)
Inductive pyval : Type :=
| PyBool (b : bool)
| PyStr (s : string)
| PyInt (n : Z)
| PyFlt (x : spec_float)
| PyNpBool (b : bool)
| PyObject (equals_True : bool).

(** Whether a float has exactly the value of an integer. *)
Definition float_is_int (x : spec_float) (n : Z) : bool :=
  match x with
  | S754_zero _ => n =? 0
  | S754_finite s m e =>
      if 0 <=? e then cond_Zopp s (Z.shiftl (Zpos m) e) =? n
      else (Z.land (Zpos m) (Z.ones (- e)) =? 0)
           && (cond_Zopp s (Z.shiftr (Zpos m) (- e)) =? n)
  | _ => false
  end.

(** The number that a value stands for in a comparison: a [bool] counts
    as the integer 0 or 1. *)
Inductive pynum : Type :=
| NumInt (n : Z)
| NumFlt (x : spec_float).

Definition numeric (v : pyval) : option pynum :=
  match v with
  | PyBool b | PyNpBool b => Some (NumInt (if b then 1 else 0))
  | PyInt n => Some (NumInt n)
  | PyFlt x => Some (NumFlt x)
  | PyStr _ | PyObject _ => None
  end.

(** Python [==] on these values, as the truth value of its result:
    numbers compare by value across the numeric types, strings with
    strings, and a [str] never equals a number. An object of another type
    answers for [True] as it is recorded to, and is taken to differ from
    every other value. *)
Definition py_eq (a b : pyval) : bool :=
  match numeric a, numeric b with
  | Some (NumInt n), Some (NumInt m) => n =? m
  | Some (NumInt n), Some (NumFlt x) => float_is_int x n
  | Some (NumFlt x), Some (NumInt n) => float_is_int x n
  | Some (NumFlt x), Some (NumFlt y) => SFeqb x y
  | None, None =>
      match a, b with
      | PyStr x, PyStr y => String.eqb x y
      | _, _ => false
      end
  | _, _ =>
      match a, b with
      | PyObject t, PyBool true | PyBool true, PyObject t => t
      | _, _ => false
      end
  end.

(** [parser.add_argument(name, type=..., default=...)]: the conversion is
    applied to a value given on the command line; a default that is not a
    string is stored as it is. *)
Record argument : Type := {
  arg_type : string -> pyval;
  arg_default : pyval
}.

Definition parse_argument (a : argument) (given : option string) : pyval :=
  match given with
  | Some s => arg_type a s
  | None => arg_default a
  end.

(** [parser.add_argument("--morph", type=str, default=False)] *)
Definition morph_argument : argument :=
  {| arg_type := PyStr; arg_default := PyBool false |}.

(** [self.args.morph] after [parse_args], [given] being the text that
    follows [--morph] on the command line, if any. *)
Definition parsed_morph (given : option string) : pyval :=
  parse_argument morph_argument given.

(** The guard [self.args.morph == True] of the loop. *)
Definition morph_enabled (morph : pyval) : bool := py_eq morph (PyBool true).

End Args.

(** ** The editing pipeline, [edit_image] *)

Module Pipeline.

(** The pretrained models and library calls the loop consumes: tokenizer
    and text encoder, noise prediction network, autoencoder, scheduler,
    random generators and the image processing library. Carriers that the
    loop only passes around are left abstract. *)
Record Models : Type := {
  timestep : Type;
  ids : Type;
  embedding : Type;
  rgb_image : Type;
  pixels : Type;
  images : Type;
  rng : Type;
  (* tokenizer and text encoder; an embedding is one row of the output *)
  model_max_length : Z;
  tokenizer : list string -> Z -> ids;
  ids_width : ids -> Z;
  text_encoder : ids -> list embedding;
  (* noise prediction network *)
  in_channels : Z;
  unet : batch -> timestep -> list embedding -> batch;
  (* autoencoder: mean of the latent distribution, and decoder sample *)
  vae_encode : rgb_image -> batch;
  vae_decode : batch -> pixels;
  (* scheduler *)
  set_timesteps : Z -> list timestep;
  scale_model_input : batch -> timestep -> batch;
  scheduler_step : batch -> timestep -> batch -> batch;
  add_noise : batch -> batch -> timestep -> batch;
  (* tensor library: normal samples (already cast to half), product with a
     Python scalar, and the conversion of decoded pixels to uint8 images *)
  randn : Z -> Z -> Z -> Z -> rng -> batch * rng;
  randn_like : batch -> rng -> batch * rng;
  scalar_mul : spec_float -> batch -> batch;
  to_uint8 : pixels -> images;
  (* image processing library *)
  cv : Morph.Cv2
}.

(** The mask of one iteration: the half tensor of [_read_mask], or the
    uint8 tensor that [morph_dilation] returns. *)
Inductive mask_tensor : Type :=
| HalfMask (p : plane)
| ByteMask (a : list (list Z)).

(** [latent_mask] as the factor of a half tensor (uint8 is promoted). *)
Definition mask_factor (m : mask_tensor) : plane :=
  match m with
  | HalfMask p => p
  | ByteMask a => map2d Half.of_u8 a
  end.

(** [1 - latent_mask], in the dtype of the mask: half arithmetic, or uint8
    arithmetic modulo 256. *)
Definition one_minus (m : mask_tensor) : plane :=
  match m with
  | HalfMask p => map2d (Half.sub Half.one) p
  | ByteMask a => map2d (fun v => Half.of_u8 ((1 - v) mod 256)) a
  end.

(** A mask that holds only the values 0 and 1. *)
Definition mask_binary (m : mask_tensor) : Prop :=
  match m with
  | HalfMask p => Forall (Forall (fun x => x = Half.zero \/ x = Half.one)) p
  | ByteMask a => Forall (Forall (fun v => v = 0 \/ v = 1)) a
  end.

(** Product of a [N, C, H, W] batch with a [1, 1, H', W'] mask, given by
    its plane: the two leading axes of the mask are repeated, the two
    others are broadcast. *)
Definition broadcast_mul (b : batch) (p : plane) : batch :=
  fmap (M:=list) (fmap (M:=list) (fun pl : plane => broadcast (broadcast Half.mul) pl p)) b.

Definition mask_broadcastable (b : batch) (p : plane) : bool :=
  forallb (forallb (fun pl : plane => planes_broadcastable pl p)) b.

(** [latents * latent_mask + noise_source_latents * (1 - latent_mask)] *)
Definition blend (latents : batch) (mask : mask_tensor) (noised : batch) : batch :=
  batch_map2 Half.add
    (broadcast_mul latents (mask_factor mask))
    (broadcast_mul noised (one_minus mask)).

(** Whether the three operations of the blend find shapes they can
    broadcast: the two products with the mask, then the sum. *)
Definition blendable (latents : batch) (mask : mask_tensor) (noised : batch) : bool :=
  mask_broadcastable latents (mask_factor mask)
  && mask_broadcastable noised (one_minus mask)
  && batches_broadcastable (broadcast_mul latents (mask_factor mask))
       (broadcast_mul noised (one_minus mask)).

(** The blend as torch evaluates it: shapes that cannot be broadcast
    raise. *)
Definition checked_blend (latents : batch) (mask : mask_tensor) (noised : batch)
    : result batch :=
  if blendable latents mask noised then Ok (blend latents mask noised)
  else Raise RuntimeError.

(** The same expression on one element. *)
Definition blend_elem (c m n : spec_float) : spec_float :=
  Half.add (Half.mul c m) (Half.mul n (Half.sub Half.one m)).

(** [torch.cat] along the batch axis is list concatenation. [Tensor.chunk]
    cuts pieces of [ceil(len / chunks)] rows; an empty tensor gives
    [chunks] empty pieces. *)
Fixpoint split_every {A : Type} (fuel size : nat) (l : list A) : list (list A) :=
  match fuel with
  | O => []
  | S fuel' =>
      match l with
      | [] => []
      | _ => take size l :: split_every fuel' size (drop size l)
      end
  end.

Definition chunk {A : Type} (chunks : nat) (l : list A) : list (list A) :=
  let size := ((length l + chunks - 1) / chunks)%nat in
  if (size =? 0)%nat then replicate chunks [] else split_every (length l) size l.

(** [a, b = t]: unpacking anything but two items raises. *)
Definition unpack2 {A : Type} (t : list A) : result (A * A) :=
  match t with
  | [a; b] => Ok (a, b)
  | _ => Raise ValueError
  end.

(** Classifier-free guidance on the joint prediction. The two chunks are
    cut from one tensor along its first axis, so they can differ in that
    axis only: the difference raises unless their row counts can be
    broadcast, and the product with a scalar and the sum then find the
    shape of the difference. *)
Definition guide (M : Models) (guidance_scale : spec_float) (noise_pred : batch)
    : result batch :=
  halves <- unpack2 (chunk 2 noise_pred) ;;
  let noise_pred_uncond := fst halves in
  let noise_pred_text := snd halves in
  if sizes_agree (length noise_pred_text) (length noise_pred_uncond) then
    Ok (batch_map2 Half.add noise_pred_uncond
          (scalar_mul M guidance_scale
             (batch_map2 Half.sub noise_pred_text noise_pred_uncond)))
  else Raise RuntimeError.

(** Text conditioning: the prompts, then as many empty prompts, encoded
    and concatenated. *)
Definition cond_embeddings (M : Models) (prompts : list string) : list (embedding M) :=
  text_encoder M (tokenizer M prompts (model_max_length M)).

Definition uncond_embeddings (M : Models) (prompts : list string) : list (embedding M) :=
  let batch_size := length prompts in
  let max_length := ids_width M (tokenizer M prompts (model_max_length M)) in
  text_encoder M (tokenizer M (replicate batch_size ""%string) max_length).

Definition text_embeddings (M : Models) (prompts : list string) : list (embedding M) :=
  uncond_embeddings M prompts ++ cond_embeddings M prompts.

(** The batch axis through the models: one embedding per prompt, one
    prediction per latent. *)
Definition rows_preserved (M : Models) : Prop :=
  (forall texts max_length,
      length (text_encoder M (tokenizer M texts max_length)) = length texts) /\
  (forall x t e, length (unet M x t e) = length x) /\
  (forall x t, length (scale_model_input M x t) = length x).

(** The shapes through the library calls: the sampler step returns a
    tensor of the shape of the latents, noising one of the shape of the
    noise (the source has a first axis of size 1), [randn_like] one of the
    shape of its argument and [randn] one of the shape asked for. *)
Definition shapes_kept (M : Models) : Prop :=
  (forall g t l n c h w, has_shape n c h w l -> has_shape n c h w (scheduler_step M g t l)) /\
  (forall source noise t n c h w,
      has_shape n c h w noise -> has_shape n c h w (add_noise M source noise t)) /\
  (forall b g n c h w, has_shape n c h w b -> has_shape n c h w (fst (randn_like M b g))) /\
  (forall n c h w g,
      has_shape (Z.to_nat n) (Z.to_nat c) (Z.to_nat h) (Z.to_nat w) (fst (randn M n c h w g))).

(** The image processing calls return an image of the size of their
    input. *)
Definition cv_keeps_shape (cv : Morph.Cv2) : Prop :=
  (forall p k h w, grid_shape h w p -> grid_shape h w (Morph.cv_close cv p k)) /\
  (forall a k h w, grid_shape h w a -> grid_shape h w (Morph.cv_erode cv a k)) /\
  (forall a k h w, grid_shape h w a -> grid_shape h w (Morph.cv_dilate cv a k)).

(** The shape of a mask, whatever its dtype. *)
Definition mask_shape (h w : nat) (m : mask_tensor) : Prop :=
  match m with
  | HalfMask p => grid_shape h w p
  | ByteMask a => grid_shape h w a
  end.

(** [_image2latent] *)
Definition _image2latent (M : Models) (image : rgb_image M) : batch :=
  scalar_mul M PyFloat.c_0_18215 (vae_encode M image).

(** What one iteration computes. *)
Record step_out (M : Models) : Type := {
  so_index : Z;
  so_timestep : timestep M;
  so_noise_pred : batch;
  so_guided : batch;
  so_candidate : batch;
  so_mask : mask_tensor;
  so_noise : batch;
  so_noised_source : batch;
  so_latents : batch;
  so_cuda : rng M
}.
Arguments so_index {M} _.
Arguments so_timestep {M} _.
Arguments so_noise_pred {M} _.
Arguments so_guided {M} _.
Arguments so_candidate {M} _.
Arguments so_mask {M} _.
Arguments so_noise {M} _.
Arguments so_noised_source {M} _.
Arguments so_latents {M} _.
Arguments so_cuda {M} _.

(** The mask of iteration [i]: read again from the mask image, and morphed
    when [self.args.morph == True]. *)
Definition step_mask (M : Models) (morph : Args.pyval) (mask_image : Mask.gray_image)
    (i threshold : Z) : result mask_tensor :=
  read <- Mask._read_mask mask_image 64 64 ;;
  let latent_mask := fst read in
  if Args.morph_enabled morph then
    morphed <- Morph.morph_dilation (cv M) latent_mask i threshold Morph.dilation_init ;;
    Ok (ByteMask morphed)
  else Ok (HalfMask latent_mask).

(** The body of the loop at index [i] and timestep [t]. The random draw of
    [torch.randn_like] comes from the default generator of the device,
    whose state is [cuda]. *)
Definition denoise_step (M : Models) (morph : Args.pyval)
    (mask_image : Mask.gray_image) (source_latents : batch)
    (embeddings : list (embedding M)) (guidance_scale : spec_float)
    (threshold : Z) (latents : batch) (cuda : rng M) (i : Z) (t : timestep M)
    : result (step_out M) :=
  let latent_model_input := latents ++ latents in
  let latent_model_input := scale_model_input M latent_model_input t in
  let noise_pred := unet M latent_model_input t embeddings in
  guided <- guide M guidance_scale noise_pred ;;
  let candidate := scheduler_step M guided t latents in
  latent_mask <- step_mask M morph mask_image i threshold ;;
  let draw := randn_like M candidate cuda in
  let noise_source_latents := add_noise M source_latents (fst draw) t in
  blended <- checked_blend candidate latent_mask noise_source_latents ;;
  Ok {| so_index := i;
        so_timestep := t;
        so_noise_pred := noise_pred;
        so_guided := guided;
        so_candidate := candidate;
        so_mask := latent_mask;
        so_noise := fst draw;
        so_noised_source := noise_source_latents;
        so_latents := blended;
        so_cuda := snd draw |}.

(** The loop over [enumerate(...)]; the steps taken are kept as a trace. *)
Fixpoint denoise_loop (M : Models) (morph : Args.pyval)
    (mask_image : Mask.gray_image) (source_latents : batch)
    (embeddings : list (embedding M)) (guidance_scale : spec_float)
    (threshold : Z) (its : list (Z * timestep M)) (latents : batch) (cuda : rng M)
    : result (batch * rng M * list (step_out M)) :=
  match its with
  | [] => Ok (latents, cuda, [])
  | (i, t) :: rest =>
      s <- denoise_step M morph mask_image source_latents embeddings
             guidance_scale threshold latents cuda i t ;;
      r <- denoise_loop M morph mask_image source_latents embeddings
             guidance_scale threshold rest (so_latents s) (so_cuda s) ;;
      Ok (fst (fst r), snd (fst r), s :: snd r)
  end.

Definition enumerate {A : Type} (l : list A) : list (Z * A) :=
  imap (fun i x => (Z.of_nat i, x)) l.

(** [timesteps[int(len(timesteps) * blending_percentage):]] *)
Definition start_index {A : Type} (timesteps : list A) (blending_percentage : spec_float)
    : result Z :=
  p <- PyFloat.mul_int_float (Z.of_nat (length timesteps)) blending_percentage ;;
  PyFloat.int_of_float p.

Definition loop_timesteps {A : Type} (timesteps : list A) (blending_percentage : spec_float)
    : result (list A) :=
  start <- start_index timesteps blending_percentage ;;
  Ok (py_slice_from timesteps start).

(** Arguments of [edit_image]; [image] is the source after loading,
    resizing and dropping the alpha channel, [mask_image] the mask file in
    mode "L". *)
Record edit_args (M : Models) : Type := {
  image : rgb_image M;
  mask_image : Mask.gray_image;
  prompts : list string;
  height : Z;
  width : Z;
  num_inference_steps : Z;
  guidance_scale : spec_float;
  blending_percentage : spec_float
}.
Arguments image {M} _.
Arguments mask_image {M} _.
Arguments prompts {M} _.
Arguments height {M} _.
Arguments width {M} _.
Arguments num_inference_steps {M} _.
Arguments guidance_scale {M} _.
Arguments blending_percentage {M} _.

Record run_out (M : Models) : Type := {
  ro_images : images M;
  ro_generator : rng M;
  ro_cuda : rng M;
  ro_trace : list (step_out M)
}.
Arguments ro_images {M} _.
Arguments ro_generator {M} _.
Arguments ro_cuda {M} _.
Arguments ro_trace {M} _.

(** The initial latents, [torch.randn(..., generator=generator)]. *)
Definition initial_latents (M : Models) (a : edit_args M) (generator : rng M)
    : batch * rng M :=
  randn M (Z.of_nat (length (prompts a))) (in_channels M)
        (height a / 8) (width a / 8) generator.

(** Decoding: [1 / 0.18215 * latents], the decoder, the uint8 conversion. *)
Definition decode (M : Models) (latents : batch) : images M :=
  let latents := scalar_mul M (PyFloat.div PyFloat.one PyFloat.c_0_18215) latents in
  to_uint8 M (vae_decode M latents).

(** [edit_image], with the states of the two random generators it draws
    from made explicit, and the trace of the loop kept. *)
Definition edit_image_trace (M : Models) (morph : Args.pyval) (a : edit_args M)
    (generator cuda : rng M) : result (run_out M) :=
  let source_latents := _image2latent M (image a) in
  let embeddings := text_embeddings M (prompts a) in
  let init := initial_latents M a generator in
  let timesteps := set_timesteps M (num_inference_steps a) in
  processed <- loop_timesteps timesteps (blending_percentage a) ;;
  let total := Z.of_nat (length processed) in
  let threshold := Morph.threshold_of total in
  its <- loop_timesteps timesteps (blending_percentage a) ;;
  r <- denoise_loop M morph (mask_image a) source_latents embeddings
         (guidance_scale a) threshold (enumerate its) (fst init) cuda ;;
  Ok {| ro_images := decode M (fst (fst r));
        ro_generator := snd init;
        ro_cuda := snd (fst r);
        ro_trace := snd r |}.

Definition edit_image (M : Models) (morph : Args.pyval) (a : edit_args M)
    (generator cuda : rng M) : result (images M) :=
  r <- edit_image_trace M morph a generator cuda ;;
  Ok (ro_images r).

End Pipeline.

(** ** A small instance of the interface

    Stand-ins for the pretrained models, used to run the loop on concrete
    inputs: the network returns its input, the sampler step keeps the
    latents, noising keeps the source, and the generators count draws. *)

Module Toy.

Definition cv : Morph.Cv2 :=
  {| Morph.cv_close := fun p _ => p;
     Morph.cv_erode := fun a _ => a;
     Morph.cv_dilate := fun a _ => a |}.

Definition models : Pipeline.Models :=
  {| Pipeline.timestep := Z;
     Pipeline.ids := list string;
     Pipeline.embedding := string;
     Pipeline.rgb_image := unit;
     Pipeline.pixels := batch;
     Pipeline.images := batch;
     Pipeline.rng := Z;
     Pipeline.model_max_length := 77;
     Pipeline.tokenizer := fun texts _ => texts;
     Pipeline.ids_width := fun _ => 77;
     Pipeline.text_encoder := fun texts => texts;
     Pipeline.in_channels := 4;
     Pipeline.unet := fun x _ _ => x;
     Pipeline.vae_encode := fun _ => [[[[Half.one]]]];
     Pipeline.vae_decode := fun b => b;
     Pipeline.set_timesteps := fun n => rev (map Z.of_nat (seq 0 (Z.to_nat n)));
     Pipeline.scale_model_input := fun x _ => x;
     Pipeline.scheduler_step := fun _ _ latents => latents;
     Pipeline.add_noise := fun source _ _ => source;
     Pipeline.randn := fun n c h w g =>
       (replicate (Z.to_nat n)
          (replicate (Z.to_nat c) (replicate (Z.to_nat h) (replicate (Z.to_nat w) Half.one))),
        g + 1);
     Pipeline.randn_like := fun b g => (b, g + 1);
     Pipeline.scalar_mul := fun _ b => b;
     Pipeline.to_uint8 := fun p => p;
     Pipeline.cv := cv |}.

(** The same stand-ins with a noising that returns the noise, so that
    every call keeps the shapes as the libraries do. *)
Definition shaped_models : Pipeline.Models :=
  {| Pipeline.timestep := Z;
     Pipeline.ids := list string;
     Pipeline.embedding := string;
     Pipeline.rgb_image := unit;
     Pipeline.pixels := batch;
     Pipeline.images := batch;
     Pipeline.rng := Z;
     Pipeline.model_max_length := 77;
     Pipeline.tokenizer := fun texts _ => texts;
     Pipeline.ids_width := fun _ => 77;
     Pipeline.text_encoder := fun texts => texts;
     Pipeline.in_channels := 4;
     Pipeline.unet := fun x _ _ => x;
     Pipeline.vae_encode := fun _ => [[[[Half.one]]]];
     Pipeline.vae_decode := fun b => b;
     Pipeline.set_timesteps := fun n => rev (map Z.of_nat (seq 0 (Z.to_nat n)));
     Pipeline.scale_model_input := fun x _ => x;
     Pipeline.scheduler_step := fun _ _ latents => latents;
     Pipeline.add_noise := fun _ noise _ => noise;
     Pipeline.randn := fun n c h w g =>
       (replicate (Z.to_nat n)
          (replicate (Z.to_nat c) (replicate (Z.to_nat h) (replicate (Z.to_nat w) Half.one))),
        g + 1);
     Pipeline.randn_like := fun b g => (b, g + 1);
     Pipeline.scalar_mul := fun _ b => b;
     Pipeline.to_uint8 := fun p => p;
     Pipeline.cv := cv |}.

(** One prompt, a 512 x 512 source (a 64 x 64 latent), a two pixel mask. *)
Definition shaped_args (steps : Z) (blending_percentage : spec_float)
    : Pipeline.edit_args shaped_models :=
  Pipeline.Build_edit_args shaped_models
    tt [[0; 255]] ["a dog"%string] 512 512 steps PyFloat.c_7_5 blending_percentage.

(** One prompt, an 8 x 8 source (a 1 x 1 latent), a two pixel mask. *)
Definition args (steps : Z) (blending_percentage : spec_float) : Pipeline.edit_args models :=
  Pipeline.Build_edit_args models
    tt                      (* image *)
    [[0; 255]]              (* mask_image *)
    ["a dog"%string]        (* prompts *)
    8 8                     (* height, width *)
    steps                   (* num_inference_steps *)
    PyFloat.c_7_5           (* guidance_scale *)
    blending_percentage.

End Toy.

(** ** Pixel values: the input of the encoder, the output of the decoder *)

(** float32 tensors, as [torch.from_numpy(image).float()] makes one. *)
Module Float32.

Definition prec : Z := 24.
Definition emax : Z := 128.

Definition one : spec_float := S754_finite false 8388608 (-23).
Definition c_127_5 : spec_float := S754_finite false 16711680 (-17).

Definition of_u8 (v : Z) : spec_float := binary_normalize prec emax v 0 false.
Definition div (x y : spec_float) : spec_float := SFdiv prec emax x y.
Definition sub (x y : spec_float) : spec_float := SFsub prec emax x y.

(** [.half()] on a float32 element: round to nearest even. *)
Definition to_half (x : spec_float) : spec_float :=
  match x with
  | S754_finite s m e => binary_round Half.prec Half.emax s m e
  | _ => x
  end.

End Float32.

(** The elementwise arithmetic around the autoencoder: the normalisation
    in [_image2latent] and the conversion to uint8 that ends [edit_image]. *)
Module Pixel.

(** The scalars 2, 0.5, 255 and -1 as half elements. *)
Definition two : spec_float := S754_finite false 1024 (-9).
Definition c_0_5 : spec_float := S754_finite false 1024 (-11).
Definition c_255 : spec_float := S754_finite false 2040 (-3).
Definition minus_one : spec_float := S754_finite true 1024 (-10).

(** [x / y] on half elements. Every operation of a half tensor rounds its
    result to half; halving is exact within the range, so a wider
    intermediate of the device does not show. *)
Definition div (x y : spec_float) : spec_float := SFdiv Half.prec Half.emax x y.

(** [_image2latent]: [torch.from_numpy(image).float() / 127.5 - 1], then
    [.half()], on one uint8 channel value. *)
Definition normalize (v : Z) : spec_float :=
  Float32.to_half
    (Float32.sub (Float32.div (Float32.of_u8 v) Float32.c_127_5) Float32.one).

(** [.clamp(lo, hi)] is [min(max(x, lo), hi)]; NaN stays NaN. *)
Definition clamp (lo hi x : spec_float) : spec_float :=
  match x with
  | S754_nan => S754_nan
  | _ => let y := if SFltb x lo then lo else x in
         if SFltb hi y then hi else y
  end.

(** [(image / 2 + 0.5).clamp(0, 1)] on one element of the decoder output. *)
Definition unit_range (x : spec_float) : spec_float :=
  clamp Half.zero Half.one (Half.add (div x two) c_0_5).

(** [.round()] of numpy: to the nearest integer, ties to even. *)
Definition rint (x : spec_float) : spec_float :=
  match x with
  | S754_finite s m e =>
      if 0 <=? e then x
      else
        let '(mrs, _) := shr (shr_record_of_loc (Zpos m) loc_Exact) e (- e) in
        let n := round_nearest_even (shr_m mrs) (loc_of_shr_record mrs) in
        binary_normalize Half.prec Half.emax (cond_Zopp s n) 0 s
  | _ => x
  end.

(** [(image * 255).round().astype("uint8")] on one element. *)
Definition to_uint8_elem (u : spec_float) : Z :=
  Half.to_u8 (rint (Half.mul u c_255)).

(** From one element of the decoder output to the channel value. *)
Definition pixel_of (x : spec_float) : Z := to_uint8_elem (unit_range x).

End Pixel.

(** The valid half numbers in increasing order: [unrank r] for [r] from
    -31744 (minus infinity) to 31744 (infinity), with [rank] its inverse. *)
Module HalfOrder.

Definition top : Z := 31744.

Definition unrank (r : Z) : spec_float :=
  let s := r <? 0 in
  let a := Z.abs r in
  if a =? 0 then S754_zero false
  else if top <=? a then S754_infinity s
  else if a <? 1024 then S754_finite s (Z.to_pos a) (-24)
  else S754_finite s (Z.to_pos (a mod 1024 + 1024)) (a / 1024 - 25).

Definition rank (x : spec_float) : Z :=
  match x with
  | S754_zero _ | S754_nan => 0
  | S754_infinity s => cond_Zopp s top
  | S754_finite s m e => cond_Zopp s ((e + 24) * 1024 + Zpos m)
  end.

(** [x * 2^24], an integer for every finite half number. *)
Definition scaled (x : spec_float) : Z :=
  match x with
  | S754_finite s m e => cond_Zopp s (Z.shiftl (Zpos m) (e + 24))
  | _ => 0
  end.

Definition is_nan (x : spec_float) : bool :=
  match x with
  | S754_nan => true
  | _ => false
  end.

(** A check of all the ranks from -32768 up to 32767, in 64 rows of 1024. *)
Definition all_ranks (P : Z -> bool) : bool :=
  forallb (fun hi => forallb (fun lo => P (1024 * hi + lo - 32768))
                       (map Z.of_nat (seq 0 1024)))
          (map Z.of_nat (seq 0 64)).

(** What is checked of the half number of rank [r]; 15360 is the rank of
    1.0. *)
Definition table_entry (r : Z) : bool :=
  let x := unrank r in
  let p := Pixel.pixel_of x in
  (0 <=? p) && (p <=? 255)
  && (if 15360 <=? r then p =? 255 else true)
  && (if r <=? -15360 then p =? 0 else true)
  && (if (-15360 <=? r) && (r <=? 15360)
      then Z.abs (8 * 2 ^ 24 * p - 1020 * (scaled x + 2 ^ 24)) <=? 5 * 2 ^ 24
      else true)
  && (if (-15360 <=? r) && (r <? 15360) then p <=? Pixel.pixel_of (unrank (r + 1)) else true).

End HalfOrder.

(** ** The script body: the saved image *)

Module Main.

(** [np.concatenate(results, axis=1)] over the images of the batch, each
    a list of rows of pixels: the rows of equal index are joined. No
    image, or images of different heights, raise. *)
Definition np_concatenate_axis1 {A : Type} (arrays : list (list (list A)))
    : result (list (list A)) :=
  match arrays with
  | [] => Raise ValueError
  | first :: rest =>
      if forallb (fun a => Nat.eqb (length a) (length first)) rest
      then Ok (foldl (zip_with app) first rest)
      else Raise ValueError
  end.

End Main.

(** ** What a trace of the loop threads from step to step *)

Module Trace.
Import Pipeline.

(** The mask of step [i] once morphing is on: eroded with side 2 below the
    threshold, dilated with side [5 * i / threshold] from it on. *)
Definition morphed_mask (cv : Morph.Cv2) (mask : plane) (threshold i : Z) : mask_tensor :=
  let closed := Morph.astype_u8 (Morph.cv_close cv mask 1) in
  ByteMask (if i <? threshold then Morph.cv_erode cv closed 2
            else Morph.cv_dilate cv closed (5 * i / threshold)).

(** The states that the loop threads through a trace: each step starts
    from the latents and the device generator left by the one before. *)
Fixpoint threaded (M : Models) (embeddings : list (embedding M))
    (latents : batch) (cuda : rng M) (trace : list (step_out M)) : Prop :=
  match trace with
  | [] => True
  | s :: rest =>
      so_noise_pred s
      = unet M (scale_model_input M (latents ++ latents) (so_timestep s))
          (so_timestep s) embeddings /\
      so_candidate s = scheduler_step M (so_guided s) (so_timestep s) latents /\
      so_noise s = fst (randn_like M (so_candidate s) cuda) /\
      so_cuda s = snd (randn_like M (so_candidate s) cuda) /\
      threaded M embeddings (so_latents s) (so_cuda s) rest
  end.

(** Latents and generator state after a trace. *)
Definition final_state (M : Models) (latents : batch) (cuda : rng M)
    (trace : list (step_out M)) : batch * rng M :=
  match last trace with
  | Some s => (so_latents s, so_cuda s)
  | None => (latents, cuda)
  end.

End Trace.

(* ===================================================================== *)
(** * Part II: properties                                                *)
(* ===================================================================== *)

(** ** The program on concrete inputs *)

Module Examples.

(** The default run: 50 timesteps, a quarter skipped. *)
Example start_index_default :
  Pipeline.start_index (seq 0 50) PyFloat.c_0_25 = Ok 12.
Proof. vm_compute. reflexivity. Qed.

(** The float product decides: [50 * 0.3] is [15.0], although the double
    nearest to 0.3 lies below 0.3. *)
Example start_index_rounds_up :
  Pipeline.start_index (seq 0 50) (S754_finite false 5404319552844595 (-54)) = Ok 15.
Proof. vm_compute. reflexivity. Qed.

Example slice_negative_start : py_slice_from [10; 20; 30; 40] (-1) = [40].
Proof. reflexivity. Qed.

Example slice_beyond_end : py_slice_from [10; 20; 30; 40] 7 = [].
Proof. reflexivity. Qed.

Example true_division_third :
  PyFloat.truediv 1 3 = Ok (S754_finite false 6004799503160661 (-54)).
Proof. vm_compute. reflexivity. Qed.

Example true_division_negative_zero : PyFloat.truediv 0 (-5) = Ok (S754_zero true).
Proof. reflexivity. Qed.

Example kernel_in_erosion_phase :
  Morph.morph_kernel 3 18 Morph.dilation_init = Ok (Morph.Erode 2).
Proof. reflexivity. Qed.

Example kernel_in_dilation_phase :
  Morph.morph_kernel 30 18 Morph.dilation_init = Ok (Morph.Dilate 8).
Proof. vm_compute. reflexivity. Qed.

(** Pixels above 1 are present: divide by 255, cut at 0.5. *)
Example mask_of_gray_pixels :
  Mask.mask_of_array [[0; 127; 128; 255]]
  = Ok [[Half.zero; Half.zero; Half.one; Half.one]].
Proof. vm_compute. reflexivity. Qed.

(** No pixel above 1: no division, the uint8 values are cut as they are. *)
Example mask_of_binary_pixels :
  Mask.mask_of_array [[0; 1; 1]] = Ok [[Half.zero; Half.one; Half.one]].
Proof. vm_compute. reflexivity. Qed.

Example resize_two_pixels :
  Mask.resize_nearest [[0; 255]] 4 2 = [[0; 0; 255; 255]; [0; 0; 255; 255]].
Proof. reflexivity. Qed.

Example chunk_four : Pipeline.chunk 2 [1; 2; 3; 4] = [[1; 2]; [3; 4]].
Proof. reflexivity. Qed.

Example chunk_three : Pipeline.chunk 2 [1; 2; 3] = [[1; 2]; [3]].
Proof. reflexivity. Qed.

Example chunk_one_cannot_be_unpacked :
  Pipeline.unpack2 (Pipeline.chunk 2 [1]) = Raise ValueError.
Proof. reflexivity. Qed.

Example morph_text_is_not_true :
  Args.parsed_morph (Some "True"%string) = Args.PyStr "True".
Proof. reflexivity. Qed.

(** One element of the blend: candidate 7.5, source 1.0, mask 1 and 0. *)
Example blend_elem_masked :
  Pipeline.blend_elem (S754_finite false 1920 (-8)) Half.one Half.one
  = S754_finite false 1920 (-8) /\
  Pipeline.blend_elem (S754_finite false 1920 (-8)) Half.zero Half.one = Half.one.
Proof. split; vm_compute; reflexivity. Qed.

End Examples.

Module BroadcastExamples.

Example broadcast_row : broadcast Z.add [1] [10; 20; 30] = [11; 21; 31].
Proof. reflexivity. Qed.

Example broadcast_equal_sizes : broadcast Z.add [1; 2] [10; 20] = [11; 22].
Proof. reflexivity. Qed.

Example sizes_two_and_three : sizes_agree 2 3 = false.
Proof. reflexivity. Qed.

(** A 1 x 1 latent is repeated over a 2 x 2 mask. *)
Example blend_broadcasts_small_latent :
  Pipeline.checked_blend [[[[Half.one]]]]
    (Pipeline.HalfMask [[Half.one; Half.zero]; [Half.zero; Half.one]]) [[[[Half.zero]]]]
  = Ok [[[[Half.one; Half.zero]; [Half.zero; Half.one]]]].
Proof. vm_compute. reflexivity. Qed.

(** A 2 x 2 latent under a 3 x 3 mask cannot be broadcast. *)
Example blend_raises_on_mismatch :
  Pipeline.checked_blend [[[[Half.one; Half.one]; [Half.one; Half.one]]]]
    (Pipeline.HalfMask (replicate 3 (replicate 3 Half.one)))
    [[[[Half.zero; Half.zero]; [Half.zero; Half.zero]]]]
  = Raise RuntimeError.
Proof. vm_compute. reflexivity. Qed.

(** A 16 x 16 source gives 2 x 2 latents, which the 64 x 64 mask of the
    first iteration does not fit. *)
Example edit_image_raises_on_small_source :
  Pipeline.edit_image Toy.models (Args.parsed_morph None)
    (Pipeline.Build_edit_args Toy.models tt [[0; 255]] ["a dog"%string] 16 16 2
       PyFloat.c_7_5 PyFloat.zero) 0 0
  = Raise RuntimeError.
Proof. vm_compute. reflexivity. Qed.

(** Chunks of three rows and two rows cannot be subtracted. *)
Example guide_raises_on_five_rows :
  Pipeline.guide Toy.models PyFloat.c_7_5 (replicate 5 [[[Half.one]]]) = Raise RuntimeError.
Proof. vm_compute. reflexivity. Qed.

(** Chunks of two rows and one row are broadcast. *)
Example guide_broadcasts_three_rows :
  Pipeline.guide Toy.models PyFloat.c_7_5 (replicate 3 [[[Half.one]]])
  = Ok (replicate 2 [[[Half.one]]]).
Proof. vm_compute. reflexivity. Qed.

Example one_equals_True : Args.py_eq (Args.PyInt 1) (Args.PyBool true) = true.
Proof. reflexivity. Qed.

Example two_is_not_True : Args.py_eq (Args.PyInt 2) (Args.PyBool true) = false.
Proof. reflexivity. Qed.

Example float_one_equals_True : Args.py_eq (Args.PyFlt PyFloat.one) (Args.PyBool true) = true.
Proof. reflexivity. Qed.

Example text_one_is_not_True : Args.py_eq (Args.PyStr "1") (Args.PyBool true) = false.
Proof. reflexivity. Qed.

End BroadcastExamples.

(** ** Binary digits, shifts and rounding *)

Module RoundingFacts.

Lemma digits2_pos_size (p : positive) : digits2_pos p = Pos.size p.
Proof. induction p; simpl; congruence. Qed.

Lemma Zdigits2_log2 (m : Z) : 0 < m -> Zdigits2 m = Z.log2 m + 1.
Proof.
  destruct m as [|p|p]; try lia. intros _. simpl.
  rewrite digits2_pos_size. destruct p; simpl; lia.
Qed.

Lemma Zdigits2_bounds (m : Z) :
  0 < m -> 2 ^ (Zdigits2 m - 1) <= m < 2 ^ Zdigits2 m.
Proof.
  intros Hm. rewrite (Zdigits2_log2 m Hm).
  replace (Z.log2 m + 1 - 1) with (Z.log2 m) by lia.
  pose proof (Z.log2_spec m Hm). replace (Z.log2 m + 1) with (Z.succ (Z.log2 m)) by lia. lia.
Qed.

Lemma Zdigits2_nonneg (m : Z) : 0 <= Zdigits2 m.
Proof. destruct m; simpl; lia. Qed.

Lemma Zdigits2_le_of_lt_pow (m d : Z) : 0 <= m -> 0 <= d -> m < 2 ^ d -> Zdigits2 m <= d.
Proof.
  intros Hm Hd Hlt. destruct (Z.eq_dec m 0) as [->|Hn]; [simpl; lia|].
  rewrite Zdigits2_log2 by lia.
  assert (Z.log2 m < d) by (apply Z.log2_lt_pow2; lia). lia.
Qed.

Lemma Zdigits2_ge_of_pow_le (m d : Z) : 0 < d -> 2 ^ (d - 1) <= m -> d <= Zdigits2 m.
Proof.
  intros Hd Hle. assert (0 < m) by (pose proof (Z.pow_pos_nonneg 2 (d-1)); lia).
  rewrite Zdigits2_log2 by lia.
  assert (d - 1 <= Z.log2 m) by (apply Z.log2_le_pow2; lia). lia.
Qed.

Lemma Zdigits2_shiftr (m k : Z) :
  0 <= m -> 0 <= k -> Zdigits2 (Z.shiftr m k) = Z.max 0 (Zdigits2 m - k).
Proof.
  intros Hm Hk. destruct (Z.eq_dec m 0) as [->|Hn].
  { rewrite Z.shiftr_0_l. simpl. lia. }
  assert (Hpos : 0 < m) by lia.
  pose proof (Zdigits2_bounds m Hpos) as [Hlo Hhi].
  pose proof (Zdigits2_nonneg m) as Hd.
  rewrite Z.shiftr_div_pow2 by lia.
  destruct (Z_lt_le_dec (Zdigits2 m - k) 1) as [Hs|Hs].
  - assert (m < 2 ^ k).
    { eapply Z.lt_le_trans; [exact Hhi|]. apply Z.pow_le_mono_r; lia. }
    rewrite Z.div_small by lia. simpl. lia.
  - assert (Hq : 2 ^ (Zdigits2 m - k - 1) <= m / 2 ^ k < 2 ^ (Zdigits2 m - k)).
    { assert (0 < 2 ^ k) by (apply Z.pow_pos_nonneg; lia). split.
      - apply Z.div_le_lower_bound; [lia|]. rewrite <- Z.pow_add_r by lia.
        replace (k + (Zdigits2 m - k - 1)) with (Zdigits2 m - 1) by lia. exact Hlo.
      - apply Z.div_lt_upper_bound; [lia|]. rewrite <- Z.pow_add_r by lia.
        replace (k + (Zdigits2 m - k)) with (Zdigits2 m) by lia. exact Hhi. }
    assert (0 < m / 2 ^ k) by (pose proof (Z.pow_pos_nonneg 2 (Zdigits2 m - k - 1)); lia).
    pose proof (Zdigits2_le_of_lt_pow (m / 2 ^ k) (Zdigits2 m - k)).
    pose proof (Zdigits2_ge_of_pow_le (m / 2 ^ k) (Zdigits2 m - k)).
    lia.
Qed.

Lemma Zdigits2_succ (m : Z) :
  0 <= m -> Zdigits2 (m + 1) = Zdigits2 m \/
            (Zdigits2 (m + 1) = Zdigits2 m + 1 /\ m + 1 = 2 ^ Zdigits2 m).
Proof.
  intros Hm. destruct (Z.eq_dec m 0) as [->|Hn]; [right; simpl; split; reflexivity|].
  assert (Hpos : 0 < m) by lia.
  pose proof (Zdigits2_bounds m Hpos) as [Hlo Hhi].
  pose proof (Zdigits2_nonneg m) as Hd.
  assert (0 < Zdigits2 m) by (rewrite Zdigits2_log2 by lia; pose proof (Z.log2_nonneg m); lia).
  destruct (Z.eq_dec (m + 1) (2 ^ Zdigits2 m)) as [He|He].
  - right. split; [|exact He].
    pose proof (Zdigits2_ge_of_pow_le (m + 1) (Zdigits2 m + 1)).
    pose proof (Zdigits2_le_of_lt_pow (m + 1) (Zdigits2 m + 1)).
    replace (Zdigits2 m + 1 - 1) with (Zdigits2 m) in * by lia.
    rewrite Z.pow_add_r in * by lia. lia.
  - left.
    pose proof (Zdigits2_ge_of_pow_le (m + 1) (Zdigits2 m)).
    pose proof (Zdigits2_le_of_lt_pow (m + 1) (Zdigits2 m)). lia.
Qed.

Lemma shr_1_m (mrs : shr_record) :
  0 <= shr_m mrs -> shr_m (shr_1 mrs) = Z.shiftr (shr_m mrs) 1 /\ 0 <= shr_m (shr_1 mrs).
Proof.
  destruct mrs as [m r s]. cbn [shr_m]. intros Hm.
  rewrite Z.shiftr_div_pow2 by lia. change (2 ^ 1) with 2.
  destruct m as [|[p|p|]|p]; cbn [shr_1 shr_m]; try lia.
  - split; [reflexivity|lia].
  - split; [|lia]. apply Z.div_unique with (r := 1); lia.
  - split; [|lia]. apply Z.div_unique with (r := 0); lia.
  - split; [reflexivity|lia].
Qed.

Lemma iter_pos_shr_m (p : positive) : forall mrs,
  0 <= shr_m mrs ->
  shr_m (SpecFloat.iter_pos shr_1 p mrs) = Z.shiftr (shr_m mrs) (Zpos p) /\
  0 <= shr_m (SpecFloat.iter_pos shr_1 p mrs).
Proof.
  induction p as [p IH|p IH|]; intros mrs Hm; simpl.
  - destruct (shr_1_m mrs Hm) as [E1 P1].
    destruct (IH _ P1) as [E2 P2]. destruct (IH _ P2) as [E3 P3].
    split; [|exact P3]. rewrite E3, E2, E1.
    rewrite !Z.shiftr_shiftr by lia. f_equal. lia.
  - destruct (IH _ Hm) as [E2 P2]. destruct (IH _ P2) as [E3 P3].
    split; [|exact P3]. rewrite E3, E2.
    rewrite !Z.shiftr_shiftr by lia. f_equal. lia.
  - apply shr_1_m; exact Hm.
Qed.

Lemma shr_record_of_loc_m (m : Z) (l : location) : shr_m (shr_record_of_loc m l) = m.
Proof. destruct l as [|[]]; reflexivity. Qed.

Lemma shr_spec (m : Z) (l : location) (e k : Z) :
  0 <= m ->
  shr_m (fst (shr (shr_record_of_loc m l) e k)) = Z.shiftr m (Z.max 0 k) /\
  snd (shr (shr_record_of_loc m l) e k) = e + Z.max 0 k.
Proof.
  intros Hm. destruct k as [|p|p]; simpl.
  - rewrite shr_record_of_loc_m. split; [reflexivity|lia].
  - destruct (iter_pos_shr_m p (shr_record_of_loc m l)) as [E _].
    { rewrite shr_record_of_loc_m; exact Hm. }
    rewrite E, shr_record_of_loc_m. split; reflexivity.
  - rewrite shr_record_of_loc_m. split; [reflexivity|lia].
Qed.

Lemma round_nearest_even_range (m : Z) (l : location) :
  round_nearest_even m l = m \/ round_nearest_even m l = m + 1.
Proof. destruct l as [|[]]; simpl; auto. destruct (Z.even m); auto. Qed.

Lemma pow2_xO (p : positive) : 2 ^ Zpos p~0 = 2 ^ Zpos p * 2 ^ Zpos p.
Proof. rewrite <- Z.pow_add_r by lia. f_equal. lia. Qed.

Lemma pow2_xI (p : positive) : 2 ^ Zpos p~1 = 2 ^ Zpos p * 2 ^ Zpos p * 2.
Proof.
  rewrite <- Z.pow_add_r by lia. change 2 with (2 ^ 1) at 3.
  rewrite <- Z.pow_add_r by lia. f_equal. lia.
Qed.

(** Exact right shift: shifting out [p] zero bits leaves no round or sticky bit. *)
Lemma iter_pos_shr_exact (p : positive) : forall m,
  0 <= m ->
  SpecFloat.iter_pos shr_1 p (Build_shr_record (m * 2 ^ Zpos p) false false)
  = Build_shr_record m false false.
Proof.
  assert (H1 : forall m, 0 <= m ->
     shr_1 (Build_shr_record (m * 2) false false) = Build_shr_record m false false).
  { intros m Hm. destruct m as [|q|q]; try lia; simpl; try reflexivity.
    rewrite Pos.mul_comm. reflexivity. }
  induction p as [p IH|p IH|]; intros m Hm; cbn [SpecFloat.iter_pos].
  - rewrite pow2_xI. rewrite !Z.mul_assoc.
    rewrite H1. 2:{ pose proof (Z.pow_pos_nonneg 2 (Zpos p)). nia. }
    rewrite IH. 2:{ pose proof (Z.pow_pos_nonneg 2 (Zpos p)). nia. }
    apply IH; exact Hm.
  - rewrite pow2_xO. rewrite !Z.mul_assoc.
    rewrite IH. 2:{ pose proof (Z.pow_pos_nonneg 2 (Zpos p)). nia. }
    apply IH; exact Hm.
  - change (2 ^ 1) with 2. apply H1; exact Hm.
Qed.

Section Round.
Variables prec emax : Z.
Hypothesis Hprec : 0 < prec.

Lemma binary_round_aux_spec (s : bool) (mx ex : Z) (lx : location) :
  0 <= mx ->
  let k1 := Z.max 0 (fexp prec emax (Zdigits2 mx + ex) - ex) in
  let m1 := Z.shiftr mx k1 in
  let e1 := ex + k1 in
  exists m2 m3 e3,
    (m2 = m1 \/ m2 = m1 + 1) /\
    (lx = loc_Exact -> mx = m1 * 2 ^ k1 -> m2 = m1) /\
    0 <= m3 /\ e1 <= e3 /\ m2 = m3 * 2 ^ (e3 - e1) /\
    e3 = e1 + Z.max 0 (fexp prec emax (Zdigits2 m2 + e1) - e1) /\
    binary_round_aux prec emax s mx ex lx = round_result prec emax s m3 e3.
Proof.
  intros Hmx k1 m1 e1.
  assert (Hk1def : k1 = Z.max 0 (fexp prec emax (Zdigits2 mx + ex) - ex)) by reflexivity.
  assert (Hm1def : m1 = Z.shiftr mx k1) by reflexivity.
  assert (He1def : e1 = ex + k1) by reflexivity.
  clearbody e1 m1 k1.
  assert (Hm1 : 0 <= m1) by (rewrite Hm1def; apply Z.shiftr_nonneg; exact Hmx).
  assert (Hk1 : 0 <= k1) by lia.
  assert (Hd1 : Zdigits2 m1 = Z.max 0 (Zdigits2 mx - k1))
    by (rewrite Hm1def; apply Zdigits2_shiftr; assumption).
  assert (Hfmt : fexp prec emax (Zdigits2 m1 + e1) <= e1 /\ emin prec emax <= e1).
  { rewrite Hd1. unfold fexp in *. lia. }
  unfold binary_round_aux, shr_fexp.
  destruct (shr_spec mx lx ex (fexp prec emax (Zdigits2 mx + ex) - ex) Hmx) as [Em Ee].
  rewrite <- Hk1def in Em, Ee. rewrite <- Hm1def in Em. rewrite <- He1def in Ee.
  destruct (shr (shr_record_of_loc mx lx) ex (fexp prec emax (Zdigits2 mx + ex) - ex))
    as [mrs' e'] eqn:Hshr1.
  cbn [fst snd] in Em, Ee. subst e'.
  set (m2 := round_nearest_even (shr_m mrs') (loc_of_shr_record mrs')).
  assert (Hm2 : m2 = m1 \/ m2 = m1 + 1)
    by (unfold m2; rewrite Em; apply round_nearest_even_range).
  assert (Hm2pos : 0 <= m2) by lia.
  destruct (shr_spec m2 loc_Exact e1 (fexp prec emax (Zdigits2 m2 + e1) - e1) Hm2pos)
    as [Em3 Ee3].
  destruct (shr (shr_record_of_loc m2 loc_Exact) e1 (fexp prec emax (Zdigits2 m2 + e1) - e1))
    as [mrs'' e''] eqn:Hshr2.
  cbn [fst snd] in Em3, Ee3.
  set (k2 := Z.max 0 (fexp prec emax (Zdigits2 m2 + e1) - e1)) in *.
  exists m2, (shr_m mrs''), e''.
  assert (Hexact2 : m2 = shr_m mrs'' * 2 ^ k2).
  { rewrite Em3. destruct Hfmt as [Hf He].
    assert (Hcase : k2 = 0 \/ (k2 = 1 /\ m2 = 2 ^ Zdigits2 m1 /\ 0 < Zdigits2 m1)).
    { destruct Hm2 as [E|E]; [left; unfold k2; rewrite E; lia|].
      destruct (Zdigits2_succ m1 Hm1) as [Hs|[Hs Hp]].
      - left. unfold k2. rewrite E, Hs. lia.
      - pose proof (Zdigits2_nonneg m1).
        destruct (Z.eq_dec k2 0) as [?|Hk2]; [left; assumption|right].
        unfold k2, fexp in *. rewrite E, Hs in *. lia. }
    destruct Hcase as [->|(-> & Hp & Hd)].
    - rewrite Z.shiftr_0_r. change (2 ^ 0) with 1. lia.
    - rewrite Hp. rewrite Z.shiftr_div_pow2 by lia. change (2 ^ 1) with 2.
      replace (Zdigits2 m1) with (Z.succ (Zdigits2 m1 - 1)) at 1 2 by lia.
      rewrite Z.pow_succ_r by lia.
      rewrite (Z.mul_comm 2), Z.div_mul by lia. reflexivity. }
  repeat split.
  - exact Hm2.
  - intros Hl Hex. unfold m2.
    assert (Hrec : mrs' = Build_shr_record m1 false false).
    { subst lx. cbn [shr_record_of_loc] in Hshr1. unfold shr in Hshr1.
      destruct (fexp prec emax (Zdigits2 mx + ex) - ex) as [|p|p].
      - injection Hshr1 as <- _. f_equal. rewrite Hex, Hk1def.
        change (2 ^ Z.max 0 0) with 1. lia.
      - injection Hshr1 as <- _. rewrite Hex, Hk1def.
        change (Z.max 0 (Z.pos p)) with (Z.pos p).
        apply iter_pos_shr_exact; exact Hm1.
      - injection Hshr1 as <- _. f_equal. rewrite Hex, Hk1def.
        change (2 ^ Z.max 0 (Z.neg p)) with 1. lia. }
    rewrite Hrec. reflexivity.
  - rewrite Em3. apply Z.shiftr_nonneg. exact Hm2pos.
  - lia.
  - rewrite Ee3. replace (e1 + k2 - e1) with k2 by lia. exact Hexact2.
  - exact Ee3.
Qed.

End Round.

End RoundingFacts.

(** ** Python floats: conversions, product with an integer, true division *)

Module PyFloatFacts.
Import RoundingFacts.
Import PyFloat.

Lemma pos_iter_xO (q p : positive) : Zpos (Pos.iter xO p q) = Zpos p * 2 ^ Zpos q.
Proof.
  revert p. induction q as [|q IH] using Pos.peano_ind; intros p.
  - simpl. lia.
  - rewrite Pos.iter_succ. rewrite Pos2Z.inj_xO, IH.
    rewrite Pos2Z.inj_succ, Z.pow_succ_r by lia. lia.
Qed.

Lemma float_of_int_pos (n : Z) :
  0 < n < 2 ^ 53 ->
  exists m e, float_of_int n = Ok (S754_finite false m e) /\
              -52 <= e <= 0 /\ Zpos m = n * 2 ^ (- e) /\ Zdigits2 (Zpos m) = 53.
Proof.
  intros [Hn0 Hn1]. destruct n as [|p|p]; try lia.
  pose proof (Zdigits2_bounds (Zpos p) Hn0) as [Hlo Hhi].
  assert (Hd : 0 < Zdigits2 (Zpos p) <= 53).
  { split.
    - rewrite Zdigits2_log2 by lia. pose proof (Z.log2_nonneg (Zpos p)). lia.
    - apply Zdigits2_le_of_lt_pow; lia. }
  unfold float_of_int, binary_normalize, binary_round.
  change (Zpos (digits2_pos p)) with (Zdigits2 (Zpos p)).
  set (d := Zdigits2 (Zpos p)) in *.
  assert (Hf : fexp prec emax (d + 0) = d - 53) by (unfold fexp, emin, prec, emax; lia).
  rewrite Hf. unfold shl_align.
  assert (Hal : exists mz ez, 
     (match d - 53 - 0 with Z.neg k => (Pos.iter xO p k, d - 53) | _ => (p, 0) end) = (mz, ez)
     /\ -52 <= ez <= 0 /\ Zpos mz = Zpos p * 2 ^ (- ez) /\ Zdigits2 (Zpos mz) = 53).
  { destruct (d - 53 - 0) as [|k|k] eqn:Hk; try lia.
    - exists p, 0. repeat split; try lia.
    - exists (Pos.iter xO p k), (d - 53). repeat split; try lia.
      + rewrite pos_iter_xO. f_equal. f_equal. lia.
      + assert (Hb : 2 ^ (53 - 1) <= Zpos (Pos.iter xO p k) < 2 ^ 53).
        { rewrite pos_iter_xO. replace (Zpos k) with (53 - d) by lia.
          split.
          - replace (53 - 1) with ((d - 1) + (53 - d)) by lia.
            rewrite Z.pow_add_r by lia. apply Z.mul_le_mono_nonneg_r; [apply Z.pow_nonneg; lia|exact Hlo].
          - replace 53 with (d + (53 - d)) at 2 by lia.
            rewrite Z.pow_add_r by lia. apply Z.mul_lt_mono_pos_r; [apply Z.pow_pos_nonneg; lia|exact Hhi]. }
        pose proof (Zdigits2_le_of_lt_pow (Zpos (Pos.iter xO p k)) 53).
        pose proof (Zdigits2_ge_of_pow_le (Zpos (Pos.iter xO p k)) 53). lia. }
  destruct Hal as (mz & ez & -> & Hez & Hmz & Hdz).
  exists mz, ez.
  destruct (binary_round_aux_spec prec emax ltac:(unfold prec; lia) false (Zpos mz) ez loc_Exact ltac:(lia))
    as (m2 & m3 & e3 & Hm2 & Hex & Hm3 & He3 & Hval & He3def & Hres).
  rewrite Hdz in Hm2, Hex, He3, He3def, Hval.
  assert (Hk1 : Z.max 0 (fexp prec emax (53 + ez) - ez) = 0)
    by (unfold fexp, emin, prec, emax; lia).
  rewrite Hk1 in Hm2, Hex, He3, He3def, Hval.
  rewrite Z.shiftr_0_r in Hm2, Hex. rewrite Z.add_0_r in He3, He3def, Hval.
  assert (Em2 : m2 = Zpos mz) by (apply Hex; [reflexivity|change (2 ^ 0) with 1; lia]).
  rewrite Em2, Hdz, Hk1 in He3def. rewrite Z.add_0_r in He3def.
  rewrite Em2, He3def, Z.sub_diag in Hval. change (2 ^ 0) with 1 in Hval.
  rewrite Z.mul_1_r in Hval. rewrite <- Hval, He3def in Hres.
  rewrite Hres. unfold round_result.
  replace (ez <=? emax - prec) with true by (symmetry; apply Z.leb_le; unfold emax, prec; lia).
  repeat split; try lia.
Qed.

Lemma shiftl_mono (a b e : Z) : a <= b -> Z.shiftl a e <= Z.shiftl b e.
Proof.
  intros H. destruct (Z_le_gt_dec 0 e).
  - rewrite !Z.shiftl_mul_pow2 by lia.
    apply Z.mul_le_mono_nonneg_r; [apply Z.pow_nonneg; lia|exact H].
  - rewrite !Z.shiftl_div_pow2 by lia.
    apply Z.div_le_mono; [apply Z.pow_pos_nonneg; lia|exact H].
Qed.

Lemma shiftl_scaled (m k e : Z) : 0 <= k -> Z.shiftl (m * 2 ^ k) e = Z.shiftl m (k + e).
Proof.
  intros Hk. rewrite <- Z.shiftl_mul_pow2 by exact Hk.
  apply Z.shiftl_shiftl; exact Hk.
Qed.

Lemma shiftl_shiftr_neg (m k e : Z) :
  0 <= k -> e + k <= 0 -> Z.shiftl (Z.shiftr m k) (e + k) = Z.shiftl m e.
Proof.
  intros Hk He. rewrite <- (Z.shiftr_opp_r _ (e + k)) .
  replace (Z.shiftl m e) with (Z.shiftr m (- e)) by (rewrite Z.shiftr_opp_r; reflexivity).
  rewrite Z.shiftr_shiftr by lia. f_equal. lia.
Qed.

(** What [round_result] yields once the mantissa is known to be positive. *)
Lemma round_result_pos (prec emax : Z) (s : bool) (m e : Z) :
  0 < m ->
  round_result prec emax s m e = S754_infinity s \/
  exists p, Zpos p = m /\ round_result prec emax s m e = S754_finite s p e.
Proof.
  intros Hm. destruct m as [|p|p]; try lia. unfold round_result.
  destruct (e <=? emax - prec); [right; exists p; auto|left; reflexivity].
Qed.

Lemma ge_one_inv (s : bool) (m : positive) (e : Z) :
  valid_binary prec emax (S754_finite s m e) = true ->
  SFleb one (S754_finite s m e) = true ->
  s = false /\ 2 ^ 52 <= Zpos m /\ -52 <= e.
Proof.
  unfold valid_binary, bounded, canonical_mantissa, SFleb, SFcompare, one.
  intros Hv Hle. apply andb_prop in Hv. destruct Hv as [Hc _].
  apply Z.eqb_eq in Hc. destruct s; [discriminate|]. split; [reflexivity|].
  change (Zpos (digits2_pos m)) with (Zdigits2 (Zpos m)) in Hc.
  destruct (Z.compare_spec (-52) e) as [He|He|He].
  - clear Hc. split; [|lia].
    destruct (Pos.compare_cont Eq 4503599627370496 m) eqn:Hcmp; try discriminate.
    + apply Pos.compare_eq in Hcmp. subst m. reflexivity.
    + change (Pos.compare_cont Eq 4503599627370496 m) with (Pos.compare 4503599627370496 m) in Hcmp.
      rewrite Pos.compare_lt_iff in Hcmp.
      change (2 ^ 52) with (Zpos 4503599627370496). lia.
  - assert (Hd : Zdigits2 (Zpos m) = 53) by (unfold fexp, emin, prec, emax in Hc; lia).
    pose proof (Zdigits2_bounds (Zpos m) ltac:(lia)) as [Hlo _].
    rewrite Hd in Hlo. clear Hc. split; [exact Hlo|lia].
  - discriminate.
Qed.

Lemma mul_ge_int (n : Z) (f bp : spec_float) :
  0 < n < 2 ^ 53 ->
  valid_binary prec emax bp = true ->
  SFleb one bp = true ->
  float_of_int n = Ok f ->
  match SFmul prec emax f bp with
  | S754_finite s m e => s = false /\ n <= Z.shiftl (Zpos m) e
  | S754_infinity s => s = false
  | _ => False
  end.
Proof.
  intros Hn Hv Hle Hf.
  destruct (float_of_int_pos n Hn) as (mn & en & Hfn & Hen & Hmn & Hdn).
  rewrite Hfn in Hf. injection Hf as <-.
  destruct bp as [sb|sb| |sb my ey].
  - discriminate.
  - destruct sb; [discriminate|reflexivity].
  - discriminate.
  - destruct (ge_one_inv sb my ey Hv Hle) as (-> & Hmy & Hey).
    cbn [SFmul xorb].
    change (Zpos (mn * my)) with (Zpos mn * Zpos my).
    set (M := Zpos mn * Zpos my). set (E := en + ey).
    assert (HM : 0 < M) by (unfold M; lia).
    assert (H0 : n <= Z.shiftl M E).
    { assert (Hp : 0 < 2 ^ (- en)) by (apply Z.pow_pos_nonneg; lia).
      destruct (Z_le_gt_dec 0 E) as [HE|HE].
      - rewrite Z.shiftl_mul_pow2 by lia.
        assert (0 < 2 ^ E) by (apply Z.pow_pos_nonneg; lia).
        unfold M. rewrite Hmn. nia.
      - rewrite Z.shiftl_div_pow2 by lia.
        apply Z.div_le_lower_bound; [apply Z.pow_pos_nonneg; lia|].
        unfold M. rewrite Hmn.
        assert (Hq : 2 ^ (- E) <= 2 ^ (- en) * Zpos my).
        { destruct (Z_le_gt_dec ey 0) as [Hy|Hy].
          - replace (- E) with (- en + - ey) by (unfold E; lia).
            rewrite Z.pow_add_r by lia.
            apply Z.mul_le_mono_nonneg_l; [lia|].
            apply Z.le_trans with (2 ^ 52); [apply Z.pow_le_mono_r; lia|exact Hmy].
          - apply Z.le_trans with (2 ^ (- en)).
            + apply Z.pow_le_mono_r; unfold E; lia.
            + nia. }
        nia. }
    destruct (binary_round_aux_spec prec emax ltac:(unfold prec; lia) false M E loc_Exact ltac:(lia))
      as (m2 & m3 & e3 & Hm2 & _ & Hm3 & He3 & Hval & _ & Hres).
    rewrite Hres. clear Hres.
    set (k1 := Z.max 0 (fexp prec emax (Zdigits2 M + E) - E)) in *.
    set (m1 := Z.shiftr M k1) in *. set (e1 := E + k1) in *.
    assert (Hk1 : 0 <= k1) by (unfold k1; lia).
    assert (H1 : n <= Z.shiftl m1 e1).
    { destruct (Z.eq_dec k1 0) as [Hz|Hz].
      - unfold m1, e1. rewrite Hz, Z.shiftr_0_r, Z.add_0_r. exact H0.
      - destruct (Z_le_gt_dec e1 0) as [He|He].
        + unfold m1, e1. rewrite shiftl_shiftr_neg by (fold e1; lia). exact H0.
        + assert (Hd1 : Zdigits2 m1 = 53).
          { unfold m1. rewrite Zdigits2_shiftr by lia.
            unfold e1, k1, fexp, emin, prec, emax in *. lia. }
          assert (0 < m1).
          { destruct (Z.eq_dec m1 0) as [Hm|Hm]; [rewrite Hm in Hd1; discriminate|].
            assert (0 <= m1) by (apply Z.shiftr_nonneg; lia). lia. }
          pose proof (Zdigits2_bounds m1 ltac:(lia)) as [Hlo _]. rewrite Hd1 in Hlo.
          rewrite Z.shiftl_mul_pow2 by lia.
          assert (2 <= 2 ^ e1).
          { change 2 with (2 ^ 1) at 1. apply Z.pow_le_mono_r; lia. }
          change (2 ^ (53 - 1)) with 4503599627370496 in Hlo.
          change (2 ^ 53) with 9007199254740992 in Hn. nia. }
    assert (H2 : n <= Z.shiftl m3 e3).
    { apply Z.le_trans with (Z.shiftl m2 e1).
      - apply Z.le_trans with (Z.shiftl m1 e1); [exact H1|]. apply shiftl_mono. lia.
      - rewrite Hval. rewrite shiftl_scaled by lia. apply Z.eq_le_incl. f_equal. lia. }
    assert (0 < m3).
    { destruct (Z.eq_dec m3 0) as [Hz|Hz]; [|lia].
      rewrite Hz, Z.shiftl_0_l in H2. lia. }
    destruct (round_result_pos prec emax false m3 e3 ltac:(lia)) as [->|(p & <- & ->)].
    + reflexivity.
    + split; [reflexivity|exact H2].
Qed.

Lemma div_core_small (a b : Z) :
  0 < a < 2 ^ 52 -> 0 < b < 2 ^ 52 ->
  let s := 53 + Zdigits2 b - Zdigits2 a in
  exists l, SFdiv_core_binary prec emax a 0 b 0 = ((a * 2 ^ s) / b, - s, l) /\ 0 < s.
Proof.
  intros Ha Hb s.
  assert (Hda : 0 < Zdigits2 a <= 52).
  { split; [rewrite Zdigits2_log2 by lia; pose proof (Z.log2_nonneg a); lia|].
    apply Zdigits2_le_of_lt_pow; lia. }
  assert (Hdb : 0 < Zdigits2 b <= 52).
  { split; [rewrite Zdigits2_log2 by lia; pose proof (Z.log2_nonneg b); lia|].
    apply Zdigits2_le_of_lt_pow; lia. }
  unfold SFdiv_core_binary.
  assert (He : Z.min (fexp prec emax (Zdigits2 a + 0 - (Zdigits2 b + 0))) (0 - 0) = - s)
    by (unfold fexp, emin, prec, emax, s; lia).
  rewrite He. replace (0 - 0 - - s) with s by lia.
  assert (Hs : 0 < s) by (unfold s; lia).
  destruct s as [|p|p] eqn:Es; try lia.
  rewrite Z.shiftl_mul_pow2 by lia.
  unfold Z.div. destruct (Z.div_eucl (a * 2 ^ Z.pos p) b) as [q r].
  eexists; split; [reflexivity|lia].
Qed.

Lemma truediv_floor (a b : Z) :
  0 < a < 2 ^ 52 -> 0 < b < 2 ^ 52 ->
  exists m e, truediv a b = Ok (S754_finite false m e) /\ Z.shiftl (Zpos m) e = a / b.
Proof.
  intros Ha Hb.
  pose proof (Zdigits2_bounds a ltac:(lia)) as [Halo Hahi].
  pose proof (Zdigits2_bounds b ltac:(lia)) as [Hblo Hbhi].
  assert (Hda : 0 < Zdigits2 a <= 52).
  { split; [rewrite Zdigits2_log2 by lia; pose proof (Z.log2_nonneg a); lia|].
    apply Zdigits2_le_of_lt_pow; lia. }
  assert (Hdb : 0 < Zdigits2 b <= 52).
  { split; [rewrite Zdigits2_log2 by lia; pose proof (Z.log2_nonneg b); lia|].
    apply Zdigits2_le_of_lt_pow; lia. }
  unfold truediv.
  replace (b =? 0) with false by (symmetry; apply Z.eqb_neq; lia).
  replace (a =? 0) with false by (symmetry; apply Z.eqb_neq; lia).
  replace (a <? 0) with false by (symmetry; apply Z.ltb_ge; lia).
  replace (b <? 0) with false by (symmetry; apply Z.ltb_ge; lia).
  rewrite !Z.abs_eq by lia. cbn [xorb].
  destruct (div_core_small a b Ha Hb) as (l & -> & Hs).
  set (s := 53 + Zdigits2 b - Zdigits2 a) in *.
  set (q := a * 2 ^ s / b).
  assert (Hps : 0 < 2 ^ s) by (apply Z.pow_pos_nonneg; lia).
  assert (Hq0 : 0 <= q) by (unfold q; apply Z.div_pos; nia).
  assert (Hq54 : q < 2 ^ 54).
  { unfold q. apply Z.div_lt_upper_bound; [lia|].
    apply Z.lt_le_trans with (2 ^ Zdigits2 a * 2 ^ s); [nia|].
    rewrite <- Z.pow_add_r by lia.
    replace (Zdigits2 a + s) with ((Zdigits2 b - 1) + 54) by (unfold s; lia).
    rewrite Z.pow_add_r by lia.
    apply Z.mul_le_mono_nonneg_r; [apply Z.pow_nonneg; lia|exact Hblo]. }
  assert (Hdq : Zdigits2 q <= 54) by (apply Zdigits2_le_of_lt_pow; lia).
  pose proof (Zdigits2_nonneg q) as Hdq0.
  destruct (binary_round_aux_spec prec emax ltac:(unfold prec; lia) false q (- s) l Hq0)
    as (m2 & m3 & e3 & Hm2 & _ & Hm3 & He3 & Hval & He3def & Hres).
  rewrite Hres. clear Hres.
  set (k1 := Z.max 0 (fexp prec emax (Zdigits2 q + - s) - - s)) in *.
  set (m1 := Z.shiftr q k1) in *. set (e1 := - s + k1) in *.
  assert (Hk1 : 0 <= k1 <= 1) by (unfold k1, fexp, emin, prec, emax, s in *; lia).
  set (sh := s - k1).
  assert (Hsh : Zdigits2 b <= sh) by (unfold sh, s; lia).
  assert (Hpsh : b < 2 ^ sh).
  { apply Z.lt_le_trans with (2 ^ Zdigits2 b); [exact Hbhi|].
    apply Z.pow_le_mono_r; lia. }
  assert (Hpk : 0 < 2 ^ k1) by (apply Z.pow_pos_nonneg; lia).
  assert (Em1 : m1 = a * 2 ^ sh / b).
  { unfold m1, q. rewrite Z.shiftr_div_pow2 by lia.
    rewrite Z.div_div by lia.
    replace s with (sh + k1) by (unfold sh; lia).
    rewrite Z.pow_add_r by lia. rewrite Z.mul_assoc.
    apply Z.div_mul_cancel_r; lia. }
  pose proof (Z.div_mod a b ltac:(lia)) as Hab.
  pose proof (Z.mod_pos_bound a b ltac:(lia)) as Hrho.
  set (k := a / b) in *. set (rho := a mod b) in *.
  assert (Hlo1 : k * 2 ^ sh <= m1).
  { rewrite Em1. apply Z.div_le_lower_bound; [lia|]. nia. }
  assert (Hhi1 : m1 + 1 < (k + 1) * 2 ^ sh).
  { assert (m1 < (k + 1) * 2 ^ sh - 1); [|lia].
    rewrite Em1. apply Z.div_lt_upper_bound; [lia|]. nia. }
  assert (Hm1pos : 1 <= m1).
  { rewrite Em1. apply Z.div_le_lower_bound; [lia|]. nia. }
  assert (Hm2b : k * 2 ^ sh <= m2 < (k + 1) * 2 ^ sh) by lia.
  assert (Hm3pos : 0 < m3).
  { destruct (Z.eq_dec m3 0) as [Hz|Hz]; [rewrite Hz in Hval; lia|lia]. }
  assert (Hdm2 : Zdigits2 m2 <= 55).
  { apply Zdigits2_le_of_lt_pow; try lia.
    assert (m1 <= q).
    { unfold m1. rewrite Z.shiftr_div_pow2 by lia.
      apply Z.div_le_upper_bound; [lia|]. nia. }
    change (2 ^ 55) with (2 * 2 ^ 54). lia. }
  pose proof (Zdigits2_nonneg m2) as Hdm20.
  assert (He3le : e3 <= 971).
  { rewrite He3def. unfold e1, k1, fexp, emin, prec, emax, s in *. lia. }
  assert (Htr : Z.shiftl m3 e3 = k).
  { transitivity (Z.shiftl m2 e1).
    - rewrite Hval, shiftl_scaled by lia. f_equal. lia.
    - rewrite Z.shiftl_div_pow2 by (unfold e1; lia).
      replace (- e1) with sh by (unfold e1, sh; lia).
      symmetry. apply Z.div_unique with (r := m2 - k * 2 ^ sh); lia. }
  destruct m3 as [|p|p]; try lia.
  exists p, e3. unfold round_result.
  replace (e3 <=? emax - prec) with true
    by (symmetry; apply Z.leb_le; unfold emax, prec; lia).
  split; [reflexivity|exact Htr].
Qed.

End PyFloatFacts.

(** ** The [--morph] argument *)

Module ArgsFacts.
Import Args.

(** C7 (as amended). The [--morph] argument is parsed as a [str], so for
    every text given on the command line (the text "True" included), and
    also when the argument is absent, the guard [self.args.morph == True]
    is false: in a run launched from the command line every iteration
    blends with the mask as read, and [morph_dilation] is not called. The
    guard holds exactly for the values that compare equal to [True]: the
    boolean [True], numpy's [True], the integer 1, a float of value 1 and
    an object of another type whose comparison says so; never for a
    string. *)
Theorem morph_never_enabled_from_cli :
  (forall given : option string, morph_enabled (parsed_morph given) = false) /\
  (forall s : string, parsed_morph (Some s) = PyStr s) /\
  morph_enabled (parsed_morph (Some "True"%string)) = false /\
  (forall (M : Pipeline.Models) (given : option string) (mask_image : Mask.gray_image)
          (i threshold : Z),
      Pipeline.step_mask M (parsed_morph given) mask_image i threshold
      = bind (Mask._read_mask mask_image 64 64)
             (fun read => Ok (Pipeline.HalfMask (fst read)))) /\
  (forall s : string, morph_enabled (PyStr s) = false) /\
  float_is_int PyFloat.one 1 = true /\
  (forall v : pyval,
      morph_enabled v = true <->
      v = PyBool true \/ v = PyNpBool true \/ v = PyInt 1 \/
      (exists x, v = PyFlt x /\ float_is_int x 1 = true) \/
      v = PyObject true).
Proof.
  split; [intros [s|]; reflexivity|].
  split; [reflexivity|]. split; [reflexivity|].
  split; [intros M [s|] mask_image i threshold; reflexivity|].
  split; [reflexivity|]. split; [reflexivity|].
  intros v. split.
  - destruct v as [[|]|s|n|x|[|]|[|]]; unfold morph_enabled, py_eq; cbn [numeric];
      intros H; try discriminate H.
    + left. reflexivity.
    + right. right. left. apply Z.eqb_eq in H. congruence.
    + right. right. right. left. exists x. split; [reflexivity|exact H].
    + right. left. reflexivity.
    + right. right. right. right. reflexivity.
  - intros [->|[->|[->|[(x & -> & H)| ->]]]]; try reflexivity. exact H.
Qed.

(** C7 as stated fails: the guard is [==], not [is], so the integer 1 and
    the float 1.0, which are not the boolean [True], switch the morph
    branch on; a run with [args.morph = 1] calls [morph_dilation] at every
    step, and so meets its division by a zero threshold when one timestep
    is processed. *)
Lemma morph_enabled_by_number_one :
  morph_enabled (PyInt 1) = true /\ PyInt 1 <> PyBool true /\
  morph_enabled (PyFlt PyFloat.one) = true /\ PyFlt PyFloat.one <> PyBool true /\
  (forall (M : Pipeline.Models) (mask_image : Mask.gray_image) (i threshold : Z),
      Pipeline.step_mask M (PyInt 1) mask_image i threshold
      = bind (Mask._read_mask mask_image 64 64)
             (fun read =>
                bind (Morph.morph_dilation (Pipeline.cv M) (fst read) i threshold
                        Morph.dilation_init)
                     (fun morphed => Ok (Pipeline.ByteMask morphed)))) /\
  Pipeline.edit_image Toy.models (PyInt 1)
    (Toy.args 50 (S754_finite false 8827055269646172 (-53))) 0 0
  = Raise ZeroDivisionError.
Proof.
  split; [reflexivity|]. split; [discriminate|].
  split; [reflexivity|]. split; [discriminate|].
  split; [intros M mask_image i threshold; reflexivity|].
  vm_compute. reflexivity.
Qed.

End ArgsFacts.

(** ** Thresholding and [_read_mask] *)

Module MaskFacts.
Import Mask.

Lemma forallb_below (P : Z -> bool) (n : nat) :
  forallb P (map Z.of_nat (seq 0 n)) = true ->
  forall v, 0 <= v < Z.of_nat n -> P v = true.
Proof.
  intros H v Hv. rewrite forallb_forall in H. apply H.
  apply in_map_iff. exists (Z.to_nat v). split; [lia|].
  apply in_seq. lia.
Qed.

Lemma map2d_map2d {A B C : Type} (f : B -> C) (g : A -> B) (a : list (list A)) :
  map2d f (map2d g a) = map2d (fun x => f (g x)) a.
Proof.
  unfold map2d. induction a as [|row a IH]; simpl; [reflexivity|].
  f_equal; [|exact IH]. induction row as [|x row IHr]; simpl; [reflexivity|].
  f_equal. exact IHr.
Qed.

Lemma map2d_ext_Forall {A B : Type} (P : A -> Prop) (f g : A -> B) (a : list (list A)) :
  (forall x, P x -> f x = g x) ->
  Forall (Forall P) a -> map2d f a = map2d g a.
Proof.
  intros Hfg Ha. unfold map2d.
  induction Ha as [|row a Hrow _ IH]; simpl; [reflexivity|].
  f_equal; [|exact IH]. induction Hrow as [|x row Hx _ IHr]; simpl; [reflexivity|].
  f_equal; [apply Hfg; exact Hx|exact IHr].
Qed.

Lemma map2d_id_Forall {A : Type} (P : A -> Prop) (f : A -> A) (a : list (list A)) :
  (forall x, P x -> f x = x) ->
  Forall (Forall P) a -> map2d f a = a.
Proof.
  intros Hf Ha. unfold map2d.
  induction Ha as [|row a Hrow _ IH]; simpl; [reflexivity|].
  f_equal; [|exact IH]. induction Hrow as [|x row Hx _ IHr]; simpl; [reflexivity|].
  f_equal; [apply Hf; exact Hx|exact IHr].
Qed.

Lemma map2d_Forall {A B : Type} (P : A -> Prop) (Q : B -> Prop) (f : A -> B)
    (a : list (list A)) :
  (forall x, P x -> Q (f x)) ->
  Forall (Forall P) a -> Forall (Forall Q) (map2d f a).
Proof.
  intros Hf Ha. unfold map2d.
  induction Ha as [|row a Hrow _ IH]; simpl; constructor; [|exact IH].
  induction Hrow as [|x row Hx _ IHr]; simpl; constructor; [apply Hf; exact Hx|exact IHr].
Qed.

Lemma threshold_U8 (a : list (list Z)) : threshold (U8 a) = U8 (map2d cut_u8 a).
Proof. unfold threshold. cbn [below_to_zero above_to_one]. rewrite map2d_map2d. reflexivity. Qed.

Lemma threshold_F64 (a : list (list spec_float)) : threshold (F64 a) = F64 (map2d cut_f64 a).
Proof. unfold threshold. cbn [below_to_zero above_to_one]. rewrite map2d_map2d. reflexivity. Qed.

Lemma cut_u8_spec (v : Z) : 0 <= v <= 255 -> cut_u8 v = if v =? 0 then 0 else 1.
Proof.
  intros Hv.
  assert (H : forallb (fun v => cut_u8 v =? (if v =? 0 then 0 else 1))
                (map Z.of_nat (seq 0 256)) = true) by (vm_compute; reflexivity).
  apply Z.eqb_eq. apply (forallb_below _ 256 H). lia.
Qed.

(** Comparing with a positive float from the other side. *)
Lemma compare_positive_swap (k : positive) (ek : Z) (x : spec_float) (c : comparison) :
  SFcompare x (S754_finite false k ek) = Some c ->
  SFcompare (S754_finite false k ek) x = Some (CompOpp c).
Proof.
  destruct x as [s|s| |s m e]; cbn [SFcompare].
  - intros [= <-]. reflexivity.
  - destruct s; intros [= <-]; reflexivity.
  - discriminate.
  - destruct s; [intros [= <-]; reflexivity|].
    rewrite (Z.compare_antisym e ek).
    destruct (e ?= ek) eqn:He; cbn [CompOpp]; intros [= <-]; try reflexivity.
    f_equal. apply (Pos.compare_antisym m k).
Qed.

Lemma compare_half_swap (x : spec_float) (c : comparison) :
  SFcompare x PyFloat.half = Some c -> SFcompare PyFloat.half x = Some (CompOpp c).
Proof. apply compare_positive_swap. Qed.

Lemma cut_f64_cases (x : spec_float) :
  cut_f64 x = PyFloat.zero \/ cut_f64 x = PyFloat.one \/ (x = S754_nan /\ cut_f64 x = S754_nan).
Proof.
  unfold cut_f64, SFltb, SFleb.
  destruct (SFcompare x PyFloat.half) as [c|] eqn:Hc.
  - pose proof (compare_half_swap x c Hc) as Hs.
    destruct c; cbn [CompOpp] in Hs.
    + rewrite Hs. right; left; reflexivity.
    + left. reflexivity.
    + rewrite Hs. right; left; reflexivity.
  - assert (x = S754_nan).
    { unfold PyFloat.half in Hc. destruct x as [s|s| |s m e]; cbn [SFcompare] in Hc;
        try discriminate Hc; try reflexivity; destruct s; discriminate Hc. }
    subst x. right; right. split; reflexivity.
Qed.

Lemma cut_f64_idempotent (x : spec_float) : cut_f64 (cut_f64 x) = cut_f64 x.
Proof.
  destruct (cut_f64_cases x) as [H|[H|[-> H]]]; rewrite H; reflexivity.
Qed.

(** C10. The thresholding step (elements below 0.5 set to 0, then
    elements from 0.5 on set to 1) is idempotent: applied to an array whose
    elements are all 0 or 1 it returns the same array, and applied twice to
    any array it returns what one application returns. *)
Theorem threshold_idempotent (m : ndarray) :
  (is_binary m -> threshold m = m) /\
  (array_ok m -> threshold (threshold m) = threshold m).
Proof.
  destruct m as [a|a]; split.
  - intros Hb. rewrite threshold_U8. f_equal.
    apply (map2d_id_Forall (fun v => v = 0 \/ v = 1)); [|exact Hb].
    intros v [->| ->]; reflexivity.
  - intros Hok. rewrite !threshold_U8, map2d_map2d. f_equal.
    apply (map2d_ext_Forall pixel_ok); [|exact Hok].
    intros v Hv. rewrite (cut_u8_spec v Hv). destruct (v =? 0); reflexivity.
  - intros Hb. rewrite threshold_F64. f_equal.
    apply (map2d_id_Forall (fun x => x = PyFloat.zero \/ x = PyFloat.one)); [|exact Hb].
    intros x [->| ->]; reflexivity.
  - intros _. rewrite !threshold_F64, map2d_map2d. f_equal.
    unfold map2d. induction a as [|row a IH]; simpl; [reflexivity|].
    f_equal; [|exact IH]. induction row as [|x row IHr]; simpl; [reflexivity|].
    f_equal; [apply cut_f64_idempotent|exact IHr].
Qed.

(** C10, on a concrete array of each dtype. *)
Lemma threshold_idempotent_witness :
  threshold (U8 [[0; 1]; [1; 0]]) = U8 [[0; 1]; [1; 0]] /\
  threshold (threshold (F64 [[PyFloat.c_0_25; PyFloat.c_7_5]]))
  = threshold (F64 [[PyFloat.c_0_25; PyFloat.c_7_5]]).
Proof.
  split.
  - apply (proj1 (threshold_idempotent (U8 [[0; 1]; [1; 0]]))).
    simpl. repeat first [apply List.Forall_nil | apply List.Forall_cons
                        | left; reflexivity | right; reflexivity].
  - apply (proj2 (threshold_idempotent (F64 [[PyFloat.c_0_25; PyFloat.c_7_5]]))).
    exact I.
Defined.

(** *** [_read_mask] *)

Lemma same_float_eq (x y : spec_float) : same_float x y = true -> x = y.
Proof.
  destruct x as [a|a| |a m e], y as [b|b| |b n f]; cbn [same_float]; try discriminate.
  - intros H. apply Bool.eqb_prop in H. congruence.
  - intros H. apply Bool.eqb_prop in H. congruence.
  - reflexivity.
  - intros H. apply andb_prop in H. destruct H as [H He].
    apply andb_prop in H. destruct H as [Hs Hm].
    apply Bool.eqb_prop in Hs. apply Pos.eqb_eq in Hm. apply Z.eqb_eq in He. congruence.
Qed.

Lemma pixel_to_half_divided (v : Z) :
  0 <= v <= 255 ->
  Half.of_f64 (cut_f64 (PyFloat.div (PyFloat.of_u8 v) (PyFloat.of_u8 255)))
  = if 128 <=? v then Half.one else Half.zero.
Proof.
  intros Hv.
  assert (H : forallb (fun v =>
                same_float
                  (Half.of_f64 (cut_f64 (PyFloat.div (PyFloat.of_u8 v) (PyFloat.of_u8 255))))
                  (if 128 <=? v then Half.one else Half.zero))
                (map Z.of_nat (seq 0 256)) = true) by (vm_compute; reflexivity).
  apply same_float_eq. apply (forallb_below _ 256 H). lia.
Qed.

Lemma pixel_to_half_direct (v : Z) :
  0 <= v <= 255 ->
  Half.of_u8 (cut_u8 v) = if 1 <=? v then Half.one else Half.zero.
Proof.
  intros Hv.
  assert (H : forallb (fun v =>
                same_float (Half.of_u8 (cut_u8 v)) (if 1 <=? v then Half.one else Half.zero))
                (map Z.of_nat (seq 0 256)) = true) by (vm_compute; reflexivity).
  apply same_float_eq. apply (forallb_below _ 256 H). lia.
Qed.

Lemma np_max_nonempty (a : list (list Z)) :
  concat a <> [] -> exists mx, np_max a = Ok mx.
Proof.
  unfold np_max. destruct (concat a) as [|v vs]; [congruence|].
  intros _. eexists. reflexivity.
Qed.

(** The array part of [_read_mask] is an elementwise cut at 0.5. *)
Lemma mask_of_array_spec (a : list (list Z)) :
  Forall (Forall pixel_ok) a -> concat a <> [] ->
  exists mx, np_max a = Ok mx /\ mask_of_array a = Ok (map2d (mask_value mx) a).
Proof.
  intros Hok Hne. destruct (np_max_nonempty a Hne) as [mx Hmx].
  exists mx. split; [exact Hmx|].
  unfold mask_of_array. rewrite Hmx. cbn [bind]. f_equal.
  destruct (1 <? mx) eqn:Hc.
  - rewrite threshold_F64. cbn [to_half]. unfold divide_255.
    rewrite !map2d_map2d.
    apply (map2d_ext_Forall pixel_ok); [|exact Hok].
    intros v Hv. unfold mask_value. rewrite Hc. apply pixel_to_half_divided. exact Hv.
  - rewrite threshold_U8. cbn [to_half]. rewrite map2d_map2d.
    apply (map2d_ext_Forall pixel_ok); [|exact Hok].
    intros v Hv. unfold mask_value. rewrite Hc. apply pixel_to_half_direct. exact Hv.
Qed.

Lemma source_pixel_ok (img : gray_image) (y x : nat) :
  image_ok img -> pixel_ok (source_pixel img y x).
Proof.
  intros Hok. unfold source_pixel.
  destruct (img !! y) as [row|] eqn:Hy; [|unfold pixel_ok; simpl; lia].
  destruct (row !! x) as [v|] eqn:Hx; [|unfold pixel_ok; simpl; lia].
  simpl. unfold image_ok in Hok.
  rewrite Forall_lookup in Hok. specialize (Hok y row Hy).
  rewrite Forall_lookup in Hok. exact (Hok x v Hx).
Qed.

Lemma resize_nearest_shape (img : gray_image) (w h : nat) :
  length (resize_nearest img w h) = h /\
  Forall (fun row => length row = w) (resize_nearest img w h).
Proof.
  unfold resize_nearest. split.
  - rewrite length_fmap. apply length_seq.
  - apply Forall_fmap. apply Forall_forall. intros y _. simpl.
    rewrite length_fmap. apply length_seq.
Qed.

Lemma resize_nearest_ok (img : gray_image) (w h : nat) :
  image_ok img -> Forall (Forall pixel_ok) (resize_nearest img w h).
Proof.
  intros Hok. unfold resize_nearest.
  apply Forall_fmap. apply Forall_forall. intros y _. simpl.
  apply Forall_fmap. apply Forall_forall. intros x _. simpl.
  apply source_pixel_ok. exact Hok.
Qed.

Lemma resize_nearest_nonempty (img : gray_image) (w h : nat) :
  (0 < w)%nat -> (0 < h)%nat -> concat (resize_nearest img w h) <> [].
Proof.
  intros Hw Hh. unfold resize_nearest.
  destruct h as [|h]; [lia|]. destruct w as [|w]; [lia|].
  cbn [seq fmap list_fmap concat]. discriminate.
Qed.

Lemma map2d_shape {A B : Type} (f : A -> B) (a : list (list A)) (w : nat) :
  Forall (fun row => length row = w) a ->
  length (map2d f a) = length a /\ Forall (fun row => length row = w) (map2d f a).
Proof.
  intros Ha. unfold map2d. split; [apply length_fmap|].
  apply Forall_fmap. eapply Forall_impl; [exact Ha|].
  intros row Hr. simpl. rewrite length_fmap. exact Hr.
Qed.

(** What [_read_mask] returns on a well formed image. *)
Lemma read_mask_spec (img : gray_image) (w h : nat) :
  image_ok img -> (0 < w)%nat -> (0 < h)%nat ->
  exists mx,
    np_max (resize_nearest img w h) = Ok mx /\
    _read_mask img w h = Ok (map2d (mask_value mx) (resize_nearest img w h), img).
Proof.
  intros Hok Hw Hh.
  destruct (mask_of_array_spec (resize_nearest img w h)
              (resize_nearest_ok img w h Hok) (resize_nearest_nonempty img w h Hw Hh))
    as (mx & Hmx & Hm).
  exists mx. split; [exact Hmx|].
  unfold _read_mask. rewrite Hm. reflexivity.
Qed.

Lemma mask_value_binary (mx v : Z) :
  mask_value mx v = Half.zero \/ mask_value mx v = Half.one.
Proof. unfold mask_value. destruct (if 1 <? mx then 128 <=? v else 1 <=? v); auto. Qed.

(** C9 (as amended). For every 8 bit grayscale mask image, [_read_mask]
    at the default destination size returns a 64 x 64 array in which every
    element is 0 or 1: the pixel is cut at 0.5, after a division by 255
    that takes place only when the largest pixel exceeds 1. Both values
    need not occur. *)
Theorem read_mask_binary (img : gray_image) :
  image_ok img ->
  exists mask mx,
    _read_mask img 64 64 = Ok (mask, img) /\
    np_max (resize_nearest img 64 64) = Ok mx /\
    mask = map2d (mask_value mx) (resize_nearest img 64 64) /\
    length mask = 64%nat /\
    Forall (fun row => length row = 64%nat) mask /\
    Forall (Forall (fun x => x = Half.zero \/ x = Half.one)) mask.
Proof.
  intros Hok.
  destruct (read_mask_spec img 64 64 Hok ltac:(lia) ltac:(lia)) as (mx & Hmx & Hr).
  exists (map2d (mask_value mx) (resize_nearest img 64 64)), mx.
  destruct (resize_nearest_shape img 64 64) as [Hlen Hrows].
  destruct (map2d_shape (mask_value mx) _ 64 Hrows) as [Hl2 Hr2].
  refine (conj Hr (conj Hmx (conj eq_refl (conj _ (conj Hr2 _))))).
  - rewrite Hl2. exact Hlen.
  - apply (map2d_Forall (fun _ => True)).
    + intros v _. apply mask_value_binary.
    + apply Forall_forall. intros row _. apply Forall_forall. intros v _. exact I.
Qed.

(** C9, on a two pixel image. *)
Lemma read_mask_binary_witness :
  exists mask mx,
    _read_mask [[0; 255]] 64 64 = Ok (mask, [[0; 255]]) /\
    np_max (resize_nearest [[0; 255]] 64 64) = Ok mx /\
    mask = map2d (mask_value mx) (resize_nearest [[0; 255]] 64 64) /\
    length mask = 64%nat /\
    Forall (fun row => length row = 64%nat) mask /\
    Forall (Forall (fun x => x = Half.zero \/ x = Half.one)) mask.
Proof.
  apply (read_mask_binary [[0; 255]]).
  unfold image_ok, pixel_ok. repeat constructor; lia.
Defined.

(** C9 as stated fails: an all black mask image yields a mask in which the
    value 1 does not occur, so only one value is present. *)
Lemma read_mask_black_has_no_one :
  image_ok [[0]] /\
  exists mask,
    _read_mask [[0]] 64 64 = Ok (mask, [[0]]) /\
    ~ In Half.one (elements mask) /\
    ~ (In Half.zero (elements mask) /\ In Half.one (elements mask)).
Proof.
  split; [unfold image_ok, pixel_ok; repeat constructor; lia|].
  destruct (read_mask_spec [[0]] 64 64) as (mx & Hmx & Hr);
    [unfold image_ok, pixel_ok; repeat constructor; lia|lia|lia|].
  eexists. split; [exact Hr|].
  assert (Hz : forallb Half.is_zero
                 (elements (map2d (mask_value mx) (resize_nearest [[0]] 64 64))) = true).
  { assert (mx = 0) by (vm_compute in Hmx; congruence). subst mx.
    vm_compute. reflexivity. }
  rewrite forallb_forall in Hz.
  assert (Hno : ~ In Half.one (elements (map2d (mask_value mx) (resize_nearest [[0]] 64 64)))).
  { intros Hin. specialize (Hz _ Hin). discriminate Hz. }
  split; [exact Hno|]. intros [_ H]. exact (Hno H).
Qed.

End MaskFacts.

(** ** The kernel schedule of [morph_dilation] *)

Module MorphFacts.
Import Morph.

Lemma morph_kernel_erode (i threshold d : Z) :
  i < threshold -> morph_kernel i threshold d = Ok (Erode 2).
Proof.
  intros Hi. unfold morph_kernel.
  replace (i <? threshold) with true by (symmetry; apply Z.ltb_lt; exact Hi).
  reflexivity.
Qed.

(** In the dilation phase the float quotient, truncated, is the integer
    quotient. *)
Lemma morph_kernel_dilate (i threshold : Z) :
  1 <= threshold <= i -> dilation_init * i < 2 ^ 52 ->
  morph_kernel i threshold dilation_init = Ok (Dilate (dilation_init * i / threshold)).
Proof.
  unfold dilation_init. intros Ht Hb. unfold morph_kernel.
  replace (i <? threshold) with false by (symmetry; apply Z.ltb_ge; lia).
  destruct (PyFloatFacts.truediv_floor (5 * i) threshold ltac:(lia) ltac:(lia))
    as (m & e & Hdiv & Hfloor).
  rewrite Hdiv. cbn [bind PyFloat.int_of_float cond_Zopp]. rewrite Hfloor.
  assert (Hk : 5 <= 5 * i / threshold).
  { apply Z.div_le_lower_bound; lia. }
  unfold np_ones_square.
  replace (5 * i / threshold <? 0) with false by (symmetry; apply Z.ltb_ge; lia).
  reflexivity.
Qed.

Lemma dilate_size_at_least_init (i threshold : Z) :
  1 <= threshold <= i -> dilation_init <= dilation_init * i / threshold.
Proof.
  unfold dilation_init. intros Ht. apply Z.div_le_lower_bound; lia.
Qed.

(** C5. With the threshold equal to half (floor) of the number of
    processed timesteps, [morph_dilation] erodes with a 2 x 2 kernel at
    every index below the threshold, and from the threshold on dilates
    with a square kernel of side [floor(dilation_init * i / threshold)],
    [dilation_init] being 5; hence for two indices [i1 < i2] of the
    dilation phase the kernel at [i2] is at least as large as at [i1]. *)
Theorem dilation_kernel_monotone (cv : Cv2) (mask : plane) (total threshold i1 i2 : Z) :
  threshold = threshold_of total ->
  1 <= threshold -> threshold <= i1 -> i1 < i2 -> dilation_init * i2 < 2 ^ 52 ->
  dilation_init = 5 /\
  threshold = total / 2 /\
  (forall i, i < threshold ->
     morph_dilation cv mask i threshold dilation_init
     = Ok (cv_erode cv (astype_u8 (cv_close cv mask 1)) 2)) /\
  morph_dilation cv mask i1 threshold dilation_init
  = Ok (cv_dilate cv (astype_u8 (cv_close cv mask 1)) (dilation_init * i1 / threshold)) /\
  morph_dilation cv mask i2 threshold dilation_init
  = Ok (cv_dilate cv (astype_u8 (cv_close cv mask 1)) (dilation_init * i2 / threshold)) /\
  dilation_init * i1 / threshold <= dilation_init * i2 / threshold.
Proof.
  intros Hth Ht H1 H12 Hb.
  assert (Hd : dilation_init = 5) by reflexivity.
  split; [exact Hd|]. split; [exact Hth|]. split; [|split; [|split]].
  - intros i Hi. unfold morph_dilation. rewrite (morph_kernel_erode i threshold _ Hi).
    reflexivity.
  - unfold morph_dilation. rewrite morph_kernel_dilate by (rewrite ?Hd in *; lia).
    reflexivity.
  - unfold morph_dilation. rewrite morph_kernel_dilate by (rewrite ?Hd in *; lia).
    reflexivity.
  - apply Z.div_le_mono; [lia|]. rewrite Hd. lia.
Qed.

(** C5, for 37 processed timesteps (threshold 18) at steps 20 and 30. *)
Lemma dilation_kernel_monotone_witness :
  dilation_init = 5 /\
  18 = 37 / 2 /\
  (forall i, i < 18 ->
     morph_dilation Toy.cv [] i 18 dilation_init
     = Ok (cv_erode Toy.cv (astype_u8 (cv_close Toy.cv [] 1)) 2)) /\
  morph_dilation Toy.cv [] 20 18 dilation_init
  = Ok (cv_dilate Toy.cv (astype_u8 (cv_close Toy.cv [] 1)) (dilation_init * 20 / 18)) /\
  morph_dilation Toy.cv [] 30 18 dilation_init
  = Ok (cv_dilate Toy.cv (astype_u8 (cv_close Toy.cv [] 1)) (dilation_init * 30 / 18)) /\
  dilation_init * 20 / 18 <= dilation_init * 30 / 18.
Proof.
  apply (dilation_kernel_monotone Toy.cv [] 37 18 20 30).
  - reflexivity.
  - lia.
  - lia.
  - lia.
  - vm_compute. reflexivity.
Defined.

(** C6 (as amended). [morph_dilation] has no guard for an empty kernel:
    whatever side the kernel computation yields is handed to the library
    as it is. For a threshold of at least 1 none is needed: at every step
    index [i >= 0] the call returns without raising; it erodes with the
    2 x 2 kernel when [i < threshold], and otherwise dilates with a kernel
    of side [floor (dilation_init * i / threshold)], which is at least
    [dilation_init = 5], so a kernel of side 0 or less is never built. *)
Theorem morph_dilation_kernel_positive (cv : Cv2) (mask : plane) (i threshold : Z) :
  1 <= threshold -> 0 <= i -> dilation_init * i < 2 ^ 52 ->
  (i < threshold ->
   morph_kernel i threshold dilation_init = Ok (Erode 2) /\
   morph_dilation cv mask i threshold dilation_init
   = Ok (cv_erode cv (astype_u8 (cv_close cv mask 1)) 2)) /\
  (threshold <= i ->
   morph_kernel i threshold dilation_init = Ok (Dilate (dilation_init * i / threshold)) /\
   morph_dilation cv mask i threshold dilation_init
   = Ok (cv_dilate cv (astype_u8 (cv_close cv mask 1)) (dilation_init * i / threshold)) /\
   5 <= dilation_init * i / threshold) /\
  (forall i' threshold' d k,
      morph_kernel i' threshold' d = Ok (Dilate k) ->
      morph_dilation cv mask i' threshold' d
      = Ok (cv_dilate cv (astype_u8 (cv_close cv mask 1)) k)) /\
  (exists op,
    morph_kernel i threshold dilation_init = Ok op /\
    (op = Erode 2 \/ exists k, op = Dilate k /\ 5 <= k) /\
    raises (morph_dilation cv mask i threshold dilation_init) = false).
Proof.
  intros Ht Hi Hb.
  split; [|split; [|split]].
  - intros Hlt. unfold morph_dilation.
    rewrite (morph_kernel_erode i threshold _ Hlt). split; reflexivity.
  - intros Hge. unfold morph_dilation.
    rewrite morph_kernel_dilate by lia.
    split; [reflexivity|]. split; [reflexivity|].
    apply (dilate_size_at_least_init i threshold). lia.
  - intros i' threshold' d k Hk. unfold morph_dilation. rewrite Hk. reflexivity.
  - destruct (Z_lt_le_dec i threshold) as [Hlt|Hge].
    + exists (Erode 2). unfold morph_dilation.
      rewrite (morph_kernel_erode i threshold _ Hlt).
      split; [reflexivity|]. split; [left; reflexivity|reflexivity].
    + exists (Dilate (dilation_init * i / threshold)). unfold morph_dilation.
      rewrite morph_kernel_dilate by lia.
      split; [reflexivity|]. split; [|reflexivity].
      right. eexists. split; [reflexivity|].
      apply (dilate_size_at_least_init i threshold). lia.
Qed.

(** C6 as amended, at threshold 18 and step 20: the kernel has side
    [5 * 20 // 18 = 5]. *)
Lemma morph_dilation_kernel_positive_witness :
  morph_kernel 20 18 dilation_init = Ok (Dilate 5) /\
  morph_dilation Toy.cv [] 20 18 dilation_init
  = Ok (cv_dilate Toy.cv (astype_u8 (cv_close Toy.cv [] 1)) 5) /\
  raises (morph_dilation Toy.cv [] 20 18 dilation_init) = false.
Proof.
  destruct (morph_dilation_kernel_positive Toy.cv [] 20 18) as (_ & Hd & _ & Hex).
  - lia.
  - lia.
  - vm_compute. reflexivity.
  - destruct (Hd ltac:(lia)) as (Hk & Hm & _).
    split; [exact Hk|]. split; [exact Hm|].
    destruct Hex as (op & _ & _ & Hr). exact Hr.
Defined.

(** C6 as stated fails: when a single timestep is processed the threshold
    that the loop setup produces is [1 // 2 = 0], and the first step
    divides by it; so does [edit_image] with morphing on, 50 timesteps and
    a percentage of 0.98. *)
Lemma morph_dilation_raises_at_threshold_zero :
  threshold_of 1 = 0 /\
  morph_kernel 0 (threshold_of 1) dilation_init = Raise ZeroDivisionError /\
  (forall (cv : Cv2) (mask : plane),
     morph_dilation cv mask 0 (threshold_of 1) dilation_init = Raise ZeroDivisionError) /\
  Pipeline.edit_image Toy.models (Args.PyBool true)
    (Toy.args 50 (S754_finite false 8827055269646172 (-53))) 0 0
  = Raise ZeroDivisionError.
Proof.
  split; [reflexivity|]. split; [reflexivity|].
  split; [intros cv mask; reflexivity|].
  vm_compute. reflexivity.
Qed.

End MorphFacts.

(** ** Half precision: products with 1 and 0 *)

Module HalfFacts.
Import RoundingFacts.

Lemma Zdigits2_mul_pow2 (m k : Z) :
  0 < m -> 0 <= k -> Zdigits2 (m * 2 ^ k) = Zdigits2 m + k.
Proof.
  intros Hm Hk.
  pose proof (Zdigits2_bounds m Hm) as [Hlo Hhi].
  pose proof (Zdigits2_nonneg m) as Hd.
  assert (Hd1 : 0 < Zdigits2 m).
  { rewrite Zdigits2_log2 by lia. pose proof (Z.log2_nonneg m). lia. }
  assert (Hp : 0 < 2 ^ k) by (apply Z.pow_pos_nonneg; lia).
  assert (Hlo' : 2 ^ (Zdigits2 m + k - 1) <= m * 2 ^ k).
  { replace (Zdigits2 m + k - 1) with ((Zdigits2 m - 1) + k) by lia.
    rewrite Z.pow_add_r by lia. apply Z.mul_le_mono_nonneg_r; lia. }
  assert (Hhi' : m * 2 ^ k < 2 ^ (Zdigits2 m + k)).
  { rewrite Z.pow_add_r by lia. apply Z.mul_lt_mono_pos_r; lia. }
  pose proof (Zdigits2_le_of_lt_pow (m * 2 ^ k) (Zdigits2 m + k) ltac:(lia) ltac:(lia) Hhi').
  pose proof (Zdigits2_ge_of_pow_le (m * 2 ^ k) (Zdigits2 m + k) ltac:(lia) Hlo').
  lia.
Qed.

(** Multiplying a half by 1.0 returns it unchanged. *)
Lemma mul_one (x : spec_float) : Half.valid x = true -> Half.mul x Half.one = x.
Proof.
  destruct x as [s|s| |s m e]; intros Hv.
  - destruct s; reflexivity.
  - destruct s; reflexivity.
  - reflexivity.
  - unfold Half.valid, valid_binary, bounded, canonical_mantissa in Hv.
    apply andb_prop in Hv. destruct Hv as [Hc He].
    apply Z.eqb_eq in Hc. apply Z.leb_le in He.
    change (Zpos (digits2_pos m)) with (Zdigits2 (Zpos m)) in Hc.
    unfold Half.mul, Half.one. cbn [SFmul].
    change (Zpos (m * 1024)) with (Zpos m * 2 ^ 10).
    destruct (binary_round_aux_spec Half.prec Half.emax ltac:(unfold Half.prec; lia)
                (xorb s false) (Zpos m * 2 ^ 10) (e + -10) loc_Exact ltac:(lia))
      as (m2 & m3 & e3 & _ & Hex & Hm3 & He3 & Hval & He3def & Hres).
    rewrite Hres. clear Hres.
    rewrite Zdigits2_mul_pow2 in Hex, He3, Hval, He3def by lia.
    replace (Zdigits2 (Zpos m) + 10 + (e + -10)) with (Zdigits2 (Zpos m) + e) in * by lia.
    rewrite Hc in Hex, He3, Hval, He3def.
    replace (Z.max 0 (e - (e + -10))) with 10 in * by lia.
    replace (e + -10 + 10) with e in * by lia.
    rewrite Z.shiftr_div_pow2, Z.div_mul in Hex by lia.
    assert (Em2 : m2 = Zpos m) by (apply Hex; reflexivity).
    rewrite Em2, Hc in He3def. replace (e + Z.max 0 (e - e)) with e in He3def by lia.
    rewrite Em2, He3def, Z.sub_diag in Hval. change (2 ^ 0) with 1 in Hval.
    rewrite Z.mul_1_r in Hval. rewrite <- Hval, He3def.
    unfold round_result.
    replace (e <=? Half.emax - Half.prec) with true by (symmetry; apply Z.leb_le; exact He).
    rewrite xorb_false_r. reflexivity.
Qed.

(** A finite half times a zero is a zero. *)
Lemma mul_zero (x : spec_float) (s : bool) :
  Half.is_finite x = true -> Half.is_zero (Half.mul x (S754_zero s)) = true.
Proof. destruct x as [a|a| |a m e]; intros H; try discriminate H; reflexivity. Qed.

(** Adding a zero to a finite half: the same number, the same data unless
    it is a zero itself. *)
Lemma add_zero_r (x z : spec_float) :
  Half.is_finite x = true -> Half.is_zero z = true ->
  Half.eqb (Half.add x z) x = true /\ (Half.is_zero x = false -> Half.add x z = x).
Proof.
  destruct z as [b|b| |b n f]; intros Hx Hz; try discriminate Hz.
  destruct x as [a|a| |a m e]; try discriminate Hx.
  - split; [destruct a, b; reflexivity|discriminate].
  - split; [|reflexivity]. cbn [Half.add SFadd]. unfold Half.eqb, SFeqb. cbn [SFcompare].
    destruct a; rewrite Z.compare_refl, Pos.compare_cont_refl; reflexivity.
Qed.

Lemma add_zero_l (z x : spec_float) :
  Half.is_finite x = true -> Half.is_zero z = true ->
  Half.eqb (Half.add z x) x = true /\ (Half.is_zero x = false -> Half.add z x = x).
Proof.
  destruct z as [b|b| |b n f]; intros Hx Hz; try discriminate Hz.
  destruct x as [a|a| |a m e]; try discriminate Hx.
  - split; [destruct a, b; reflexivity|discriminate].
  - split; [|reflexivity]. cbn [Half.add SFadd]. unfold Half.eqb, SFeqb. cbn [SFcompare].
    destruct a; rewrite Z.compare_refl, Pos.compare_cont_refl; reflexivity.
Qed.

End HalfFacts.

(** ** Shapes under broadcasting *)

Module ShapeFacts.
Import Pipeline.

Lemma sizes_agree_refl (n : nat) : sizes_agree n n = true.
Proof. unfold sizes_agree. rewrite Nat.eqb_refl. reflexivity. Qed.

(** On operands of one length, broadcasting pairs entry with entry. *)
Lemma broadcast_same_length {A B C : Type} (f : A -> B -> C) (a : list A) (b : list B) :
  length a = length b -> broadcast f a b = zip_with f a b.
Proof.
  intros H. unfold broadcast.
  destruct a as [|a0 [|a1 a']], b as [|b0 [|b1 b']];
    cbn [length] in H; try discriminate H; reflexivity.
Qed.

Lemma forallb_zip_with {A B : Type} (P : A -> Prop) (Q : B -> Prop) (g : A -> B -> bool)
    (a : list A) (b : list B) :
  (forall x y, P x -> Q y -> g x y = true) ->
  Forall P a -> Forall Q b ->
  forallb (fun ok : bool => ok) (zip_with g a b) = true.
Proof.
  intros Hg Ha. revert b. induction Ha as [|x a Hx _ IH]; intros b Hb; [reflexivity|].
  destruct Hb as [|y b Hy Hb]; [reflexivity|].
  cbn [zip_with forallb]. rewrite (Hg x y Hx Hy). exact (IH b Hb).
Qed.

Lemma Forall_zip_with {A B C : Type} (P : A -> Prop) (Q : B -> Prop) (R : C -> Prop)
    (f : A -> B -> C) (a : list A) (b : list B) :
  (forall x y, P x -> Q y -> R (f x y)) ->
  Forall P a -> Forall Q b -> Forall R (zip_with f a b).
Proof.
  intros Hf Ha. revert b. induction Ha as [|x a Hx _ IH]; intros b Hb; [constructor|].
  destruct Hb as [|y b Hy Hb]; [constructor|].
  cbn [zip_with]. constructor; [exact (Hf x y Hx Hy)|exact (IH b Hb)].
Qed.

Lemma broadcastable_same {A B : Type} (P : A -> Prop) (Q : B -> Prop)
    (inner : A -> B -> bool) (a : list A) (b : list B) :
  length a = length b ->
  (forall x y, P x -> Q y -> inner x y = true) ->
  Forall P a -> Forall Q b -> broadcastable inner a b = true.
Proof.
  intros Hl Hin Ha Hb. unfold broadcastable.
  rewrite Hl, sizes_agree_refl, (broadcast_same_length inner a b Hl). cbn [andb].
  exact (forallb_zip_with P Q inner a b Hin Ha Hb).
Qed.

Lemma planes_broadcastable_same (h w : nat) (p q : plane) :
  grid_shape h w p -> grid_shape h w q -> planes_broadcastable p q = true.
Proof.
  intros [Hp Hpr] [Hq Hqr]. unfold planes_broadcastable.
  apply (broadcastable_same (fun r => length r = w) (fun r => length r = w));
    [congruence| |exact Hpr|exact Hqr].
  intros r r' Hr Hr'. unfold rows_broadcastable. rewrite Hr, Hr'. apply sizes_agree_refl.
Qed.

Lemma grid_shape_broadcast (f : spec_float -> spec_float -> spec_float)
    (h w : nat) (p q : plane) :
  grid_shape h w p -> grid_shape h w q -> grid_shape h w (broadcast (broadcast f) p q).
Proof.
  intros [Hp Hpr] [Hq Hqr].
  rewrite (broadcast_same_length _ p q) by congruence. split.
  - rewrite length_zip_with. lia.
  - apply (Forall_zip_with (fun r => length r = w) (fun r => length r = w)); [|exact Hpr|exact Hqr].
    intros r r' Hr Hr'. rewrite (broadcast_same_length f r r') by congruence.
    rewrite length_zip_with. lia.
Qed.

Lemma grid_shape_map2d {A B : Type} (f : A -> B) (h w : nat) (g : list (list A)) :
  grid_shape h w g -> grid_shape h w (map2d f g).
Proof.
  intros [Hl Hr]. destruct (MaskFacts.map2d_shape f g w Hr) as [Hl' Hr'].
  split; [congruence|exact Hr'].
Qed.

Lemma mask_factor_shape (h w : nat) (m : mask_tensor) :
  mask_shape h w m -> grid_shape h w (mask_factor m).
Proof. destruct m; cbn [mask_shape mask_factor]; [auto|apply grid_shape_map2d]. Qed.

Lemma one_minus_shape (h w : nat) (m : mask_tensor) :
  mask_shape h w m -> grid_shape h w (one_minus m).
Proof. destruct m; cbn [mask_shape one_minus]; apply grid_shape_map2d. Qed.

Lemma broadcast_mul_shape (n c h w : nat) (b : batch) (p : plane) :
  has_shape n c h w b -> grid_shape h w p ->
  has_shape n c h w (broadcast_mul b p) /\ mask_broadcastable b p = true.
Proof.
  intros [Hn Hb] Hp. unfold broadcast_mul, mask_broadcastable. split; [split|].
  - rewrite length_fmap. exact Hn.
  - apply Forall_fmap. eapply Forall_impl; [exact Hb|].
    intros l [Hc Hl]. cbn. split; [rewrite length_fmap; exact Hc|].
    apply Forall_fmap. eapply Forall_impl; [exact Hl|].
    intros pl Hpl. cbn. apply grid_shape_broadcast; assumption.
  - apply forallb_forall. intros l Hin.
    rewrite List.Forall_forall in Hb. destruct (Hb l Hin) as [_ Hl].
    apply forallb_forall. intros pl Hpl.
    rewrite List.Forall_forall in Hl.
    exact (planes_broadcastable_same h w pl p (Hl pl Hpl) Hp).
Qed.

Lemma batch_map2_shape (f : spec_float -> spec_float -> spec_float)
    (n c h w : nat) (a b : batch) :
  has_shape n c h w a -> has_shape n c h w b ->
  has_shape n c h w (batch_map2 f a b) /\ batches_broadcastable a b = true.
Proof.
  intros [Hna Ha] [Hnb Hb].
  set (S := fun l : list plane => length l = c /\ Forall (grid_shape h w) l) in *.
  split; [split|].
  - unfold batch_map2. rewrite (broadcast_same_length _ a b) by congruence.
    rewrite length_zip_with. lia.
  - unfold batch_map2. rewrite (broadcast_same_length _ a b) by congruence.
    apply (Forall_zip_with S S S); [|exact Ha|exact Hb].
    intros l l' [Hc Hl] [Hc' Hl']. unfold S.
    rewrite (broadcast_same_length _ l l') by congruence. split.
    + rewrite length_zip_with. lia.
    + apply (Forall_zip_with (grid_shape h w) (grid_shape h w) (grid_shape h w));
        [|exact Hl|exact Hl'].
      intros p p' Hp Hp'. apply grid_shape_broadcast; assumption.
  - unfold batches_broadcastable.
    apply (broadcastable_same S S); [congruence| |exact Ha|exact Hb].
    intros l l' [Hc Hl] [Hc' Hl'].
    apply (broadcastable_same (grid_shape h w) (grid_shape h w));
      [congruence| |exact Hl|exact Hl'].
    intros p p' Hp Hp'. exact (planes_broadcastable_same h w p p' Hp Hp').
Qed.

(** On a candidate, a mask and a noised source of matching shapes the
    blend is defined and keeps the shape. *)
Lemma blend_shape (n c h w : nat) (latents noised : batch) (mask : mask_tensor) :
  has_shape n c h w latents -> has_shape n c h w noised -> mask_shape h w mask ->
  checked_blend latents mask noised = Ok (blend latents mask noised) /\
  has_shape n c h w (blend latents mask noised).
Proof.
  intros Hl Hn Hm.
  destruct (broadcast_mul_shape n c h w latents _ Hl (mask_factor_shape h w mask Hm))
    as [Hs1 Hb1].
  destruct (broadcast_mul_shape n c h w noised _ Hn (one_minus_shape h w mask Hm))
    as [Hs2 Hb2].
  destruct (batch_map2_shape Half.add n c h w _ _ Hs1 Hs2) as [Hs Hb].
  split; [|exact Hs].
  unfold checked_blend, blendable. rewrite Hb1, Hb2, Hb. reflexivity.
Qed.

End ShapeFacts.

(** ** The denoising loop *)

Module PipelineFacts.
Import Pipeline.

(** *** Elements of blended tensors *)

(** Where both operands have an entry, broadcasting pairs the two. *)
Lemma lookup_broadcast {A B C : Type} (f : A -> B -> C) (a : list A) (b : list B)
    (i : nat) (x : A) (y : B) :
  a !! i = Some x -> b !! i = Some y -> broadcast f a b !! i = Some (f x y).
Proof.
  intros Ha Hb.
  assert (Hz : zip_with f a b !! i = Some (f x y)).
  { rewrite lookup_zip_with, Ha. cbn. rewrite Hb. reflexivity. }
  unfold broadcast.
  destruct a as [|a0 [|a1 a']]; [exact Hz| |].
  - destruct b as [|b0 [|b1 b']]; [exact Hz|exact Hz|].
    destruct i as [|i]; [|rewrite lookup_cons, lookup_nil in Ha; discriminate Ha].
    cbn in Ha. injection Ha as ->.
    rewrite list_lookup_fmap, Hb. reflexivity.
  - destruct b as [|b0 [|b1 b']]; [exact Hz| |exact Hz].
    destruct i as [|i]; [|rewrite lookup_cons, lookup_nil in Hb; discriminate Hb].
    cbn in Hb. injection Hb as ->.
    rewrite list_lookup_fmap, Ha. reflexivity.
Qed.

Lemma at_pixel_broadcast (f : spec_float -> spec_float -> spec_float)
    (p q : plane) (y x : nat) (u v : spec_float) :
  at_pixel p y x = Some u -> at_pixel q y x = Some v ->
  at_pixel (broadcast (broadcast f) p q) y x = Some (f u v).
Proof.
  unfold at_pixel.
  destruct (p !! y) as [r|] eqn:Hp; [|discriminate].
  destruct (q !! y) as [r'|] eqn:Hq; [|discriminate].
  intros Hu Hv.
  rewrite (lookup_broadcast (broadcast f) p q y r r' Hp Hq).
  exact (lookup_broadcast f r r' x u v Hu Hv).
Qed.

Lemma at_pixel_map2d (g : spec_float -> spec_float) (p : plane) (y x : nat) :
  at_pixel (map2d g p) y x = option_map g (at_pixel p y x).
Proof.
  unfold at_pixel, map2d. rewrite list_lookup_fmap.
  destruct (p !! y) as [r|]; simpl; [|reflexivity].
  rewrite list_lookup_fmap. destruct (r !! x); reflexivity.
Qed.

Lemma at_pixel_map2d_u8 (g : Z -> spec_float) (a : list (list Z)) (y x : nat) :
  at_pixel (map2d g a) y x
  = option_map g (match a !! y with Some row => row !! x | None => None end).
Proof.
  unfold at_pixel, map2d. rewrite list_lookup_fmap.
  destruct (a !! y) as [r|]; simpl; [|reflexivity].
  rewrite list_lookup_fmap. destruct (r !! x); reflexivity.
Qed.

Lemma at_position_map2 (f : spec_float -> spec_float -> spec_float)
    (a b : batch) (n c y x : nat) (u v : spec_float) :
  at_position a n c y x = Some u -> at_position b n c y x = Some v ->
  at_position (batch_map2 f a b) n c y x = Some (f u v).
Proof.
  unfold at_position, batch_map2.
  destruct (a !! n) as [l|] eqn:Ha; [|discriminate].
  destruct (b !! n) as [l'|] eqn:Hb; [|discriminate].
  destruct (l !! c) as [p|] eqn:Hl; [|discriminate].
  destruct (l' !! c) as [p'|] eqn:Hl'; [|discriminate].
  intros Hu Hv.
  rewrite (lookup_broadcast _ a b n l l' Ha Hb).
  rewrite (lookup_broadcast _ l l' c p p' Hl Hl').
  exact (at_pixel_broadcast f p p' y x u v Hu Hv).
Qed.

Lemma at_position_broadcast (b : batch) (p : plane) (n c y x : nat) (v f : spec_float) :
  at_position b n c y x = Some v -> at_pixel p y x = Some f ->
  at_position (broadcast_mul b p) n c y x = Some (Half.mul v f).
Proof.
  unfold at_position, broadcast_mul. rewrite list_lookup_fmap.
  destruct (b !! n) as [l|]; simpl; [|discriminate].
  rewrite list_lookup_fmap.
  destruct (l !! c) as [pl|]; simpl; [|discriminate].
  intros Hv Hf. exact (at_pixel_broadcast Half.mul pl p y x v f Hv Hf).
Qed.

(** On a binary mask, [1 - latent_mask] is the half complement of the
    factor, whatever the dtype of the mask. *)
Lemma one_minus_at (mask : mask_tensor) (y x : nat) (mv : spec_float) :
  mask_binary mask ->
  at_pixel (mask_factor mask) y x = Some mv ->
  at_pixel (one_minus mask) y x = Some (Half.sub Half.one mv).
Proof.
  destruct mask as [p|a]; cbn [mask_binary mask_factor one_minus]; intros Hb Hm.
  - rewrite at_pixel_map2d. unfold at_pixel in *.
    destruct (p !! y) as [r|]; [|discriminate Hm]. rewrite Hm. reflexivity.
  - rewrite at_pixel_map2d_u8 in *.
    destruct (a !! y) as [r|] eqn:Hy; [|discriminate Hm].
    destruct (r !! x) as [v|] eqn:Hx; [|discriminate Hm].
    simpl in *. injection Hm as <-.
    rewrite Forall_lookup in Hb. specialize (Hb y r Hy).
    rewrite Forall_lookup in Hb. specialize (Hb x v Hx).
    destruct Hb as [-> | ->]; reflexivity.
Qed.

Lemma blend_at (latents noised : batch) (mask : mask_tensor) (n c y x : nat)
    (cv nv mv : spec_float) :
  mask_binary mask ->
  at_position latents n c y x = Some cv ->
  at_position noised n c y x = Some nv ->
  at_pixel (mask_factor mask) y x = Some mv ->
  at_position (blend latents mask noised) n c y x = Some (blend_elem cv mv nv).
Proof.
  intros Hb Hc Hn Hm. unfold blend, blend_elem.
  apply at_position_map2.
  - exact (at_position_broadcast latents _ n c y x cv mv Hc Hm).
  - exact (at_position_broadcast noised _ n c y x nv _ Hn (one_minus_at mask y x mv Hb Hm)).
Qed.

Lemma denoise_step_inv (M : Models) (morph : Args.pyval) (mask_image : Mask.gray_image)
    (source_latents : batch) (embeddings : list (embedding M)) (gs : spec_float)
    (threshold : Z) (latents : batch) (cuda : rng M) (i : Z) (t : timestep M)
    (s : step_out M) :
  denoise_step M morph mask_image source_latents embeddings gs threshold latents cuda i t
  = Ok s ->
  so_index s = i /\ so_timestep s = t /\
  so_noise_pred s = unet M (scale_model_input M (latents ++ latents) t) t embeddings /\
  guide M gs (so_noise_pred s) = Ok (so_guided s) /\
  so_candidate s = scheduler_step M (so_guided s) t latents /\
  step_mask M morph mask_image i threshold = Ok (so_mask s) /\
  so_noise s = fst (randn_like M (so_candidate s) cuda) /\
  so_cuda s = snd (randn_like M (so_candidate s) cuda) /\
  so_noised_source s = add_noise M source_latents (so_noise s) t /\
  so_latents s = blend (so_candidate s) (so_mask s) (so_noised_source s).
Proof.
  unfold denoise_step.
  destruct (guide M gs _) as [guided|e] eqn:Hg; cbn [bind]; [|discriminate].
  destruct (step_mask M morph mask_image i threshold) as [m|e] eqn:Hm; cbn [bind]; [|discriminate].
  unfold checked_blend. destruct (blendable _ _ _); cbn [bind]; [|discriminate].
  intros [= <-]. cbn. rewrite Hg. repeat split; reflexivity.
Qed.

(** A step that returns has found shapes that the blend can broadcast. *)
Lemma denoise_step_blendable (M : Models) (morph : Args.pyval) (mask_image : Mask.gray_image)
    (source_latents : batch) (embeddings : list (embedding M)) (gs : spec_float)
    (threshold : Z) (latents : batch) (cuda : rng M) (i : Z) (t : timestep M)
    (s : step_out M) :
  denoise_step M morph mask_image source_latents embeddings gs threshold latents cuda i t
  = Ok s ->
  blendable (so_candidate s) (so_mask s) (so_noised_source s) = true.
Proof.
  unfold denoise_step.
  destruct (guide M gs _) as [guided|e] eqn:Hg; cbn [bind]; [|discriminate].
  destruct (step_mask M morph mask_image i threshold) as [m|e] eqn:Hm; cbn [bind]; [|discriminate].
  unfold checked_blend. destruct (blendable _ _ _) eqn:Hb; cbn [bind]; [|discriminate].
  intros [= <-]. cbn. exact Hb.
Qed.

(** C1 (as amended). At every iteration the new latents are
    [candidate * mask + noised_source * (1 - mask)]. On a binary mask and
    finite latent values this gives, at every position where the mask is
    1, the candidate, and where it is 0, the noised source: the same
    number, and the same data unless that number is a zero (whose sign the
    sum may change). *)
Theorem blend_exact_on_finite (latents noised : batch) (mask : mask_tensor)
    (n c y x : nat) (cv nv mv : spec_float) :
  mask_binary mask ->
  at_position latents n c y x = Some cv ->
  at_position noised n c y x = Some nv ->
  at_pixel (mask_factor mask) y x = Some mv ->
  Half.valid cv = true -> Half.valid nv = true ->
  Half.is_finite cv = true -> Half.is_finite nv = true ->
  (forall (M : Models) morph mask_image source emb gs threshold l0 cuda i t s,
      denoise_step M morph mask_image source emb gs threshold l0 cuda i t = Ok s ->
      so_latents s = blend (so_candidate s) (so_mask s) (so_noised_source s)) /\
  at_position (blend latents mask noised) n c y x = Some (blend_elem cv mv nv) /\
  (mv = Half.one ->
     Half.eqb (blend_elem cv mv nv) cv = true /\
     (Half.is_zero cv = false -> blend_elem cv mv nv = cv)) /\
  (mv = Half.zero ->
     Half.eqb (blend_elem cv mv nv) nv = true /\
     (Half.is_zero nv = false -> blend_elem cv mv nv = nv)).
Proof.
  intros Hb Hc Hn Hm Hvc Hvn Hfc Hfn.
  split; [|split; [|split]].
  - intros M morph mask_image source emb gs threshold l0 cuda i t s Hs.
    apply (denoise_step_inv _ _ _ _ _ _ _ _ _ _ _ _ Hs).
  - apply blend_at; assumption.
  - intros ->. unfold blend_elem.
    rewrite (HalfFacts.mul_one cv Hvc).
    change (Half.sub Half.one Half.one) with (S754_zero false).
    apply HalfFacts.add_zero_r; [exact Hfc|]. apply HalfFacts.mul_zero. exact Hfn.
  - intros ->. unfold blend_elem.
    change (Half.sub Half.one Half.zero) with Half.one.
    rewrite (HalfFacts.mul_one nv Hvn).
    apply HalfFacts.add_zero_l; [exact Hfn|]. apply HalfFacts.mul_zero. exact Hfc.
Qed.

(** C1 as amended, on a one element batch with candidate 7.5 and noised
    source 1.0 under a mask of 1. *)
Lemma blend_exact_on_finite_witness :
  at_position (blend [[[[S754_finite false 1920 (-8)]]]] (HalfMask [[Half.one]])
                 [[[[Half.one]]]]) 0 0 0 0
  = Some (blend_elem (S754_finite false 1920 (-8)) Half.one Half.one) /\
  blend_elem (S754_finite false 1920 (-8)) Half.one Half.one = S754_finite false 1920 (-8).
Proof.
  pose proof (blend_exact_on_finite [[[[S754_finite false 1920 (-8)]]]] [[[[Half.one]]]]
                (HalfMask [[Half.one]]) 0 0 0 0
                (S754_finite false 1920 (-8)) Half.one Half.one) as H.
  destruct H as (_ & Hat & Hone & _).
  - simpl. repeat first [apply List.Forall_nil | apply List.Forall_cons | right; reflexivity].
  - reflexivity.
  - reflexivity.
  - reflexivity.
  - reflexivity.
  - reflexivity.
  - reflexivity.
  - reflexivity.
  - split; [exact Hat|]. apply (proj2 (Hone eq_refl)). reflexivity.
Defined.

(** C1 as stated fails on a non finite value: where the mask is 0 and the
    candidate is infinite the blend is NaN, not the noised source; where
    the mask is 1 and the noised source is infinite the blend is NaN, not
    the candidate. And where the mask is 1 and the candidate is -0.0 the
    blend is +0.0: the same number, not the same data. *)
Lemma blend_not_exact_on_infinity :
  mask_binary (HalfMask [[Half.zero]]) /\
  at_position [[[[Half.one]]]] 0 0 0 0 = Some Half.one /\
  at_position (blend [[[[S754_infinity false]]]] (HalfMask [[Half.zero]]) [[[[Half.one]]]])
    0 0 0 0 = Some S754_nan /\
  Half.eqb S754_nan Half.one = false /\
  mask_binary (HalfMask [[Half.one]]) /\
  at_position (blend [[[[Half.one]]]] (HalfMask [[Half.one]]) [[[[S754_infinity false]]]])
    0 0 0 0 = Some S754_nan /\
  at_position (blend [[[[S754_zero true]]]] (HalfMask [[Half.one]]) [[[[Half.one]]]])
    0 0 0 0 = Some (S754_zero false).
Proof.
  repeat split.
  - simpl. repeat first [apply List.Forall_nil | apply List.Forall_cons | left; reflexivity].
  - simpl. repeat first [apply List.Forall_nil | apply List.Forall_cons | right; reflexivity].
Qed.

(** *** Text conditioning and guidance *)

Lemma chunk2_even {A : Type} (l : list A) (N : nat) :
  length l = (2 * N)%nat -> chunk 2 l = [take N l; drop N l].
Proof.
  intros Hl. unfold chunk. rewrite Hl.
  assert (Hs : ((2 * N + 2 - 1) / 2 = N)%nat).
  { symmetry. apply (Nat.div_unique _ 2 N 1); lia. }
  rewrite Hs. destruct N as [|N].
  - destruct l; [reflexivity|discriminate Hl].
  - cbn [Nat.eqb].
    destruct l as [|a l]; [discriminate Hl|].
    replace (2 * S N)%nat with (S (S (2 * N))) by lia.
    cbn [split_every]. f_equal.
    assert (Hd : length (drop (S N) (a :: l)) = S N).
    { rewrite length_drop, Hl. lia. }
    destruct (drop (S N) (a :: l)) as [|b k] eqn:Ed; [discriminate Hd|].
    f_equal; [apply take_ge; lia|].
    assert (Hn : drop (S N) (b :: k) = []) by (apply drop_ge; lia).
    rewrite Hn. destruct (2 * N)%nat; reflexivity.
Qed.

Lemma guide_even (M : Models) (gs : spec_float) (noise_pred : batch) (N : nat) :
  length noise_pred = (2 * N)%nat ->
  guide M gs noise_pred
  = Ok (batch_map2 Half.add (take N noise_pred)
          (scalar_mul M gs (batch_map2 Half.sub (drop N noise_pred) (take N noise_pred)))).
Proof.
  intros Hl. unfold guide. rewrite (chunk2_even noise_pred N Hl).
  cbn [unpack2 bind fst snd].
  replace (sizes_agree (length (drop N noise_pred)) (length (take N noise_pred))) with true.
  - reflexivity.
  - rewrite length_drop, length_take, Hl. unfold sizes_agree.
    replace (2 * N - N)%nat with N by lia. replace (N `min` (2 * N))%nat with N by lia.
    rewrite Nat.eqb_refl. reflexivity.
Qed.

(** C3. For a batch of N prompts the text conditioning is a concatenation
    whose first N rows are the embeddings of N empty prompts and whose last
    N rows are the embeddings of the prompts; the guidance step cuts the
    joint prediction into its first and last N rows, in that order, and
    returns [uncond + guidance_scale * (cond - uncond)]. *)
Theorem guidance_halves_match_embeddings (M : Models) (prompts : list string) :
  rows_preserved M ->
  text_embeddings M prompts = uncond_embeddings M prompts ++ cond_embeddings M prompts /\
  uncond_embeddings M prompts
  = text_encoder M (tokenizer M (replicate (length prompts) ""%string)
                      (ids_width M (tokenizer M prompts (model_max_length M)))) /\
  cond_embeddings M prompts = text_encoder M (tokenizer M prompts (model_max_length M)) /\
  length (text_embeddings M prompts) = (2 * length prompts)%nat /\
  take (length prompts) (text_embeddings M prompts) = uncond_embeddings M prompts /\
  drop (length prompts) (text_embeddings M prompts) = cond_embeddings M prompts /\
  (forall gs latents t,
      length latents = length prompts ->
      length (unet M (scale_model_input M (latents ++ latents) t) t
                (text_embeddings M prompts)) = (2 * length prompts)%nat /\
      chunk 2 (unet M (scale_model_input M (latents ++ latents) t) t
                 (text_embeddings M prompts))
      = [take (length prompts)
           (unet M (scale_model_input M (latents ++ latents) t) t
              (text_embeddings M prompts));
         drop (length prompts)
           (unet M (scale_model_input M (latents ++ latents) t) t
              (text_embeddings M prompts))] /\
      guide M gs (unet M (scale_model_input M (latents ++ latents) t) t
                    (text_embeddings M prompts))
      = Ok (batch_map2 Half.add
              (take (length prompts)
                 (unet M (scale_model_input M (latents ++ latents) t) t
                    (text_embeddings M prompts)))
              (scalar_mul M gs
                 (batch_map2 Half.sub
                    (drop (length prompts)
                       (unet M (scale_model_input M (latents ++ latents) t) t
                          (text_embeddings M prompts)))
                    (take (length prompts)
                       (unet M (scale_model_input M (latents ++ latents) t) t
                          (text_embeddings M prompts))))))) /\
  (forall morph mask_image source gs threshold latents cuda i t s,
      length latents = length prompts ->
      denoise_step M morph mask_image source (text_embeddings M prompts) gs threshold
        latents cuda i t = Ok s ->
      so_noise_pred s
      = unet M (scale_model_input M (latents ++ latents) t) t
          (uncond_embeddings M prompts ++ cond_embeddings M prompts) /\
      length (so_noise_pred s) = (2 * length prompts)%nat /\
      so_guided s
      = batch_map2 Half.add (take (length prompts) (so_noise_pred s))
          (scalar_mul M gs
             (batch_map2 Half.sub (drop (length prompts) (so_noise_pred s))
                (take (length prompts) (so_noise_pred s))))).
Proof.
  intros (Henc & Hunet & Hscale).
  assert (Hu : length (uncond_embeddings M prompts) = length prompts).
  { unfold uncond_embeddings. rewrite Henc. apply length_replicate. }
  assert (Hc : length (cond_embeddings M prompts) = length prompts).
  { unfold cond_embeddings. apply Henc. }
  split; [reflexivity|]. split; [reflexivity|]. split; [reflexivity|].
  split; [unfold text_embeddings; rewrite length_app; lia|].
  split; [unfold text_embeddings; rewrite <- Hu; apply take_app_length|].
  split; [unfold text_embeddings; rewrite <- Hu; apply drop_app_length|].
  split.
  - intros gs latents t Hlen.
    assert (Hl : length (unet M (scale_model_input M (latents ++ latents) t) t
                           (text_embeddings M prompts)) = (2 * length prompts)%nat).
    { rewrite Hunet, Hscale, length_app. lia. }
    split; [exact Hl|]. split; [exact (chunk2_even _ _ Hl)|exact (guide_even M gs _ _ Hl)].
  - intros morph mask_image source gs threshold latents cuda i t s Hlen Hs.
    destruct (denoise_step_inv _ _ _ _ _ _ _ _ _ _ _ _ Hs)
      as (_ & _ & Hnp & Hg & _).
    assert (Hl : length (so_noise_pred s) = (2 * length prompts)%nat).
    { rewrite Hnp, Hunet, Hscale, length_app. lia. }
    split; [exact Hnp|]. split; [exact Hl|].
    rewrite (guide_even M gs _ _ Hl) in Hg. injection Hg as Hg. symmetry. exact Hg.
Qed.

(** C3, with the stand-in models and one prompt: the joint prediction for
    the latent 3.0 is cut into its two rows, and the guided estimate is
    [3.0 + 7.5 * (3.0 - 3.0)]. *)
Lemma guidance_halves_match_embeddings_witness :
  rows_preserved Toy.models /\
  text_embeddings Toy.models ["a dog"%string] = [""%string; "a dog"%string] /\
  take 1 (text_embeddings Toy.models ["a dog"%string])
  = uncond_embeddings Toy.models ["a dog"%string] /\
  drop 1 (text_embeddings Toy.models ["a dog"%string])
  = cond_embeddings Toy.models ["a dog"%string] /\
  chunk 2 (unet Toy.models
             (scale_model_input Toy.models
                ([[[[S754_finite false 1536 (-9)]]]] ++ [[[[S754_finite false 1536 (-9)]]]]) 0)
             0 (text_embeddings Toy.models ["a dog"%string]))
  = [[[[[S754_finite false 1536 (-9)]]]]; [[[[S754_finite false 1536 (-9)]]]]] /\
  guide Toy.models PyFloat.c_7_5
    (unet Toy.models
       (scale_model_input Toy.models
          ([[[[S754_finite false 1536 (-9)]]]] ++ [[[[S754_finite false 1536 (-9)]]]]) 0)
       0 (text_embeddings Toy.models ["a dog"%string]))
  = Ok [[[[S754_finite false 1536 (-9)]]]].
Proof.
  assert (H : rows_preserved Toy.models).
  { unfold rows_preserved. simpl. repeat split; reflexivity. }
  destruct (guidance_halves_match_embeddings Toy.models ["a dog"%string] H)
    as (_ & _ & _ & _ & Ht & Hd & Hguide & _).
  destruct (Hguide PyFloat.c_7_5 [[[[S754_finite false 1536 (-9)]]]] 0 eq_refl)
    as (_ & Hchunk & Hg).
  split; [exact H|]. split; [reflexivity|]. split; [exact Ht|]. split; [exact Hd|].
  split.
  - rewrite Hchunk. reflexivity.
  - rewrite Hg. reflexivity.
Defined.

(** *** The noised source of every iteration *)

Lemma read_mask_returns (img : Mask.gray_image) :
  exists mask, Mask._read_mask img 64 64 = Ok (mask, img).
Proof.
  unfold Mask._read_mask, Mask.mask_of_array.
  destruct (MaskFacts.np_max_nonempty (Mask.resize_nearest img 64 64)
              (MaskFacts.resize_nearest_nonempty img 64 64 ltac:(lia) ltac:(lia)))
    as [mx ->].
  cbn [bind]. eexists. reflexivity.
Qed.

(** The mask read has the destination size, whatever the image. *)
Lemma read_mask_shape (img : Mask.gray_image) :
  exists mask, Mask._read_mask img 64 64 = Ok (mask, img) /\ grid_shape 64 64 mask.
Proof.
  unfold Mask._read_mask, Mask.mask_of_array.
  destruct (MaskFacts.np_max_nonempty (Mask.resize_nearest img 64 64)
              (MaskFacts.resize_nearest_nonempty img 64 64 ltac:(lia) ltac:(lia)))
    as [mx ->].
  cbn [bind]. eexists. split; [reflexivity|].
  assert (Hg : grid_shape 64 64 (Mask.resize_nearest img 64 64))
    by exact (MaskFacts.resize_nearest_shape img 64 64).
  destruct (1 <? mx).
  - rewrite MaskFacts.threshold_F64. cbn [Mask.to_half]. unfold Mask.divide_255.
    repeat apply ShapeFacts.grid_shape_map2d. exact Hg.
  - rewrite MaskFacts.threshold_U8. cbn [Mask.to_half].
    repeat apply ShapeFacts.grid_shape_map2d. exact Hg.
Qed.

(** A step returns when the models keep the batch axis and the shapes,
    the latents are [n, c, 64, 64] and the mask of the step is read (or
    morphed) at 64 x 64; the new latents have the shape of the old. *)
Lemma denoise_step_returns (M : Models) (morph : Args.pyval) (mask_image : Mask.gray_image)
    (source : batch) (emb : list (embedding M)) (gs : spec_float) (threshold : Z)
    (latents : batch) (cuda : rng M) (i : Z) (t : timestep M) (n c : nat) (m : mask_tensor) :
  rows_preserved M -> shapes_kept M ->
  has_shape n c 64 64 latents ->
  step_mask M morph mask_image i threshold = Ok m -> mask_shape 64 64 m ->
  exists s, denoise_step M morph mask_image source emb gs threshold latents cuda i t = Ok s /\
            has_shape n c 64 64 (so_latents s).
Proof.
  intros (_ & Hunet & Hscale) (Hstep & Hnoise & Hlike & _) Hl Hm Hms. unfold denoise_step.
  rewrite (guide_even M gs _ (length latents))
    by (rewrite Hunet, Hscale, length_app; lia).
  cbn [bind]. rewrite Hm. cbn [bind].
  match goal with
  | |- context [checked_blend ?cand m ?noised] =>
      assert (Hc : has_shape n c 64 64 cand) by (apply Hstep; exact Hl);
      assert (Hn : has_shape n c 64 64 noised) by (apply Hnoise, Hlike; exact Hc);
      destruct (ShapeFacts.blend_shape n c 64 64 cand noised m Hc Hn Hms) as [Hb Hs]
  end.
  rewrite Hb. cbn [bind]. eexists. split; [reflexivity|]. exact Hs.
Qed.

Lemma denoise_loop_returns (M : Models) (morph : Args.pyval) (mask_image : Mask.gray_image)
    (source : batch) (emb : list (embedding M)) (gs : spec_float) (threshold : Z)
    (its : list (Z * timestep M)) (n c : nat) :
  rows_preserved M -> shapes_kept M ->
  Forall (fun it => exists m, step_mask M morph mask_image (fst it) threshold = Ok m /\
                              mask_shape 64 64 m) its ->
  forall latents cuda,
  has_shape n c 64 64 latents ->
  exists r, denoise_loop M morph mask_image source emb gs threshold its latents cuda = Ok r.
Proof.
  intros HM HS Hits.
  induction Hits as [|[i t] its (m & Hm & Hms) _ IH]; intros latents cuda Hl;
    cbn [denoise_loop].
  - eexists. reflexivity.
  - cbn [fst] in Hm.
    destruct (denoise_step_returns M morph mask_image source emb gs threshold latents cuda
                i t n c m HM HS Hl Hm Hms) as (s & -> & Hs).
    cbn [bind]. destruct (IH (so_latents s) (so_cuda s) Hs) as [r ->].
    cbn [bind]. eexists. reflexivity.
Qed.

(** Without morphing every step blends with the mask as read. *)
Lemma step_mask_plain (M : Models) (morph : Args.pyval) (mask_image : Mask.gray_image)
    (i threshold : Z) :
  Args.morph_enabled morph = false ->
  exists m, step_mask M morph mask_image i threshold = Ok m /\ mask_shape 64 64 m.
Proof.
  intros Hm. unfold step_mask.
  destruct (read_mask_shape mask_image) as (mask & -> & Hg).
  cbn [bind fst]. rewrite Hm. eexists. split; [reflexivity|exact Hg].
Qed.

Lemma initial_latents_shape (M : Models) (a : edit_args M) (generator : rng M) :
  shapes_kept M -> height a / 8 = 64 -> width a / 8 = 64 ->
  has_shape (length (prompts a)) (Z.to_nat (in_channels M)) 64 64
    (fst (initial_latents M a generator)).
Proof.
  intros (_ & _ & _ & Hrandn) Hh Hw. unfold initial_latents.
  pose proof (Hrandn (Z.of_nat (length (prompts a))) (in_channels M)
                (height a / 8) (width a / 8) generator) as H.
  rewrite Hh, Hw, Nat2Z.id in H. rewrite Hh, Hw. exact H.
Qed.

(** What holds of the trace of any loop that returns. *)
Lemma denoise_loop_trace (M : Models) (morph : Args.pyval) (mask_image : Mask.gray_image)
    (source : batch) (emb : list (embedding M)) (gs : spec_float) (threshold : Z)
    (its : list (Z * timestep M)) :
  forall latents cuda r,
  denoise_loop M morph mask_image source emb gs threshold its latents cuda = Ok r ->
  map (fun s => (so_index s, so_timestep s)) (snd r) = its /\
  Forall (fun s =>
            so_noised_source s = add_noise M source (so_noise s) (so_timestep s) /\
            (exists g, so_noise s = fst (randn_like M (so_candidate s) g)) /\
            so_latents s
            = blend (so_candidate s) (so_mask s)
                (add_noise M source (so_noise s) (so_timestep s))) (snd r).
Proof.
  induction its as [|[i t] its IH]; intros latents cuda r; cbn [denoise_loop].
  - intros [= <-]. cbn. split; constructor.
  - destruct (denoise_step _ _ _ _ _ _ _ _ _ _ _) as [s|e] eqn:Hs; cbn [bind]; [|discriminate].
    destruct (denoise_loop _ _ _ _ _ _ _ _ _ _) as [r'|e] eqn:Hr; cbn [bind]; [|discriminate].
    intros [= <-]. cbn [snd].
    destruct (IH _ _ _ Hr) as (Hmap & Hall).
    destruct (denoise_step_inv _ _ _ _ _ _ _ _ _ _ _ _ Hs)
      as (Hi & Ht & _ & _ & _ & _ & Hn & _ & Hns & Hbl).
    split.
    + cbn [map]. rewrite Hi, Ht, Hmap. reflexivity.
    + constructor; [|exact Hall]. split; [rewrite Hns, Ht; reflexivity|].
      split; [exists cuda; exact Hn|].
      rewrite Hbl, Hns, Ht. reflexivity.
Qed.

Lemma imap_snd {A : Type} (l : list A) : forall (g : nat -> Z),
  map snd (imap (fun i x => (g i, x)) l) = l.
Proof.
  induction l as [|x l IH]; intros g; [reflexivity|].
  cbn [imap map snd]. f_equal. apply (IH (fun i => g (S i))).
Qed.

Lemma edit_image_trace_inv (M : Models) (morph : Args.pyval) (a : edit_args M)
    (generator cuda : rng M) (r : run_out M) :
  edit_image_trace M morph a generator cuda = Ok r ->
  exists its lr,
    loop_timesteps (set_timesteps M (num_inference_steps a)) (blending_percentage a) = Ok its /\
    denoise_loop M morph (mask_image a) (_image2latent M (image a))
      (text_embeddings M (prompts a)) (guidance_scale a)
      (Morph.threshold_of (Z.of_nat (length its))) (enumerate its)
      (fst (initial_latents M a generator)) cuda = Ok lr /\
    r = {| ro_images := decode M (fst (fst lr));
           ro_generator := snd (initial_latents M a generator);
           ro_cuda := snd (fst lr);
           ro_trace := snd lr |}.
Proof.
  unfold edit_image_trace.
  destruct (loop_timesteps _ _) as [its|e] eqn:Hits; cbn [bind]; [|discriminate].
  destruct (denoise_loop _ _ _ _ _ _ _ _ _ _) as [lr|e] eqn:Hlr; cbn [bind]; [|discriminate].
  intros [= <-]. exists its, lr. repeat split. exact Hlr.
Qed.

(** A run without morphing returns when the models keep the batch axis
    and the shapes and the latents have the size of the mask. *)
Lemma run_returns (M : Models) (morph : Args.pyval) (a : edit_args M)
    (generator cuda : rng M) (its : list (timestep M)) :
  rows_preserved M -> shapes_kept M -> Args.morph_enabled morph = false ->
  height a / 8 = 64 -> width a / 8 = 64 ->
  loop_timesteps (set_timesteps M (num_inference_steps a)) (blending_percentage a) = Ok its ->
  exists r, edit_image_trace M morph a generator cuda = Ok r /\
            map so_timestep (ro_trace r) = its.
Proof.
  intros HM HS Hm Hh Hw Hits. unfold edit_image_trace. rewrite Hits. cbn [bind].
  destruct (denoise_loop_returns M morph (mask_image a) (_image2latent M (image a))
              (text_embeddings M (prompts a)) (guidance_scale a)
              (Morph.threshold_of (Z.of_nat (length its))) (enumerate its)
              (length (prompts a)) (Z.to_nat (in_channels M)) HM HS
              ltac:(apply Forall_forall; intros it _; apply step_mask_plain; exact Hm)
              (fst (initial_latents M a generator)) cuda
              (initial_latents_shape M a generator HS Hh Hw)) as [lr Hlr].
  rewrite Hlr. cbn [bind]. eexists. split; [reflexivity|]. cbn [ro_trace].
  destruct (denoise_loop_trace _ _ _ _ _ _ _ _ _ _ _ Hlr) as (Hmap & _).
  rewrite <- (imap_snd its Z.of_nat). fold (enumerate its). rewrite <- Hmap.
  rewrite map_map. reflexivity.
Qed.

Lemma has_shape_replicate (n c h w : nat) (x : spec_float) :
  has_shape n c h w (replicate n (replicate c (replicate h (replicate w x)))).
Proof.
  split; [apply length_replicate|].
  apply Forall_replicate. split; [apply length_replicate|].
  apply Forall_replicate. split; [apply length_replicate|].
  apply Forall_replicate. apply length_replicate.
Qed.

Lemma shaped_models_keep :
  rows_preserved Toy.shaped_models /\ shapes_kept Toy.shaped_models /\
  cv_keeps_shape (cv Toy.shaped_models).
Proof.
  split; [|split].
  - unfold rows_preserved. cbn. repeat split; reflexivity.
  - unfold shapes_kept. split; [|split; [|split]]; cbn; intros; try assumption.
    apply has_shape_replicate.
  - unfold cv_keeps_shape. split; [|split]; cbn; intros; assumption.
Qed.

(** C2. At every iteration the noised copy on the mask = 0 side of the
    blend is the scheduler's [add_noise] applied to the source latent (the
    encoder output computed before the loop) with a fresh normal draw, at
    the timestep of that iteration, and never to the latents of an earlier
    iteration: the latents that the iteration leaves are the blend of its
    candidate with that noised source under its mask. The loop has no
    assignment to the source latent. In a run without morphing, on latents
    of the size of the mask and with models that keep the shapes, the loop
    returns, one step per processed timestep. *)
Theorem noised_source_from_original (M : Models) (morph : Args.pyval) (a : edit_args M)
    (generator cuda : rng M) :
  (forall r, edit_image_trace M morph a generator cuda = Ok r ->
     loop_timesteps (set_timesteps M (num_inference_steps a)) (blending_percentage a)
     = Ok (map so_timestep (ro_trace r)) /\
     Forall (fun s =>
               so_noised_source s
               = add_noise M (_image2latent M (image a)) (so_noise s) (so_timestep s) /\
               (exists g, so_noise s = fst (randn_like M (so_candidate s) g)) /\
               so_latents s
               = blend (so_candidate s) (so_mask s)
                   (add_noise M (_image2latent M (image a)) (so_noise s) (so_timestep s)))
            (ro_trace r)) /\
  (rows_preserved M -> shapes_kept M -> Args.morph_enabled morph = false ->
   height a / 8 = 64 -> width a / 8 = 64 ->
   forall its,
     loop_timesteps (set_timesteps M (num_inference_steps a)) (blending_percentage a) = Ok its ->
     exists r, edit_image_trace M morph a generator cuda = Ok r /\
               map so_timestep (ro_trace r) = its).
Proof.
  split.
  - intros r Hr.
    destruct (edit_image_trace_inv M morph a generator cuda r Hr) as (its & lr & Hits & Hlr & ->).
    destruct (denoise_loop_trace _ _ _ _ _ _ _ _ _ _ _ Hlr) as (Hmap & Hall).
    cbn [ro_trace]. split; [|exact Hall].
    rewrite Hits. f_equal.
    rewrite <- (imap_snd its Z.of_nat) at 1. fold (enumerate its). rewrite <- Hmap.
    rewrite map_map. reflexivity.
  - intros HM HS Hm Hh Hw its Hits.
    exact (run_returns M morph a generator cuda its HM HS Hm Hh Hw Hits).
Qed.

(** C2, with the stand-in models on a 512 x 512 source: 4 timesteps, the
    first quarter skipped. *)
Lemma noised_source_from_original_witness :
  exists r,
    edit_image_trace Toy.shaped_models (Args.parsed_morph None)
      (Toy.shaped_args 4 PyFloat.c_0_25) 0 0 = Ok r /\
    map so_timestep (ro_trace r) = [2; 1; 0] /\
    Forall (fun s =>
              so_noised_source s
              = add_noise Toy.shaped_models (_image2latent Toy.shaped_models tt)
                  (so_noise s) (so_timestep s) /\
              (exists g, so_noise s = fst (randn_like Toy.shaped_models (so_candidate s) g)) /\
              so_latents s
              = blend (so_candidate s) (so_mask s)
                  (add_noise Toy.shaped_models (_image2latent Toy.shaped_models tt)
                     (so_noise s) (so_timestep s)))
           (ro_trace r).
Proof.
  destruct (noised_source_from_original Toy.shaped_models (Args.parsed_morph None)
              (Toy.shaped_args 4 PyFloat.c_0_25) 0 0) as [Hall Hex].
  destruct shaped_models_keep as (HM & HS & _).
  destruct (Hex HM HS eq_refl eq_refl eq_refl [2; 1; 0] ltac:(vm_compute; reflexivity))
    as (r & Hr & Hts).
  exists r. split; [exact Hr|]. split; [exact Hts|].
  exact (proj2 (Hall r Hr)).
Defined.

(** *** The processed timesteps *)

Lemma py_slice_from_nonneg {A : Type} (l : list A) (k : Z) :
  0 <= k -> py_slice_from l k = drop (Z.to_nat k) l.
Proof.
  intros Hk. unfold py_slice_from.
  replace (k <? 0) with false by (symmetry; apply Z.ltb_ge; exact Hk). reflexivity.
Qed.

Lemma py_slice_from_beyond {A : Type} (l : list A) (k : Z) :
  Z.of_nat (length l) <= k -> py_slice_from l k = [].
Proof.
  intros Hk. rewrite py_slice_from_nonneg by lia. apply drop_ge. lia.
Qed.

(** The start index for a percentage that is not negative: the floor of
    the float product. *)
Lemma start_index_floor (n : Z) (bp p : spec_float) :
  0 <= n < 2 ^ 53 ->
  SFleb PyFloat.zero bp = true ->
  PyFloat.mul_int_float n bp = Ok p -> PyFloat.is_finite p = true ->
  PyFloat.int_of_float p = Ok (PyFloat.floor p) /\ 0 <= PyFloat.floor p.
Proof.
  intros Hn Hle Hp Hfin. unfold PyFloat.mul_int_float in Hp.
  destruct (Z.eq_dec n 0) as [->|Hn0].
  - change (PyFloat.float_of_int 0) with (@Ok spec_float (S754_zero false)) in Hp.
    cbn [bind] in Hp. injection Hp as <-.
    destruct bp as [s|s| |s m e]; cbn [SFmul] in *; try discriminate Hfin;
      (split; [reflexivity|cbn; lia]).
  - destruct (PyFloatFacts.float_of_int_pos n ltac:(lia)) as (mn & en & Hf & _).
    rewrite Hf in Hp. cbn [bind] in Hp. injection Hp as <-.
    destruct bp as [s|s| |s m e]; cbn [SFmul] in *; try discriminate Hfin.
    + split; [reflexivity|cbn; lia].
    + destruct s; [discriminate Hle|]. cbn [xorb] in *.
      destruct (RoundingFacts.binary_round_aux_spec PyFloat.prec PyFloat.emax
                  ltac:(unfold PyFloat.prec; lia) false (Zpos (mn * m)) (en + e) loc_Exact
                  ltac:(lia)) as (m2 & m3 & e3 & _ & _ & Hm3 & _ & _ & _ & Hres).
      rewrite Hres in *. unfold round_result in *.
      destruct m3 as [|q|q]; try lia.
      * split; [reflexivity|cbn; lia].
      * destruct (e3 <=? PyFloat.emax - PyFloat.prec); [|discriminate Hfin].
        cbn [PyFloat.int_of_float PyFloat.floor cond_Zopp].
        split; [reflexivity|]. apply Z.shiftl_nonneg. lia.
Qed.

(** From 1.0 on, the start index is at or beyond the end of the schedule. *)
Lemma start_index_beyond (n : Z) (bp p : spec_float) :
  0 <= n < 2 ^ 53 ->
  valid_binary PyFloat.prec PyFloat.emax bp = true ->
  SFleb PyFloat.one bp = true ->
  PyFloat.mul_int_float n bp = Ok p -> PyFloat.is_finite p = true ->
  exists k, PyFloat.int_of_float p = Ok k /\ n <= k.
Proof.
  intros Hn Hv Hle Hp Hfin. unfold PyFloat.mul_int_float in Hp.
  destruct (Z.eq_dec n 0) as [->|Hn0].
  - change (PyFloat.float_of_int 0) with (@Ok spec_float (S754_zero false)) in Hp.
    cbn [bind] in Hp. injection Hp as <-.
    destruct bp as [s|s| |s m e]; cbn [SFmul] in *; try discriminate Hfin;
      exists 0; split; first [reflexivity | lia].
  - destruct (PyFloat.float_of_int n) as [f|ex] eqn:Hf; cbn [bind] in Hp; [|discriminate Hp].
    injection Hp as <-.
    pose proof (PyFloatFacts.mul_ge_int n f bp ltac:(lia) Hv Hle Hf) as Hge.
    destruct (SFmul PyFloat.prec PyFloat.emax f bp) as [s|s| |s m e];
      try discriminate Hfin; try contradiction.
    destruct Hge as [-> Hge]. eexists. split; [reflexivity|exact Hge].
Qed.

Lemma trace_timesteps (M : Models) (morph : Args.pyval) (a : edit_args M)
    (generator cuda : rng M) (r : run_out M) :
  edit_image_trace M morph a generator cuda = Ok r ->
  loop_timesteps (set_timesteps M (num_inference_steps a)) (blending_percentage a)
  = Ok (map so_timestep (ro_trace r)).
Proof.
  intros Hr.
  destruct (edit_image_trace_inv M morph a generator cuda r Hr) as (its & lr & Hits & Hlr & ->).
  destruct (denoise_loop_trace _ _ _ _ _ _ _ _ _ _ _ Hlr) as (Hmap & _).
  cbn [ro_trace]. rewrite Hits. f_equal.
  rewrite <- (imap_snd its Z.of_nat) at 1. fold (enumerate its). rewrite <- Hmap.
  rewrite map_map. reflexivity.
Qed.

(** C4 (as amended). For a percentage that is not negative and whose
    float product with the number of timesteps is finite, the loop runs
    over the suffix of the schedule that starts at the floor of that
    product. In particular, whenever the percentage is at least 1.0 and
    the product does not overflow, the loop performs no iteration and
    [edit_image] returns, without raising, the decoding of the initial
    normal latents scaled by [1 / 0.18215]. *)
Theorem zero_iterations_from_one (M : Models) (morph : Args.pyval) (a : edit_args M)
    (generator cuda : rng M) (p : spec_float) :
  Z.of_nat (length (set_timesteps M (num_inference_steps a))) < 2 ^ 53 ->
  valid_binary PyFloat.prec PyFloat.emax (blending_percentage a) = true ->
  PyFloat.mul_int_float (Z.of_nat (length (set_timesteps M (num_inference_steps a))))
    (blending_percentage a) = Ok p ->
  PyFloat.is_finite p = true ->
  (SFleb PyFloat.zero (blending_percentage a) = true ->
     loop_timesteps (set_timesteps M (num_inference_steps a)) (blending_percentage a)
     = Ok (drop (Z.to_nat (PyFloat.floor p)) (set_timesteps M (num_inference_steps a))) /\
     forall r, edit_image_trace M morph a generator cuda = Ok r ->
               map so_timestep (ro_trace r)
               = drop (Z.to_nat (PyFloat.floor p)) (set_timesteps M (num_inference_steps a))) /\
  (SFleb PyFloat.one (blending_percentage a) = true ->
     loop_timesteps (set_timesteps M (num_inference_steps a)) (blending_percentage a) = Ok [] /\
     edit_image_trace M morph a generator cuda
     = Ok {| ro_images := decode M (fst (initial_latents M a generator));
             ro_generator := snd (initial_latents M a generator);
             ro_cuda := cuda;
             ro_trace := [] |} /\
     edit_image M morph a generator cuda
     = Ok (to_uint8 M
             (vae_decode M
                (scalar_mul M (PyFloat.div PyFloat.one PyFloat.c_0_18215)
                   (fst (randn M (Z.of_nat (length (prompts a))) (in_channels M)
                           (height a / 8) (width a / 8) generator)))))).
Proof.
  intros Hlen Hv Hp Hfin.
  set (ts := set_timesteps M (num_inference_steps a)) in *.
  assert (Hn : 0 <= Z.of_nat (length ts) < 2 ^ 53) by lia.
  split.
  - intros Hle.
    destruct (start_index_floor _ _ _ Hn Hle Hp Hfin) as [Hint Hpos].
    assert (Hl : loop_timesteps ts (blending_percentage a)
                 = Ok (drop (Z.to_nat (PyFloat.floor p)) ts)).
    { unfold loop_timesteps, start_index. rewrite Hp. cbn [bind]. rewrite Hint. cbn [bind].
      rewrite py_slice_from_nonneg by exact Hpos. reflexivity. }
    split; [exact Hl|]. intros r Hr.
    pose proof (trace_timesteps M morph a generator cuda r Hr) as Ht.
    fold ts in Ht. rewrite Hl in Ht. injection Ht as Ht. symmetry. exact Ht.
  - intros Hle.
    destruct (start_index_beyond _ _ _ Hn Hv Hle Hp Hfin) as (k & Hint & Hk).
    assert (Hl : loop_timesteps ts (blending_percentage a) = Ok []).
    { unfold loop_timesteps, start_index. rewrite Hp. cbn [bind]. rewrite Hint. cbn [bind].
      rewrite py_slice_from_beyond by exact Hk. reflexivity. }
    split; [exact Hl|].
    assert (Ht : edit_image_trace M morph a generator cuda
                 = Ok {| ro_images := decode M (fst (initial_latents M a generator));
                         ro_generator := snd (initial_latents M a generator);
                         ro_cuda := cuda;
                         ro_trace := [] |}).
    { unfold edit_image_trace. fold ts. rewrite Hl. reflexivity. }
    split; [exact Ht|]. unfold edit_image. rewrite Ht. reflexivity.
Qed.

(** C4 as amended, with the stand-in models: 50 timesteps, percentage 1.0. *)
Lemma zero_iterations_from_one_witness :
  loop_timesteps (set_timesteps Toy.models 50) PyFloat.one = Ok [] /\
  edit_image Toy.models (Args.parsed_morph None) (Toy.args 50 PyFloat.one) 0 0
  = Ok [[[[Half.one]]; [[Half.one]]; [[Half.one]]; [[Half.one]]]].
Proof.
  destruct (zero_iterations_from_one Toy.models (Args.parsed_morph None)
              (Toy.args 50 PyFloat.one) 0 0
              (S754_finite false 7036874417766400 (-47))) as [_ H].
  - vm_compute. reflexivity.
  - reflexivity.
  - vm_compute. reflexivity.
  - reflexivity.
  - destruct (H eq_refl) as (Hl & _ & He). split; [exact Hl|exact He].
Defined.

(** C4 as stated fails: a percentage of at least 1.0 whose product with
    the number of timesteps is infinite makes [int(...)] raise. This
    happens for the percentage [inf], and for the finite percentage
    [1e308] with 50 timesteps. And for a negative percentage the start
    index is the product truncated toward zero, not its floor: with 50
    timesteps and -0.01 the product is -0.5, the loop runs over all 50
    timesteps, and the slice from index -1 would be the last one only. *)
Lemma edit_image_raises_on_overflow :
  SFleb PyFloat.one (S754_infinity false) = true /\
  edit_image Toy.models (Args.parsed_morph None) (Toy.args 50 (S754_infinity false)) 0 0
  = Raise OverflowError /\
  valid_binary PyFloat.prec PyFloat.emax (S754_finite false 5010420900022432 971) = true /\
  SFleb PyFloat.one (S754_finite false 5010420900022432 971) = true /\
  edit_image Toy.models (Args.parsed_morph None)
    (Toy.args 50 (S754_finite false 5010420900022432 971)) 0 0
  = Raise OverflowError /\
  PyFloat.mul_int_float 50 (S754_finite true 5764607523034235 (-59))
  = Ok (S754_finite true 4503599627370496 (-53)) /\
  PyFloat.floor (S754_finite true 4503599627370496 (-53)) = -1 /\
  loop_timesteps (set_timesteps Toy.models 50) (S754_finite true 5764607523034235 (-59))
  = Ok (set_timesteps Toy.models 50) /\
  py_slice_from (set_timesteps Toy.models 50) (-1) = [0].
Proof.
  repeat split; vm_compute; reflexivity.
Qed.

End PipelineFacts.

(* ===================================================================== *)
(** * Part III: further properties of the code                           *)
(* ===================================================================== *)

(** ** Products with a percentage of at most 1.0 *)

Module UnitProductFacts.
Import RoundingFacts PyFloatFacts.
Import PyFloat.

Lemma leb_finite_inv (m k : positive) (e ek : Z) :
  SFleb (S754_finite false m e) (S754_finite false k ek) = true ->
  e < ek \/ (e = ek /\ (m <= k)%positive).
Proof.
  unfold SFleb. cbn [SFcompare].
  destruct (Z.compare_spec e ek) as [He|He|He].
  - intros H. right. split; [exact He|].
    unfold Pos.le, Pos.compare.
    destruct (Pos.compare_cont Eq m k); [discriminate|discriminate|discriminate H].
  - intros _. left. exact He.
  - discriminate.
Qed.

Lemma le_one_inv (m : positive) (e : Z) :
  valid_binary prec emax (S754_finite false m e) = true ->
  SFleb (S754_finite false m e) one = true ->
  e <= -52 /\ Zpos m <= 2 ^ (- e).
Proof.
  intros Hv Hle.
  unfold valid_binary, bounded, canonical_mantissa in Hv.
  apply andb_prop in Hv. destruct Hv as [Hc _].
  apply Z.eqb_eq in Hc.
  change (Zpos (digits2_pos m)) with (Zdigits2 (Zpos m)) in Hc.
  assert (Hd : Zdigits2 (Zpos m) <= 53)
    by (clear Hle; unfold fexp, emin, prec, emax in Hc; lia).
  pose proof (Zdigits2_bounds (Zpos m) ltac:(clear; lia)) as [_ Hhi].
  assert (H53 : Zpos m < 2 ^ 53).
  { eapply Z.lt_le_trans; [exact Hhi|]. apply Z.pow_le_mono_r; lia. }
  clear Hc Hhi Hd. apply leb_finite_inv in Hle.
  destruct Hle as [He|[He Hm]].
  - split; [lia|].
    apply Z.le_trans with (2 ^ 53); [lia|]. apply Z.pow_le_mono_r; lia.
  - subst e. apply Pos2Z.pos_le_pos in Hm. split; [clear; lia|]. exact Hm.
Qed.

Lemma mul_le_int (n : Z) (f : spec_float) (my : positive) (ey : Z) :
  0 < n < 2 ^ 53 ->
  valid_binary prec emax (S754_finite false my ey) = true ->
  SFleb (S754_finite false my ey) one = true ->
  float_of_int n = Ok f ->
  match SFmul prec emax f (S754_finite false my ey) with
  | S754_finite s m e => s = false /\ 0 <= Z.shiftl (Zpos m) e <= n
  | S754_zero s => s = false
  | _ => False
  end.
Proof.
  intros Hn Hv Hle Hf.
  destruct (float_of_int_pos n Hn) as (mn & en & Hfn & Hen & Hmn & Hdn).
  rewrite Hfn in Hf. injection Hf as <-.
  destruct (le_one_inv my ey Hv Hle) as (Hey & Hmy).
  cbn [SFmul xorb].
  change (Zpos (mn * my)) with (Zpos mn * Zpos my).
  set (M := Zpos mn * Zpos my). set (E := en + ey).
  assert (HM : 0 < M) by (unfold M; lia).
  assert (HE : E < 0) by (unfold E; lia).
  assert (Hpe : 0 < 2 ^ (- en)) by (apply Z.pow_pos_nonneg; lia).
  assert (Hpy : 0 < 2 ^ (- ey)) by (apply Z.pow_pos_nonneg; lia).
  assert (H0 : M <= n * 2 ^ (- E)).
  { unfold M, E. rewrite Hmn. replace (- (en + ey)) with (- en + - ey) by lia.
    rewrite Z.pow_add_r by lia. nia. }
  destruct (binary_round_aux_spec prec emax ltac:(unfold prec; lia) false M E loc_Exact ltac:(lia))
    as (m2 & m3 & e3 & Hm2 & Hex & Hm3 & He3 & Hval & _ & Hres).
  rewrite Hres. clear Hres.
  set (k1 := Z.max 0 (fexp prec emax (Zdigits2 M + E) - E)) in *.
  set (m1 := Z.shiftr M k1) in *. set (e1 := E + k1) in *.
  assert (Hk1 : 0 <= k1) by (unfold k1; lia).
  assert (HdM : Zdigits2 M <= 53 - E).
  { apply Zdigits2_le_of_lt_pow; try lia.
    eapply Z.le_lt_trans; [exact H0|].
    replace (53 - E) with (53 + - E) by lia. rewrite Z.pow_add_r by lia.
    assert (0 < 2 ^ (- E)) by (apply Z.pow_pos_nonneg; lia). nia. }
  pose proof (Zdigits2_nonneg M) as HdM0.
  assert (He1 : e1 <= 0) by (unfold e1, k1, fexp, emin, prec, emax; lia).
  assert (Hp1 : 0 < 2 ^ (- e1)) by (apply Z.pow_pos_nonneg; lia).
  assert (Hpk : 0 < 2 ^ k1) by (apply Z.pow_pos_nonneg; lia).
  assert (Hsplit : 2 ^ (- E) = 2 ^ (- e1) * 2 ^ k1).
  { rewrite <- Z.pow_add_r by lia. f_equal. unfold e1. lia. }
  assert (Hm1def : m1 = M / 2 ^ k1) by (unfold m1; apply Z.shiftr_div_pow2; lia).
  assert (Hm1le : m1 <= n * 2 ^ (- e1)).
  { rewrite Hm1def. apply Z.div_le_upper_bound; [lia|]. rewrite Hsplit in H0. nia. }
  assert (Hm2le : m2 <= n * 2 ^ (- e1)).
  { destruct (Z.eq_dec m1 (n * 2 ^ (- e1))) as [Heq|Hne].
    - rewrite Hex; [lia|reflexivity|].
      assert (m1 * 2 ^ k1 <= M).
      { rewrite Hm1def. rewrite Z.mul_comm. apply Z.mul_div_le. lia. }
      rewrite Hsplit in H0. nia.
    - lia. }
  assert (Hm1pos : 0 <= m1) by (unfold m1; apply Z.shiftr_nonneg; lia).
  assert (Hsh : Z.shiftl m3 e3 = Z.shiftl m2 e1).
  { rewrite Hval, shiftl_scaled by lia. f_equal. lia. }
  assert (Hle2 : 0 <= Z.shiftl m3 e3 <= n).
  { rewrite Hsh. rewrite Z.shiftl_div_pow2 by lia. split.
    - apply Z.div_pos; lia.
    - apply Z.div_le_upper_bound; [lia|]. lia. }
  unfold round_result. destruct m3 as [|p|p]; [reflexivity| |lia].
  assert (He3le : e3 < 53).
  { assert (Hpp : 2 ^ (e3 - e1) <= m2).
    { rewrite Hval. assert (0 < 2 ^ (e3 - e1)) by (apply Z.pow_pos_nonneg; lia). nia. }
    assert (Hlt : 2 ^ (e3 - e1) < 2 ^ (53 - e1)).
    { eapply Z.le_lt_trans; [exact Hpp|]. eapply Z.le_lt_trans; [exact Hm2le|].
      replace (53 - e1) with (53 + - e1) by lia. rewrite Z.pow_add_r by lia. nia. }
    apply Z.pow_lt_mono_r_iff in Hlt; lia. }
  replace (e3 <=? emax - prec) with true
    by (symmetry; apply Z.leb_le; unfold emax, prec; lia).
  split; [reflexivity|exact Hle2].
Qed.

End UnitProductFacts.

(** ** The processed part of the schedule *)

Module ScheduleFacts.
Import Pipeline.

(** The start index for a percentage between 0.0 and 1.0. *)
Lemma start_index_in_unit (n : Z) (bp : spec_float) :
  0 <= n < 2 ^ 53 ->
  valid_binary PyFloat.prec PyFloat.emax bp = true ->
  SFleb PyFloat.zero bp = true -> SFleb bp PyFloat.one = true ->
  exists p k, PyFloat.mul_int_float n bp = Ok p /\ PyFloat.is_finite p = true /\
              PyFloat.int_of_float p = Ok k /\ 0 <= k <= n.
Proof.
  intros Hn Hv H0 H1. unfold PyFloat.mul_int_float.
  destruct (Z.eq_dec n 0) as [->|Hn0].
  - change (PyFloat.float_of_int 0) with (@Ok spec_float (S754_zero false)).
    cbn [bind].
    destruct bp as [s|s| |s m e]; try discriminate H0.
    + eexists _, 0. repeat split; lia.
    + destruct s; [discriminate H0|discriminate H1].
    + eexists _, 0. repeat split; lia.
  - destruct (PyFloat.float_of_int n) as [f|ex] eqn:Hf.
    2:{ destruct (PyFloatFacts.float_of_int_pos n ltac:(lia)) as (mn & en & Hf' & _).
        rewrite Hf' in Hf. discriminate Hf. }
    cbn [bind].
    destruct bp as [s|s| |s m e]; try discriminate H0.
    + destruct (PyFloatFacts.float_of_int_pos n ltac:(lia)) as (mn & en & Hf' & _).
      rewrite Hf' in Hf. injection Hf as <-.
      eexists _, 0. cbn [SFmul]. repeat split; lia.
    + destruct s; [discriminate H0|discriminate H1].
    + destruct s; [discriminate H0|].
      pose proof (UnitProductFacts.mul_le_int n f m e ltac:(lia) Hv H1 Hf) as Hle.
      destruct (SFmul PyFloat.prec PyFloat.emax f (S754_finite false m e)) as [s|s| |s q eq];
        try contradiction.
      * eexists _, 0. repeat split; lia.
      * destruct Hle as [-> Hle].
        exists (S754_finite false q eq), (Z.shiftl (Zpos q) eq).
        split; [reflexivity|]. split; [reflexivity|]. split; [reflexivity|exact Hle].
Qed.

(** X1. For every percentage between 0.0 and 1.0 the product with the
    number of timesteps is finite and its integer part lies between 0 and
    that number: the slicing does not raise, the loop runs over the
    timesteps from that index on, and a run that returns has made exactly
    [len(timesteps) - int(len(timesteps) * percentage)] iterations. *)
Theorem percentage_in_unit_interval_runs (M : Models) (morph : Args.pyval)
    (a : edit_args M) (generator cuda : rng M) :
  Z.of_nat (length (set_timesteps M (num_inference_steps a))) < 2 ^ 53 ->
  valid_binary PyFloat.prec PyFloat.emax (blending_percentage a) = true ->
  SFleb PyFloat.zero (blending_percentage a) = true ->
  SFleb (blending_percentage a) PyFloat.one = true ->
  exists k,
    start_index (set_timesteps M (num_inference_steps a)) (blending_percentage a) = Ok k /\
    0 <= k <= Z.of_nat (length (set_timesteps M (num_inference_steps a))) /\
    loop_timesteps (set_timesteps M (num_inference_steps a)) (blending_percentage a)
    = Ok (drop (Z.to_nat k) (set_timesteps M (num_inference_steps a))) /\
    (forall r, edit_image_trace M morph a generator cuda = Ok r ->
               map so_timestep (ro_trace r)
               = drop (Z.to_nat k) (set_timesteps M (num_inference_steps a)) /\
               Z.of_nat (length (ro_trace r))
               = Z.of_nat (length (set_timesteps M (num_inference_steps a))) - k).
Proof.
  intros Hlen Hv H0 H1.
  set (ts := set_timesteps M (num_inference_steps a)) in *.
  destruct (start_index_in_unit (Z.of_nat (length ts)) (blending_percentage a)
              ltac:(lia) Hv H0 H1) as (p & k & Hp & _ & Hk & Hrange).
  exists k.
  assert (Hs : start_index ts (blending_percentage a) = Ok k).
  { unfold start_index. rewrite Hp. exact Hk. }
  assert (Hl : loop_timesteps ts (blending_percentage a) = Ok (drop (Z.to_nat k) ts)).
  { unfold loop_timesteps. rewrite Hs. cbn [bind].
    rewrite PipelineFacts.py_slice_from_nonneg by lia. reflexivity. }
  split; [exact Hs|]. split; [exact Hrange|]. split; [exact Hl|].
  intros r Hr.
  pose proof (PipelineFacts.trace_timesteps M morph a generator cuda r Hr) as Hts.
  fold ts in Hts. rewrite Hl in Hts. injection Hts as Hts.
  split; [symmetry; exact Hts|].
  rewrite <- (length_map so_timestep), <- Hts, length_drop. lia.
Qed.

(** X1, with the stand-in models on a 512 x 512 source: 50 timesteps and
    the default 0.25 give the start index 12 and 38 iterations. *)
Lemma percentage_in_unit_interval_runs_witness :
  exists k r,
    start_index (set_timesteps Toy.shaped_models 50) PyFloat.c_0_25 = Ok k /\
    0 <= k <= 50 /\
    edit_image_trace Toy.shaped_models (Args.parsed_morph None)
      (Toy.shaped_args 50 PyFloat.c_0_25) 0 0 = Ok r /\
    Z.of_nat (length (ro_trace r)) = 50 - k.
Proof.
  destruct (percentage_in_unit_interval_runs Toy.shaped_models (Args.parsed_morph None)
              (Toy.shaped_args 50 PyFloat.c_0_25) 0 0) as (k & Hs & Hk & Hl & Hrun).
  - vm_compute. reflexivity.
  - reflexivity.
  - reflexivity.
  - reflexivity.
  - destruct PipelineFacts.shaped_models_keep as (HM & HS & _).
    destruct (PipelineFacts.run_returns Toy.shaped_models (Args.parsed_morph None)
                (Toy.shaped_args 50 PyFloat.c_0_25) 0 0 _ HM HS eq_refl eq_refl eq_refl Hl)
      as (r & Hr & _).
    exists k, r. split; [exact Hs|]. split; [exact Hk|]. split; [exact Hr|].
    exact (proj2 (Hrun r Hr)).
Defined.

(** X2. A percentage that is not a finite number always makes
    [edit_image] raise where the schedule is sliced, before the first
    iteration: NaN raises [ValueError]; an infinity raises
    [OverflowError] on a schedule that is not empty and [ValueError] on an
    empty one. *)
Theorem nonfinite_percentage_raises (M : Models) (morph : Args.pyval)
    (a : edit_args M) (generator cuda : rng M) :
  Z.of_nat (length (set_timesteps M (num_inference_steps a))) < 2 ^ 53 ->
  PyFloat.is_finite (blending_percentage a) = false ->
  edit_image M morph a generator cuda
  = Raise (match blending_percentage a, set_timesteps M (num_inference_steps a) with
           | S754_infinity _, _ :: _ => OverflowError
           | _, _ => ValueError
           end).
Proof.
  intros Hlen Hnf. unfold edit_image, edit_image_trace, loop_timesteps, start_index,
    PyFloat.mul_int_float.
  set (ts := set_timesteps M (num_inference_steps a)) in *.
  destruct ts as [|t ts'] eqn:Ets.
  - change (PyFloat.float_of_int (Z.of_nat (length []))) with (@Ok spec_float (S754_zero false)).
    cbn [bind].
    destruct (blending_percentage a) as [s|s| |s m e]; try discriminate Hnf; reflexivity.
  - destruct (PyFloatFacts.float_of_int_pos (Z.of_nat (length (t :: ts')))) as (mn & en & Hf & _).
    { cbn [length] in *. lia. }
    rewrite Hf. cbn [bind].
    destruct (blending_percentage a) as [s|s| |s m e]; try discriminate Hnf; reflexivity.
Qed.

(** X2, with the stand-in models and the percentage NaN. *)
Lemma nonfinite_percentage_raises_witness :
  edit_image Toy.models (Args.parsed_morph None) (Toy.args 50 S754_nan) 0 0
  = Raise ValueError.
Proof.
  apply (nonfinite_percentage_raises Toy.models (Args.parsed_morph None)
           (Toy.args 50 S754_nan) 0 0).
  - vm_compute. reflexivity.
  - reflexivity.
Defined.

(** X3. A negative percentage does not raise: the start index is the
    product truncated toward zero, [-t], and the slice counts it from the
    end. The loop then runs over the last [t] timesteps, or over the whole
    schedule when [t] is 0 or exceeds its length. *)
Theorem negative_percentage_counts_from_end {A : Type} (timesteps : list A)
    (bp p : spec_float) :
  Z.of_nat (length timesteps) < 2 ^ 53 ->
  SFltb bp PyFloat.zero = true ->
  PyFloat.mul_int_float (Z.of_nat (length timesteps)) bp = Ok p ->
  PyFloat.is_finite p = true ->
  exists t,
    0 <= t /\
    start_index timesteps bp = Ok (- t) /\
    loop_timesteps timesteps bp
    = Ok (if t =? 0 then timesteps
          else drop (Z.to_nat (Z.of_nat (length timesteps) - t)) timesteps).
Proof.
  intros Hlen Hneg Hp Hfin.
  assert (Hint : exists t, 0 <= t /\ PyFloat.int_of_float p = Ok (- t)).
  { unfold PyFloat.mul_int_float in Hp.
    destruct (Z.eq_dec (Z.of_nat (length timesteps)) 0) as [Hz|Hnz].
    - rewrite Hz in Hp.
      change (PyFloat.float_of_int 0) with (@Ok spec_float (S754_zero false)) in Hp.
      cbn [bind] in Hp. injection Hp as <-.
      destruct bp as [s|s| |s m e]; cbn [SFmul] in *; try discriminate Hfin;
        exists 0; split; first [lia | reflexivity].
    - destruct (PyFloatFacts.float_of_int_pos (Z.of_nat (length timesteps)) ltac:(lia))
        as (mn & en & Hf & _).
      rewrite Hf in Hp. cbn [bind] in Hp. injection Hp as <-.
      destruct bp as [s|s| |s m e]; cbn [SFmul] in *; try discriminate Hfin.
      + exists 0. split; [lia|reflexivity].
      + destruct s; [|discriminate Hneg]. cbn [xorb] in *.
        destruct (RoundingFacts.binary_round_aux_spec PyFloat.prec PyFloat.emax
                    ltac:(unfold PyFloat.prec; lia) true (Zpos (mn * m)) (en + e) loc_Exact
                    ltac:(lia)) as (m2 & m3 & e3 & _ & _ & Hm3 & _ & _ & _ & Hres).
        rewrite Hres in *. unfold round_result in *.
        destruct m3 as [|q|q]; try lia.
        * exists 0. split; [lia|reflexivity].
        * destruct (e3 <=? PyFloat.emax - PyFloat.prec); [|discriminate Hfin].
          exists (Z.shiftl (Zpos q) e3). split; [apply Z.shiftl_nonneg; lia|reflexivity]. }
  destruct Hint as (t & Ht & Hi). exists t.
  assert (Hs : start_index timesteps bp = Ok (- t)).
  { unfold start_index. rewrite Hp. exact Hi. }
  split; [exact Ht|]. split; [exact Hs|].
  unfold loop_timesteps. rewrite Hs. cbn [bind]. f_equal. unfold py_slice_from.
  destruct (Z.eqb_spec t 0) as [->|Hne].
  - reflexivity.
  - replace (- t <? 0) with true by (symmetry; apply Z.ltb_lt; lia).
    f_equal. lia.
Qed.

(** X3, on 50 timesteps with the percentage -0.5: the last 25. *)
Lemma negative_percentage_counts_from_end_witness :
  loop_timesteps (seq 0 50) (S754_finite true 4503599627370496 (-53))
  = Ok (drop 25 (seq 0 50)).
Proof.
  destruct (negative_percentage_counts_from_end (seq 0 50)
              (S754_finite true 4503599627370496 (-53))
              (S754_finite true 7036874417766400 (-48))) as (t & _ & Hs & Hl).
  - vm_compute. reflexivity.
  - reflexivity.
  - vm_compute. reflexivity.
  - reflexivity.
  - assert (Ht : t = 25).
    { assert (H : start_index (seq 0 50) (S754_finite true 4503599627370496 (-53)) = Ok (-25))
        by (vm_compute; reflexivity).
      rewrite H in Hs. injection Hs as Hs. lia. }
    subst t. exact Hl.
Defined.

End ScheduleFacts.

(** ** Runs with morphing switched on *)

Module MorphRunFacts.
Import Pipeline Trace.

Lemma enumerate_indices {A : Type} (l : list A) :
  Forall (fun it => 0 <= fst it < Z.of_nat (length l)) (enumerate l).
Proof.
  unfold enumerate.
  assert (H : forall (g : nat -> Z) (n : Z),
             (forall j, (j < length l)%nat -> 0 <= g j < n) ->
             Forall (fun it : Z * A => 0 <= fst it < n) (imap (fun i x => (g i, x)) l)).
  { induction l as [|x l IH]; intros g n Hg; [constructor|].
    cbn [imap]. constructor.
    - cbn [fst]. apply Hg. cbn [length]. lia.
    - apply (IH (fun i => g (S i))). intros j Hj. apply Hg. cbn [length]. lia. }
  apply H. intros j Hj. lia.
Qed.

Lemma enumerate_fst {A : Type} (l : list A) :
  map fst (enumerate l) = map Z.of_nat (seq 0 (length l)).
Proof.
  unfold enumerate.
  assert (H : forall (g : nat -> Z),
             map fst (imap (fun i x => (g i, x)) l) = map g (seq 0 (length l))).
  { induction l as [|x l IH]; intros g; [reflexivity|].
    cbn [imap map fst length seq]. f_equal.
    rewrite <- seq_shift, map_map. apply (IH (fun i => g (S i))). }
  apply H.
Qed.

Lemma guide_returns (M : Models) (gs : spec_float) (emb : list (embedding M))
    (latents : batch) (t : timestep M) :
  rows_preserved M ->
  exists g, guide M gs (unet M (scale_model_input M (latents ++ latents) t) t emb) = Ok g.
Proof.
  intros (_ & Hunet & Hscale).
  rewrite (PipelineFacts.guide_even M gs _ (length latents))
    by (rewrite Hunet, Hscale, length_app; lia).
  eexists. reflexivity.
Qed.

Lemma step_mask_morphed (M : Models) (morph : Args.pyval) (img : Mask.gray_image)
    (mask : plane) (total i : Z) :
  Args.morph_enabled morph = true ->
  Mask._read_mask img 64 64 = Ok (mask, img) ->
  2 <= total < 2 ^ 49 -> 0 <= i < total ->
  step_mask M morph img i (Morph.threshold_of total)
  = Ok (morphed_mask (cv M) mask (Morph.threshold_of total) i) /\
  (Morph.threshold_of total <= i -> 5 <= 5 * i / Morph.threshold_of total <= 10).
Proof.
  intros Hm Hmask Htot Hi. unfold Morph.threshold_of.
  assert (Hth : 1 <= total / 2) by (apply Z.div_le_lower_bound; lia).
  assert (Htwo : total <= 2 * (total / 2) + 1).
  { pose proof (Z.div_mod total 2 ltac:(lia)) as Hdm.
    pose proof (Z.mod_pos_bound total 2 ltac:(lia)). lia. }
  split.
  - unfold step_mask, morphed_mask. rewrite Hmask. cbn [bind fst]. rewrite Hm.
    unfold Morph.morph_dilation.
    destruct (Z.ltb_spec i (total / 2)) as [Hlt|Hge].
    + rewrite (MorphFacts.morph_kernel_erode i (total / 2) _ Hlt). reflexivity.
    + rewrite MorphFacts.morph_kernel_dilate by (unfold Morph.dilation_init; lia).
      reflexivity.
  - intros Hge. split.
    + apply Z.div_le_lower_bound; lia.
    + apply Z.div_le_upper_bound; lia.
Qed.

Lemma morphed_mask_shape (cv : Morph.Cv2) (mask : plane) (threshold i : Z) :
  cv_keeps_shape cv -> grid_shape 64 64 mask ->
  mask_shape 64 64 (morphed_mask cv mask threshold i).
Proof.
  intros (Hclose & Herode & Hdilate) Hg. unfold morphed_mask. cbn [mask_shape].
  assert (Hc : grid_shape 64 64 (Morph.astype_u8 (Morph.cv_close cv mask 1))).
  { unfold Morph.astype_u8. apply ShapeFacts.grid_shape_map2d, Hclose, Hg. }
  destruct (i <? threshold); [apply Herode|apply Hdilate]; exact Hc.
Qed.

(** The masks of a loop with morphing that returns. *)
Lemma denoise_loop_morph_trace (M : Models) (morph : Args.pyval) (img : Mask.gray_image)
    (mask : plane) (source : batch) (emb : list (embedding M)) (gs : spec_float)
    (total : Z) (its : list (Z * timestep M)) :
  Args.morph_enabled morph = true ->
  Mask._read_mask img 64 64 = Ok (mask, img) ->
  2 <= total < 2 ^ 49 ->
  Forall (fun it => 0 <= fst it < total) its ->
  forall latents cuda r,
  denoise_loop M morph img source emb gs (Morph.threshold_of total) its latents cuda = Ok r ->
  Forall (fun s => so_mask s
                   = morphed_mask (cv M) mask (Morph.threshold_of total) (so_index s) /\
                   so_latents s
                   = blend (so_candidate s)
                       (morphed_mask (cv M) mask (Morph.threshold_of total) (so_index s))
                       (so_noised_source s))
         (snd r).
Proof.
  intros Hm Hmask Htot Hits.
  induction Hits as [|[i t] its Hi _ IH]; intros latents cuda r; cbn [denoise_loop].
  - intros [= <-]. constructor.
  - destruct (denoise_step _ _ _ _ _ _ _ _ _ _ _) as [s|e] eqn:Hs; cbn [bind]; [|discriminate].
    destruct (denoise_loop _ _ _ _ _ _ _ _ _ _) as [r'|e] eqn:Hr; cbn [bind]; [|discriminate].
    intros [= <-]. cbn [snd]. constructor; [|exact (IH _ _ _ Hr)].
    destruct (PipelineFacts.denoise_step_inv _ _ _ _ _ _ _ _ _ _ _ _ Hs)
      as (Hidx & _ & _ & _ & _ & Hsm & _ & _ & _ & Hbl).
    cbn [fst] in Hi.
    destruct (step_mask_morphed M morph img mask total i Hm Hmask Htot Hi) as [Hstep _].
    rewrite Hstep in Hsm. injection Hsm as Hsm.
    rewrite Hidx. split; [symmetry; exact Hsm|]. rewrite Hbl, <- Hsm. reflexivity.
Qed.

(** X4. With morphing on, a run that processes exactly one timestep
    raises [ZeroDivisionError] whatever the models compute: the threshold
    is [1 // 2 = 0] and the first dilation divides by it. *)
Theorem morph_run_with_one_timestep_raises (M : Models) (morph : Args.pyval)
    (a : edit_args M) (generator cuda : rng M) (t : timestep M) :
  rows_preserved M -> Args.morph_enabled morph = true ->
  loop_timesteps (set_timesteps M (num_inference_steps a)) (blending_percentage a) = Ok [t] ->
  edit_image M morph a generator cuda = Raise ZeroDivisionError.
Proof.
  intros HM Hm Hits. unfold edit_image, edit_image_trace. rewrite Hits. cbn [bind].
  cbn [enumerate imap denoise_loop]. unfold denoise_step.
  destruct (guide_returns M (guidance_scale a) (text_embeddings M (prompts a))
              (fst (initial_latents M a generator)) t HM) as [g ->].
  cbn [bind]. unfold step_mask.
  destruct (PipelineFacts.read_mask_returns (mask_image a)) as [mask ->].
  cbn [bind fst]. rewrite Hm. reflexivity.
Qed.

(** X4, with the stand-in models: 50 timesteps and the percentage 0.98. *)
Lemma morph_run_with_one_timestep_raises_witness :
  edit_image Toy.models (Args.PyBool true)
    (Toy.args 50 (S754_finite false 8827055269646172 (-53))) 0 0
  = Raise ZeroDivisionError.
Proof.
  apply (morph_run_with_one_timestep_raises Toy.models (Args.PyBool true)
           (Toy.args 50 (S754_finite false 8827055269646172 (-53))) 0 0 0).
  - unfold rows_preserved. simpl. repeat split; reflexivity.
  - reflexivity.
  - vm_compute. reflexivity.
Defined.

(** X5. With morphing on, a run that processes at least two timesteps
    returns when the latents have the size of the mask and the models and
    the image processing calls keep the shapes. The steps are numbered
    from 0 and each reads the mask anew; below the threshold [total // 2]
    the latents that a step leaves are blended under the mask eroded by a
    2 x 2 kernel, and from the threshold on under the mask dilated by a
    square kernel of side [5 * i // threshold], which lies between 5 and
    10. *)
Theorem morph_run_masks (M : Models) (morph : Args.pyval)
    (a : edit_args M) (generator cuda : rng M) (its : list (timestep M)) :
  rows_preserved M -> shapes_kept M -> cv_keeps_shape (cv M) ->
  Args.morph_enabled morph = true ->
  height a / 8 = 64 -> width a / 8 = 64 ->
  loop_timesteps (set_timesteps M (num_inference_steps a)) (blending_percentage a) = Ok its ->
  2 <= Z.of_nat (length its) < 2 ^ 49 ->
  exists r mask,
    edit_image_trace M morph a generator cuda = Ok r /\
    Mask._read_mask (mask_image a) 64 64 = Ok (mask, mask_image a) /\
    map so_timestep (ro_trace r) = its /\
    map so_index (ro_trace r) = map Z.of_nat (seq 0 (length its)) /\
    Forall (fun s =>
              let threshold := Z.of_nat (length its) / 2 in
              let closed := Morph.astype_u8 (Morph.cv_close (cv M) mask 1) in
              (so_index s < threshold ->
               so_mask s = ByteMask (Morph.cv_erode (cv M) closed 2) /\
               so_latents s
               = blend (so_candidate s) (ByteMask (Morph.cv_erode (cv M) closed 2))
                   (so_noised_source s)) /\
              (threshold <= so_index s ->
               so_mask s
               = ByteMask (Morph.cv_dilate (cv M) closed (5 * so_index s / threshold)) /\
               so_latents s
               = blend (so_candidate s)
                   (ByteMask (Morph.cv_dilate (cv M) closed (5 * so_index s / threshold)))
                   (so_noised_source s) /\
               5 <= 5 * so_index s / threshold <= 10))
           (ro_trace r).
Proof.
  intros HM HS Hcv Hm Hh Hw Hits Htot.
  destruct (PipelineFacts.read_mask_shape (mask_image a)) as (mask & Hmask & Hg).
  assert (Hsteps : Forall (fun it : Z * timestep M =>
                             exists m, step_mask M morph (mask_image a) (fst it)
                                         (Morph.threshold_of (Z.of_nat (length its))) = Ok m /\
                                       mask_shape 64 64 m) (enumerate its)).
  { eapply Forall_impl; [exact (enumerate_indices its)|].
    intros it Hi. cbn beta in Hi.
    destruct (step_mask_morphed M morph (mask_image a) mask _ (fst it) Hm Hmask Htot Hi)
      as [Hstep _].
    eexists. split; [exact Hstep|]. apply morphed_mask_shape; assumption. }
  destruct (PipelineFacts.denoise_loop_returns M morph (mask_image a)
              (_image2latent M (image a)) (text_embeddings M (prompts a)) (guidance_scale a)
              (Morph.threshold_of (Z.of_nat (length its))) (enumerate its)
              (length (prompts a)) (Z.to_nat (in_channels M)) HM HS Hsteps
              (fst (initial_latents M a generator)) cuda
              (PipelineFacts.initial_latents_shape M a generator HS Hh Hw)) as [lr Hlr].
  pose proof (denoise_loop_morph_trace M morph (mask_image a) mask _ _ _ _ _ Hm Hmask Htot
                (enumerate_indices its) _ _ _ Hlr) as Hall.
  destruct (PipelineFacts.denoise_loop_trace _ _ _ _ _ _ _ _ _ _ _ Hlr) as (Hmap & _).
  unfold edit_image_trace. rewrite Hits. cbn [bind]. rewrite Hlr. cbn [bind].
  eexists. exists mask. split; [reflexivity|]. cbn [ro_trace].
  split; [exact Hmask|].
  assert (Hidx : map so_index (snd lr) = map fst (enumerate its)).
  { rewrite <- Hmap, map_map. reflexivity. }
  split; [|split].
  - rewrite <- (PipelineFacts.imap_snd its Z.of_nat). fold (enumerate its).
    rewrite <- Hmap, map_map. reflexivity.
  - rewrite Hidx. apply enumerate_fst.
  - assert (Hrange : Forall (fun s => 0 <= so_index s < Z.of_nat (length its)) (snd lr)).
    { apply List.Forall_forall. intros s Hs.
      pose proof (enumerate_indices its) as He. rewrite <- Hmap in He.
      rewrite List.Forall_forall in He.
      apply (He (so_index s, so_timestep s)).
      apply in_map_iff. exists s. split; [reflexivity|exact Hs]. }
    rewrite List.Forall_forall in Hall, Hrange. apply List.Forall_forall. intros s Hs.
    destruct (Hall s Hs) as [Hsm Hbl]. specialize (Hrange s Hs). cbn zeta.
    destruct (step_mask_morphed M morph (mask_image a) mask (Z.of_nat (length its))
                (so_index s) Hm Hmask Htot Hrange) as [_ Hk].
    unfold Morph.threshold_of in *. unfold morphed_mask in Hsm, Hbl. split.
    + intros Hlt.
      replace (so_index s <? Z.of_nat (length its) / 2) with true in Hsm, Hbl
        by (symmetry; apply Z.ltb_lt; exact Hlt).
      split; [exact Hsm|exact Hbl].
    + intros Hge.
      replace (so_index s <? Z.of_nat (length its) / 2) with false in Hsm, Hbl
        by (symmetry; apply Z.ltb_ge; exact Hge).
      split; [exact Hsm|]. split; [exact Hbl|exact (Hk Hge)].
Qed.

(** X5, with the stand-in models on a 512 x 512 source: 50 timesteps and
    the default 0.25 leave 38 processed timesteps, threshold 19. *)
Lemma morph_run_masks_witness :
  exists r mask,
    edit_image_trace Toy.shaped_models (Args.PyBool true)
      (Toy.shaped_args 50 PyFloat.c_0_25) 0 0 = Ok r /\
    Mask._read_mask [[0; 255]] 64 64 = Ok (mask, [[0; 255]]) /\
    map so_timestep (ro_trace r) = rev (map Z.of_nat (seq 0 38)) /\
    map so_index (ro_trace r) = map Z.of_nat (seq 0 38) /\
    Forall (fun s =>
              (so_index s < 19 ->
               so_mask s = ByteMask (Morph.astype_u8 mask) /\
               so_latents s
               = blend (so_candidate s) (ByteMask (Morph.astype_u8 mask))
                   (so_noised_source s)) /\
              (19 <= so_index s ->
               so_mask s = ByteMask (Morph.astype_u8 mask) /\
               so_latents s
               = blend (so_candidate s) (ByteMask (Morph.astype_u8 mask))
                   (so_noised_source s) /\
               5 <= 5 * so_index s / 19 <= 10))
           (ro_trace r).
Proof.
  destruct PipelineFacts.shaped_models_keep as (HM & HS & Hcv).
  apply (morph_run_masks Toy.shaped_models (Args.PyBool true)
           (Toy.shaped_args 50 PyFloat.c_0_25) 0 0 (rev (map Z.of_nat (seq 0 38)))).
  - exact HM.
  - exact HS.
  - exact Hcv.
  - reflexivity.
  - reflexivity.
  - reflexivity.
  - vm_compute. reflexivity.
  - vm_compute. split; [discriminate|reflexivity].
Defined.

(** X6. The uint8 mask that [morph_dilation] hands to the blend works as
    the half mask does. Casting a half mask of zeros and ones to uint8 and
    promoting it back gives the same mask; and a uint8 mask of zeros and
    ones blends to exactly the latents that the half mask of the same
    values gives, the uint8 complement [1 - mask] included. *)
Theorem byte_mask_blends_as_half (latents noised : batch) (p : plane) :
  mask_binary (HalfMask p) ->
  mask_binary (ByteMask (Morph.astype_u8 p)) /\
  map2d Half.of_u8 (Morph.astype_u8 p) = p /\
  (forall a, mask_binary (ByteMask a) ->
             blend latents (ByteMask a) noised
             = blend latents (HalfMask (map2d Half.of_u8 a)) noised) /\
  blend latents (ByteMask (Morph.astype_u8 p)) noised = blend latents (HalfMask p) noised.
Proof.
  cbn [mask_binary]. intros Hp.
  assert (Hb : Forall (Forall (fun v => v = 0 \/ v = 1)) (Morph.astype_u8 p)).
  { unfold Morph.astype_u8.
    apply (MaskFacts.map2d_Forall (fun x => x = Half.zero \/ x = Half.one)); [|exact Hp].
    intros x [-> | ->]; [left|right]; reflexivity. }
  assert (Hrt : map2d Half.of_u8 (Morph.astype_u8 p) = p).
  { unfold Morph.astype_u8. rewrite MaskFacts.map2d_map2d.
    apply (MaskFacts.map2d_id_Forall (fun x => x = Half.zero \/ x = Half.one)); [|exact Hp].
    intros x [-> | ->]; reflexivity. }
  assert (Hbl : forall a, Forall (Forall (fun v => v = 0 \/ v = 1)) a ->
                          blend latents (ByteMask a) noised
                          = blend latents (HalfMask (map2d Half.of_u8 a)) noised).
  { intros a Ha. unfold blend. cbn [mask_factor one_minus].
    f_equal. f_equal. rewrite MaskFacts.map2d_map2d.
    apply (MaskFacts.map2d_ext_Forall (fun v => v = 0 \/ v = 1)); [|exact Ha].
    intros v [-> | ->]; reflexivity. }
  split; [exact Hb|]. split; [exact Hrt|]. split; [exact Hbl|].
  rewrite (Hbl _ Hb), Hrt. reflexivity.
Qed.

(** X6, on a one row mask. *)
Lemma byte_mask_blends_as_half_witness :
  blend [[[[Half.one; Half.one]]]] (ByteMask (Morph.astype_u8 [[Half.zero; Half.one]]))
    [[[[Half.zero; Half.zero]]]]
  = blend [[[[Half.one; Half.one]]]] (HalfMask [[Half.zero; Half.one]])
      [[[[Half.zero; Half.zero]]]].
Proof.
  destruct (byte_mask_blends_as_half [[[[Half.one; Half.one]]]] [[[[Half.zero; Half.zero]]]]
              [[Half.zero; Half.one]]) as (_ & _ & _ & H).
  - cbn [mask_binary].
    repeat first [apply List.Forall_nil | apply List.Forall_cons
                 | left; reflexivity | right; reflexivity].
  - exact H.
Defined.

End MorphRunFacts.

(** ** Which mask images select a region, and from which pixels *)

Module MaskSelectionFacts.
Import Mask.

Lemma foldr_max_spec (v : Z) (vs : list Z) :
  In (foldr Z.max v vs) (v :: vs) /\ Forall (fun u => u <= foldr Z.max v vs) (v :: vs).
Proof.
  induction vs as [|w vs [Hin Hall]]; cbn [foldr].
  - split; [left; reflexivity|]. constructor; [lia|constructor].
  - inversion Hall as [|? ? Hv Hvs]; subst. split.
    + destruct (Z.max_spec w (foldr Z.max v vs)) as [[_ ->]|[_ ->]].
      * destruct Hin as [Hin|Hin]; [left; exact Hin|right; right; exact Hin].
      * right; left; reflexivity.
    + constructor; [lia|]. constructor; [lia|].
      eapply Forall_impl; [exact Hvs|]. intros u Hu. cbn beta in *. lia.
Qed.

(** [np.max] returns an element of the array that bounds the others. *)
Lemma np_max_spec (a : list (list Z)) (mx : Z) :
  np_max a = Ok mx -> In mx (concat a) /\ Forall (fun u => u <= mx) (concat a).
Proof.
  unfold np_max. destruct (concat a) as [|v vs]; [discriminate|].
  intros [= <-]. apply foldr_max_spec.
Qed.

Lemma in_concat_map2d {A B : Type} (f : A -> B) (a : list (list A)) (y : B) :
  In y (concat (map2d f a)) <-> exists x, In x (concat a) /\ f x = y.
Proof.
  unfold map2d. induction a as [|row a IH]; cbn [fmap list_fmap concat].
  - split; [intros []|intros (x & [] & _)].
  - change (list_fmap A B f row) with (f <$> row).
    change (list_fmap (list A) (list B) (fmap f) a) with (fmap (M:=list) (fmap (M:=list) f) a).
    rewrite in_app_iff, IH. split.
    + intros [H|(x & Hx & Hf)].
      * assert (Hm : exists x, In x row /\ f x = y).
        { clear -H. induction row as [|x row IHr]; [destruct H|].
          destruct H as [H|H]; [exists x; split; [left; reflexivity|exact H]|].
          destruct (IHr H) as (x' & Hx' & Hf'). exists x'. split; [right; exact Hx'|exact Hf']. }
        destruct Hm as (x & Hx & Hf). exists x. split; [|exact Hf].
        apply in_app_iff. left. exact Hx.
      * exists x. split; [|exact Hf]. apply in_app_iff. right. exact Hx.
    + intros (x & Hx & Hf). apply in_app_iff in Hx. destruct Hx as [Hx|Hx].
      * left. clear -Hx Hf. induction row as [|x' row IHr]; [destruct Hx|].
        destruct Hx as [->|Hx]; [left; exact Hf|right; exact (IHr Hx)].
      * right. exists x. split; [exact Hx|exact Hf].
Qed.

(** X7. The mask that [_read_mask] returns selects something (holds a 1)
    exactly when the brightest pixel of the resized image is 1 or at least
    128. A mask image whose brightest pixel lies between 2 and 127 gives an
    all-zero mask, while an image of zeros and ones is used as it is. *)
Theorem read_mask_selects_iff_bright (img : gray_image) :
  image_ok img ->
  exists mask mx,
    _read_mask img 64 64 = Ok (mask, img) /\
    np_max (resize_nearest img 64 64) = Ok mx /\
    (In Half.one (elements mask) <-> mx = 1 \/ 128 <= mx).
Proof.
  intros Hok.
  destruct (MaskFacts.read_mask_spec img 64 64 Hok ltac:(lia) ltac:(lia)) as (mx & Hmx & Hr).
  eexists. exists mx. split; [exact Hr|]. split; [exact Hmx|].
  destruct (np_max_spec _ _ Hmx) as [Hin Hle].
  unfold elements. rewrite in_concat_map2d. split.
  - intros (v & Hv & Hone). rewrite List.Forall_forall in Hle. specialize (Hle v Hv).
    unfold mask_value in Hone. destruct (Z.ltb_spec 1 mx) as [H1|H1].
    + destruct (Z.leb_spec 128 v); [right; lia|discriminate Hone].
    + destruct (Z.leb_spec 1 v); [left; lia|discriminate Hone].
  - intros Hc. exists mx. split; [exact Hin|]. unfold mask_value.
    destruct Hc as [->|H].
    + reflexivity.
    + replace (1 <? mx) with true by (symmetry; apply Z.ltb_lt; lia).
      replace (128 <=? mx) with true by (symmetry; apply Z.leb_le; lia).
      reflexivity.
Qed.

(** X7, on a gray image with brightest pixel 100: nothing is selected. *)
Lemma read_mask_selects_iff_bright_witness :
  exists mask, _read_mask [[0; 100]] 64 64 = Ok (mask, [[0; 100]]) /\
               ~ In Half.one (elements mask).
Proof.
  destruct (read_mask_selects_iff_bright [[0; 100]]) as (mask & mx & Hr & Hmx & Hiff).
  - unfold image_ok, pixel_ok. repeat constructor; lia.
  - exists mask. split; [exact Hr|].
    assert (mx = 100) by (vm_compute in Hmx; congruence).
    rewrite Hiff. lia.
Defined.

Lemma source_index_multiple (k n i : nat) :
  (0 < n)%nat -> source_index n (k * n) i = (k * i + k / 2)%nat.
Proof.
  intros Hn. unfold source_index.
  replace ((2 * i + 1) * (k * n))%nat with (((2 * i + 1) * k) * n)%nat by lia.
  rewrite Nat.Div0.div_mul_cancel_r by lia.
  replace ((2 * i + 1) * k)%nat with (k + (k * i) * 2)%nat by lia.
  rewrite Nat.div_add by lia. lia.
Qed.

Lemma resize_nearest_lookup (img : gray_image) (w h y x : nat) :
  (y < h)%nat -> (x < w)%nat ->
  match resize_nearest img w h !! y with Some row => row !! x | None => None end
  = Some (source_pixel img (source_index h (length img) y)
            (source_index w (length (default [] (head img))) x)).
Proof.
  intros Hy Hx. unfold resize_nearest.
  rewrite list_lookup_fmap, lookup_seq_lt by exact Hy.
  cbn [fmap option_fmap option_map].
  rewrite list_lookup_fmap, lookup_seq_lt by exact Hx.
  reflexivity.
Qed.

(** X8. For a mask image whose sides are a multiple [k] of the
    destination size (512 x 512 for the default 64 x 64 has [k = 8]; an
    image of the destination size has [k = 1]), the element (y, x) of the
    latent mask is decided by the one pixel at
    [(k * y + k // 2, k * x + k // 2)]: the other pixels of its block are
    not looked at. *)
Theorem read_mask_samples_block_centres (img : gray_image) (k w h : nat) :
  (0 < w)%nat -> (0 < h)%nat ->
  length img = (k * h)%nat -> Forall (fun row => length row = (k * w)%nat) img ->
  image_ok img ->
  exists mask mx,
    _read_mask img w h = Ok (mask, img) /\
    np_max (resize_nearest img w h) = Ok mx /\
    forall y x row v,
      (y < h)%nat -> (x < w)%nat ->
      img !! (k * y + k / 2)%nat = Some row -> row !! (k * x + k / 2)%nat = Some v ->
      at_pixel mask y x = Some (mask_value mx v).
Proof.
  intros Hw Hh Hlen Hrows Hok.
  destruct (MaskFacts.read_mask_spec img w h Hok Hw Hh) as (mx & Hmx & Hr).
  eexists. exists mx. split; [exact Hr|]. split; [exact Hmx|].
  intros y x row v Hy Hx Hrow Hv.
  assert (Hhd : length (default [] (head img)) = (k * w)%nat).
  { destruct img as [|r0 img']; [rewrite lookup_nil in Hrow; discriminate Hrow|].
    inversion Hrows; subst. assumption. }
  pose proof (resize_nearest_lookup img w h y x Hy Hx) as Hres.
  rewrite Hlen, Hhd, !source_index_multiple in Hres by assumption.
  unfold source_pixel in Hres. rewrite Hrow, Hv in Hres. cbn [default] in Hres.
  rewrite PipelineFacts.at_pixel_map2d_u8.
  rewrite Hres. reflexivity.
Qed.

(** X8, on a 4 x 4 image read at size 2 x 2: the mask element (1, 0)
    comes from the pixel (3, 1). *)
Lemma read_mask_samples_block_centres_witness :
  exists mask mx,
    _read_mask [[0; 0; 0; 0]; [0; 0; 0; 0]; [0; 0; 0; 0]; [0; 255; 0; 0]] 2 2
    = Ok (mask, [[0; 0; 0; 0]; [0; 0; 0; 0]; [0; 0; 0; 0]; [0; 255; 0; 0]]) /\
    at_pixel mask 1 0 = Some (mask_value mx 255).
Proof.
  destruct (read_mask_samples_block_centres
              [[0; 0; 0; 0]; [0; 0; 0; 0]; [0; 0; 0; 0]; [0; 255; 0; 0]] 2 2 2)
    as (mask & mx & Hr & _ & Hpix).
  - lia.
  - lia.
  - reflexivity.
  - repeat constructor.
  - unfold image_ok, pixel_ok. repeat constructor; lia.
  - exists mask, mx. split; [exact Hr|].
    apply (Hpix 1%nat 0%nat [0; 255; 0; 0] 255); [lia|lia|reflexivity|reflexivity].
Defined.

End MaskSelectionFacts.

(** ** The half numbers in order *)

Module HalfOrderFacts.
Import HalfOrder.

Lemma all_ranks_spec (P : Z -> bool) :
  all_ranks P = true -> forall r, -32768 <= r < 32768 -> P r = true.
Proof.
  intros H r Hr. unfold all_ranks in H.
  pose proof (MaskFacts.forallb_below _ 64 H ((r + 32768) / 1024)) as Hhi.
  cbv beta in Hhi.
  assert (Hq : 0 <= (r + 32768) / 1024 < Z.of_nat 64).
  { split; [apply Z.div_pos; lia|apply Z.div_lt_upper_bound; lia]. }
  specialize (Hhi Hq).
  pose proof (MaskFacts.forallb_below _ 1024 Hhi ((r + 32768) mod 1024)) as Hlo.
  cbv beta in Hlo.
  assert (Hm : 0 <= (r + 32768) mod 1024 < Z.of_nat 1024)
    by (pose proof (Z.mod_pos_bound (r + 32768) 1024 ltac:(lia)); lia).
  specialize (Hlo Hm).
  replace (1024 * ((r + 32768) / 1024) + (r + 32768) mod 1024 - 32768) with r in Hlo.
  - exact Hlo.
  - pose proof (Z.div_mod (r + 32768) 1024 ltac:(lia)). lia.
Qed.

Lemma valid_finite_inv (s : bool) (m : positive) (e : Z) :
  Half.valid (S754_finite s m e) = true ->
  -24 <= e <= 5 /\ Zpos m < 2048 /\ (e = -24 \/ 1024 <= Zpos m).
Proof.
  unfold Half.valid, valid_binary, bounded, canonical_mantissa. intros H.
  apply andb_prop in H. destruct H as [Hc He].
  apply Z.eqb_eq in Hc. apply Z.leb_le in He.
  change (Zpos (digits2_pos m)) with (Zdigits2 (Zpos m)) in Hc.
  pose proof (RoundingFacts.Zdigits2_bounds (Zpos m) ltac:(lia)) as [Hlo Hhi].
  unfold fexp, emin, Half.prec, Half.emax in *.
  set (d := Zdigits2 (Zpos m)) in *.
  assert (Hd : d <= 11 /\ (e = -24 \/ d = 11) /\ -24 <= e) by lia.
  destruct Hd as (Hd & Hcase & Hge).
  assert (H11 : 2 ^ d <= 2 ^ 11) by (apply Z.pow_le_mono_r; lia).
  change (2 ^ 11) with 2048 in H11.
  split; [lia|]. split; [lia|].
  destruct Hcase as [Hcase|Hcase]; [left; exact Hcase|right].
  rewrite Hcase in Hlo. change (2 ^ (11 - 1)) with 1024 in Hlo. exact Hlo.
Qed.

Lemma unrank_finite (s : bool) (m : positive) (e : Z) :
  -24 <= e <= 5 -> Zpos m < 2048 -> (e = -24 \/ 1024 <= Zpos m) ->
  unrank (cond_Zopp s ((e + 24) * 1024 + Zpos m)) = S754_finite s m e.
Proof.
  intros He Hm Hc. unfold unrank, top.
  set (a := (e + 24) * 1024 + Zpos m).
  assert (Ha : 0 < a < 31744) by (unfold a; lia).
  assert (Habs : Z.abs (cond_Zopp s a) = a) by (destruct s; cbn [cond_Zopp]; lia).
  assert (Hs : (cond_Zopp s a <? 0) = s).
  { destruct s; cbn [cond_Zopp]; [apply Z.ltb_lt|apply Z.ltb_ge]; lia. }
  rewrite Habs, Hs.
  replace (a =? 0) with false by (symmetry; apply Z.eqb_neq; lia).
  replace (31744 <=? a) with false by (symmetry; apply Z.leb_gt; lia).
  destruct (Z.ltb_spec a 1024) as [Hlt|Hge].
  - assert (e = -24) by (unfold a in Hlt; lia). subst e.
    replace a with (Zpos m) by (unfold a; lia). reflexivity.
  - assert (Hmm : 1024 <= Zpos m) by (unfold a in Hge; lia).
    assert (Hq : a / 1024 = e + 25).
    { symmetry. apply (Z.div_unique a 1024 (e + 25) (Zpos m - 1024)); unfold a; lia. }
    assert (Hr : a mod 1024 = Zpos m - 1024).
    { symmetry. apply (Z.mod_unique a 1024 (e + 25) (Zpos m - 1024)); unfold a; lia. }
    rewrite Hq, Hr. replace (Zpos m - 1024 + 1024) with (Zpos m) by lia.
    replace (e + 25 - 25) with e by lia. reflexivity.
Qed.

(** Every half number other than NaN and the negative zero is listed. *)
Lemma unrank_rank (x : spec_float) :
  Half.valid x = true -> is_nan x = false ->
  -32768 <= rank x < 32768 /\ (x = S754_zero true \/ unrank (rank x) = x).
Proof.
  intros Hv Hn. destruct x as [s|s| |s m e]; [| |discriminate Hn|].
  - cbn [rank]. split; [lia|]. destruct s; [left|right]; reflexivity.
  - cbn [rank]. unfold top. split; [destruct s; cbn [cond_Zopp]; lia|].
    right. destruct s; reflexivity.
  - destruct (valid_finite_inv s m e Hv) as (He & Hm & Hc). cbn [rank]. split.
    + destruct s; cbn [cond_Zopp]; lia.
    + right. apply unrank_finite; assumption.
Qed.

Lemma leb_pos_inv (m k : positive) (e ek : Z) :
  SFleb (S754_finite false m e) (S754_finite false k ek) = true ->
  e < ek \/ (e = ek /\ Zpos m <= Zpos k).
Proof.
  unfold SFleb. cbn [SFcompare].
  destruct (Z.compare_spec e ek) as [He|He|He].
  - intros H. right. split; [exact He|]. apply Pos2Z.pos_le_pos.
    unfold Pos.le, Pos.compare.
    destruct (Pos.compare_cont Eq m k); [discriminate|discriminate|discriminate H].
  - intros _. left. exact He.
  - discriminate.
Qed.

Lemma leb_neg_inv (m k : positive) (e ek : Z) :
  SFleb (S754_finite true m e) (S754_finite true k ek) = true ->
  ek < e \/ (e = ek /\ Zpos k <= Zpos m).
Proof.
  unfold SFleb. cbn [SFcompare].
  destruct (Z.compare_spec e ek) as [He|He|He].
  - intros H. right. split; [exact He|]. apply Pos2Z.pos_le_pos.
    unfold Pos.le. rewrite Pos.compare_antisym. unfold Pos.compare.
    destruct (Pos.compare_cont Eq m k); cbn [CompOpp] in *;
      first [discriminate | discriminate H].
  - discriminate.
  - intros _. left. exact He.
Qed.

(** The numbering follows the order of the numbers. *)
Lemma rank_mono (x y : spec_float) :
  Half.valid x = true -> Half.valid y = true ->
  SFleb x y = true -> rank x <= rank y.
Proof.
  intros Hx Hy Hle.
  destruct x as [sx|sx| |sx mx ex], y as [sy|sy| |sy my ey];
    try discriminate Hle; cbn [rank]; unfold top.
  - lia.
  - destruct sy; [discriminate Hle|cbn [cond_Zopp]; lia].
  - destruct (valid_finite_inv _ _ _ Hy) as (He & Hm & Hc).
    destruct sy; [discriminate Hle|cbn [cond_Zopp]; lia].
  - destruct sx; [cbn [cond_Zopp]; lia|discriminate Hle].
  - destruct sx, sy; try discriminate Hle; cbn [cond_Zopp]; lia.
  - destruct (valid_finite_inv _ _ _ Hy) as (He & Hm & Hc).
    destruct sx; [|discriminate Hle]. destruct sy; cbn [cond_Zopp]; lia.
  - destruct (valid_finite_inv _ _ _ Hx) as (He & Hm & Hc).
    destruct sx; [cbn [cond_Zopp]; lia|discriminate Hle].
  - destruct (valid_finite_inv _ _ _ Hx) as (He & Hm & Hc).
    destruct sy; [discriminate Hle|]. destruct sx; cbn [cond_Zopp]; lia.
  - destruct (valid_finite_inv _ _ _ Hx) as (Hex & Hmx & Hcx).
    destruct (valid_finite_inv _ _ _ Hy) as (Hey & Hmy & Hcy).
    destruct sx, sy; cbn [cond_Zopp].
    + apply leb_neg_inv in Hle. lia.
    + lia.
    + discriminate Hle.
    + apply leb_pos_inv in Hle. lia.
Qed.

End HalfOrderFacts.

(** ** From decoder output to channel values *)

Module PixelExamples.
Import Pixel.
Example rint_half_even : rint (S754_finite false 5 (-1)) = S754_finite false 1024 (-9).
Proof. vm_compute. reflexivity. Qed.
Example rint_35 : same_float (rint (S754_finite false 7 (-1))) (S754_finite false 1024 (-8)) = true.
Proof. vm_compute. reflexivity. Qed.
End PixelExamples.

Module PixelFacts.
Import HalfOrder HalfOrderFacts Pixel.

Lemma table : all_ranks table_entry = true.
Proof. vm_cast_no_check (eq_refl true). Qed.

Lemma table_at (r : Z) :
  -32768 <= r < 32768 ->
  0 <= pixel_of (unrank r) <= 255 /\
  (15360 <= r -> pixel_of (unrank r) = 255) /\
  (r <= -15360 -> pixel_of (unrank r) = 0) /\
  (-15360 <= r <= 15360 ->
   Z.abs (8 * 2 ^ 24 * pixel_of (unrank r) - 1020 * (scaled (unrank r) + 2 ^ 24))
   <= 5 * 2 ^ 24) /\
  (-15360 <= r < 15360 -> pixel_of (unrank r) <= pixel_of (unrank (r + 1))).
Proof.
  intros Hr. pose proof (all_ranks_spec _ table r Hr) as H.
  unfold table_entry in H. cbv zeta in H.
  apply andb_prop in H. destruct H as [H H6].
  apply andb_prop in H. destruct H as [H H5].
  apply andb_prop in H. destruct H as [H H4].
  apply andb_prop in H. destruct H as [H H3].
  apply andb_prop in H. destruct H as [H1 H2].
  apply Z.leb_le in H1. apply Z.leb_le in H2.
  split; [lia|]. split; [|split; [|split]].
  - intros Hc. replace (15360 <=? r) with true in H3 by (symmetry; apply Z.leb_le; lia).
    apply Z.eqb_eq. exact H3.
  - intros Hc. replace (r <=? -15360) with true in H4 by (symmetry; apply Z.leb_le; lia).
    apply Z.eqb_eq. exact H4.
  - intros Hc. replace (-15360 <=? r) with true in H5 by (symmetry; apply Z.leb_le; lia).
    replace (r <=? 15360) with true in H5 by (symmetry; apply Z.leb_le; lia).
    cbn [andb] in H5. apply Z.leb_le. exact H5.
  - intros Hc. replace (-15360 <=? r) with true in H6 by (symmetry; apply Z.leb_le; lia).
    replace (r <? 15360) with true in H6 by (symmetry; apply Z.ltb_lt; lia).
    cbn [andb] in H6. apply Z.leb_le. exact H6.
Qed.

Lemma pixel_of_unrank_mono (r1 r2 : Z) :
  -32768 <= r1 -> r1 <= r2 -> r2 < 32768 ->
  pixel_of (unrank r1) <= pixel_of (unrank r2).
Proof.
  intros Hlo Hle Hhi.
  destruct (table_at r1 ltac:(lia)) as (Hr1 & _ & Hz1 & _).
  destruct (table_at r2 ltac:(lia)) as (Hr2 & Hs2 & _).
  destruct (Z_le_gt_dec r1 (-15360)) as [H1|H1]; [rewrite (Hz1 H1); lia|].
  destruct (Z_le_gt_dec 15360 r2) as [H2|H2]; [rewrite (Hs2 H2); lia|].
  clear Hr1 Hz1 Hr2 Hs2.
  replace r2 with (r1 + Z.of_nat (Z.to_nat (r2 - r1))) in * by lia.
  induction (Z.to_nat (r2 - r1)) as [|n IH].
  - replace (r1 + Z.of_nat 0) with r1 by lia. lia.
  - destruct (table_at (r1 + Z.of_nat n) ltac:(lia)) as (_ & _ & _ & _ & Hstep).
    specialize (Hstep ltac:(lia)).
    replace (r1 + Z.of_nat (S n)) with (r1 + Z.of_nat n + 1) by lia.
    specialize (IH ltac:(lia) ltac:(lia) ltac:(lia)). lia.
Qed.

(** A negative zero is converted as the positive one, so the list of
    ranks decides the channel value of every half number but NaN. *)
Lemma pixel_of_rank (x : spec_float) :
  Half.valid x = true -> is_nan x = false ->
  -32768 <= rank x < 32768 /\
  pixel_of x = pixel_of (unrank (rank x)) /\
  scaled x = scaled (unrank (rank x)).
Proof.
  intros Hv Hn. destruct (unrank_rank x Hv Hn) as (Hr & [->|Hu]).
  - split; [exact Hr|]. split; vm_compute; reflexivity.
  - split; [exact Hr|]. rewrite Hu. split; reflexivity.
Qed.

Lemma not_nan_of_leb_l (x y : spec_float) : SFleb x y = true -> is_nan x = false.
Proof. destruct x; [reflexivity|reflexivity|discriminate|reflexivity]. Qed.

Lemma not_nan_of_leb_r (x y : spec_float) : SFleb x y = true -> is_nan y = false.
Proof. destruct y; try reflexivity. destruct x; discriminate. Qed.

(** X9. Every element of the decoder output other than NaN becomes a
    channel value between 0 and 255; elements of 1.0 and above (infinity
    included) become 255, elements of -1.0 and below become 0. *)
Theorem pixel_in_range_and_saturates (x : spec_float) :
  Half.valid x = true -> is_nan x = false ->
  0 <= pixel_of x <= 255 /\
  (SFleb Half.one x = true -> pixel_of x = 255) /\
  (SFleb x minus_one = true -> pixel_of x = 0).
Proof.
  intros Hv Hn.
  destruct (pixel_of_rank x Hv Hn) as (Hr & -> & _).
  destruct (table_at (rank x) Hr) as (Hrange & Hsat & Hzero & _).
  split; [exact Hrange|]. split.
  - intros Hle. apply Hsat.
    exact (rank_mono Half.one x ltac:(reflexivity) Hv Hle).
  - intros Hle. apply Hzero.
    exact (rank_mono x minus_one Hv ltac:(reflexivity) Hle).
Qed.

(** X9, at the element 2.0. *)
Lemma pixel_in_range_and_saturates_witness : pixel_of two = 255.
Proof.
  destruct (pixel_in_range_and_saturates two) as (_ & H & _).
  - reflexivity.
  - reflexivity.
  - apply H. reflexivity.
Defined.

(** X10. The conversion keeps the order: of two elements of the decoder
    output, the larger one never gets the smaller channel value. *)
Theorem pixel_of_monotone (x y : spec_float) :
  Half.valid x = true -> Half.valid y = true ->
  SFleb x y = true -> pixel_of x <= pixel_of y.
Proof.
  intros Hx Hy Hle.
  destruct (pixel_of_rank x Hx (not_nan_of_leb_l x y Hle)) as (Hrx & -> & _).
  destruct (pixel_of_rank y Hy (not_nan_of_leb_r x y Hle)) as (Hry & -> & _).
  apply pixel_of_unrank_mono; [lia|apply rank_mono; assumption|lia].
Qed.

(** X10, at the elements -0.5 and 0.5. *)
Lemma pixel_of_monotone_witness :
  pixel_of (S754_finite true 1024 (-11)) <= pixel_of c_0_5.
Proof.
  apply (pixel_of_monotone (S754_finite true 1024 (-11)) c_0_5); reflexivity.
Defined.

(** X11. Between -1.0 and 1.0 the channel value is the exact
    [127.5 * (x + 1)] up to 0.625: the roundings to half precision and
    the final rounding to an integer never add up to a whole step. *)
Theorem pixel_close_to_exact (x : spec_float) :
  Half.valid x = true ->
  SFleb minus_one x = true -> SFleb x Half.one = true ->
  Z.abs (8 * 2 ^ 24 * pixel_of x - 1020 * (scaled x + 2 ^ 24)) <= 5 * 2 ^ 24.
Proof.
  intros Hv Hlo Hhi.
  destruct (pixel_of_rank x Hv (not_nan_of_leb_l x _ Hhi)) as (Hr & -> & ->).
  destruct (table_at (rank x) Hr) as (_ & _ & _ & Hclose & _).
  apply Hclose. split.
  - exact (rank_mono minus_one x ltac:(reflexivity) Hv Hlo).
  - exact (rank_mono x Half.one Hv ltac:(reflexivity) Hhi).
Qed.

(** X11, at the element 0.5: the channel value 191 for the exact 191.25. *)
Lemma pixel_close_to_exact_witness :
  Z.abs (8 * 2 ^ 24 * pixel_of c_0_5 - 1020 * (scaled c_0_5 + 2 ^ 24)) <= 5 * 2 ^ 24.
Proof.
  apply (pixel_close_to_exact c_0_5); reflexivity.
Defined.

(** X12. The normalisation of [_image2latent] and the conversion at the
    end of [edit_image] are inverse on channel values: a value from 0 to
    255 is mapped into [-1, 1] and comes back unchanged. *)
Theorem normalize_then_pixel_of (v : Z) :
  0 <= v <= 255 ->
  SFleb minus_one (normalize v) = true /\
  SFleb (normalize v) Half.one = true /\
  pixel_of (normalize v) = v.
Proof.
  intros Hv.
  assert (H : forallb (fun v => SFleb minus_one (normalize v)
                                && SFleb (normalize v) Half.one
                                && (pixel_of (normalize v) =? v))
                (map Z.of_nat (seq 0 256)) = true) by (vm_compute; reflexivity).
  pose proof (MaskFacts.forallb_below _ 256 H v ltac:(lia)) as Hv'. cbv beta in Hv'.
  apply andb_prop in Hv'. destruct Hv' as [Hv' H3].
  apply andb_prop in Hv'. destruct Hv' as [H1 H2].
  apply Z.eqb_eq in H3. split; [exact H1|]. split; [exact H2|exact H3].
Qed.

(** X12, at the channel value 200. *)
Lemma normalize_then_pixel_of_witness : pixel_of (normalize 200) = 200.
Proof.
  destruct (normalize_then_pixel_of 200) as (_ & _ & H).
  - lia.
  - exact H.
Defined.

End PixelFacts.

(** ** The saved image *)

Module MainFacts.
Import Main.

Lemma lookup_concat_uniform {A : Type} (rows : list (list A)) (W : nat) :
  Forall (fun row => length row = W) rows ->
  forall k x row v,
    rows !! k = Some row -> row !! x = Some v ->
    concat rows !! (k * W + x)%nat = Some v.
Proof.
  induction 1 as [|r rows Hr _ IH]; intros k x row v Hk Hx.
  - rewrite lookup_nil in Hk. discriminate Hk.
  - cbn [concat]. destruct k as [|k].
    + cbn in Hk. injection Hk as ->. cbn [Nat.mul Nat.add].
      rewrite lookup_app_l by (eapply lookup_lt_Some; exact Hx). exact Hx.
    + cbn in Hk. rewrite lookup_app_r by lia.
      replace (S k * W + x - length r)%nat with (k * W + x)%nat by lia.
      exact (IH k x row v Hk Hx).
Qed.

Lemma foldl_join_rows {A : Type} (H : nat) (rest : list (list (list A))) :
  Forall (fun img => length img = H) rest ->
  forall acc, length acc = H ->
  length (foldl (zip_with app) acc rest) = H /\
  forall y accrow, acc !! y = Some accrow ->
    exists rows,
      Forall2 (fun img row => img !! y = Some row) rest rows /\
      foldl (zip_with app) acc rest !! y = Some (accrow ++ concat rows).
Proof.
  induction 1 as [|img rest Himg _ IH]; intros acc Hacc; cbn [foldl].
  - split; [exact Hacc|]. intros y accrow Hy. exists []. split; [constructor|].
    cbn [concat]. rewrite app_nil_r. exact Hy.
  - assert (Hz : length (zip_with app acc img) = H).
    { rewrite length_zip_with. lia. }
    destruct (IH _ Hz) as [Hlen Hrows]. split; [exact Hlen|].
    intros y accrow Hy.
    assert (Hyi : is_Some (img !! y)).
    { apply lookup_lt_is_Some. rewrite Himg, <- Hacc. eapply lookup_lt_Some. exact Hy. }
    destruct Hyi as [irow Hirow].
    destruct (Hrows y (accrow ++ irow)) as (rows & Hall & Hfl).
    { rewrite lookup_zip_with, Hy. cbn. rewrite Hirow. reflexivity. }
    exists (irow :: rows). split; [constructor; assumption|].
    rewrite Hfl. cbn [concat]. rewrite app_assoc. reflexivity.
Qed.

(** X13. The saved image holds the images of the batch side by side, in
    order: for N images of H rows and W columns the result has H rows of
    N * W pixels, and pixel (y, x) of image k is at row y, column
    [k * W + x]. An empty batch raises. *)
Theorem results_side_by_side {A : Type} (images : list (list (list A))) (H W : nat) :
  images <> [] ->
  Forall (fun img => length img = H /\ Forall (fun row => length row = W) img) images ->
  np_concatenate_axis1 (@nil (list (list A))) = Raise ValueError /\
  exists flat,
    np_concatenate_axis1 images = Ok flat /\
    length flat = H /\
    forall k y x img row v,
      images !! k = Some img -> img !! y = Some row -> row !! x = Some v ->
      exists frow, flat !! y = Some frow /\
                   length frow = (length images * W)%nat /\
                   frow !! (k * W + x)%nat = Some v.
Proof.
  intros Hne Hall. split; [reflexivity|].
  destruct images as [|first rest]; [congruence|]. clear Hne.
  inversion Hall as [|? ? [Hf Hfrows] Hrest]; subst.
  assert (HrestH : Forall (fun img => length img = length first) rest).
  { eapply Forall_impl; [exact Hrest|]. intros img [Hi _]. exact Hi. }
  unfold np_concatenate_axis1.
  replace (forallb (fun a => Nat.eqb (length a) (length first)) rest) with true.
  2:{ symmetry. apply forallb_forall. intros img Hin.
      rewrite List.Forall_forall in HrestH. apply Nat.eqb_eq. exact (HrestH img Hin). }
  destruct (foldl_join_rows (length first) rest HrestH first eq_refl) as [Hlen Hrows].
  eexists. split; [reflexivity|]. split; [exact Hlen|].
  intros k y x img row v Hk Hy Hx.
  assert (Hfy : is_Some (first !! y)).
  { apply lookup_lt_is_Some.
    rewrite Forall_lookup in Hall. destruct (Hall k img Hk) as [Hi _].
    rewrite <- Hi. eapply lookup_lt_Some. exact Hy. }
  destruct Hfy as [frow0 Hfrow0].
  destruct (Hrows y frow0 Hfrow0) as (rows & Hrs & Hfl).
  exists (frow0 ++ concat rows). split; [exact Hfl|].
  assert (HW : Forall (fun row => length row = W) (frow0 :: rows)).
  { constructor.
    - rewrite Forall_lookup in Hfrows. exact (Hfrows y frow0 Hfrow0).
    - clear -Hrs Hrest. induction Hrs as [|img' row' rest' rows' Hir _ IH]; [constructor|].
      inversion Hrest as [|? ? [_ Hrw] Hrest']; subst. constructor.
      + rewrite Forall_lookup in Hrw. exact (Hrw y row' Hir).
      + apply IH. exact Hrest'. }
  assert (Hk' : (frow0 :: rows) !! k = Some row).
  { destruct k as [|k]; cbn in *.
    - injection Hk as <-. rewrite Hfrow0 in Hy. exact Hy.
    - clear -Hrs Hk Hy. revert k Hk. induction Hrs as [|img' row' rest' rows' Hir _ IH];
        intros k Hk;
        [first [discriminate Hk | rewrite lookup_nil in Hk; discriminate Hk]|].
      destruct k as [|k]; cbn in *.
      + injection Hk as <-. rewrite Hir in Hy. exact Hy.
      + exact (IH k Hk). }
  split.
  - change (frow0 ++ concat rows) with (concat (frow0 :: rows)).
    assert (Hn : length (frow0 :: rows) = length (first :: rest)).
    { cbn [length]. f_equal. symmetry. eapply Forall2_length. exact Hrs. }
    rewrite <- Hn. clear -HW. induction HW as [|r rs Hr _ IH]; [reflexivity|].
    cbn [concat length]. rewrite length_app, IH, Hr. lia.
  - exact (lookup_concat_uniform (frow0 :: rows) W HW k x row v Hk' Hx).
Qed.

(** X13, on two images of one row and two columns: the last pixel of the
    second image is at column 3. *)
Lemma results_side_by_side_witness :
  exists flat frow,
    np_concatenate_axis1 [[[1; 2]]; [[3; 4]]] = Ok flat /\
    flat !! 0%nat = Some frow /\ frow !! 3%nat = Some 4.
Proof.
  destruct (results_side_by_side [[[1; 2]]; [[3; 4]]] 1 2) as (_ & flat & Hflat & _ & Hpix).
  - discriminate.
  - repeat constructor.
  - destruct (Hpix 1%nat 0%nat 1%nat [[3; 4]] [3; 4] 4 eq_refl eq_refl eq_refl)
      as (frow & Hf & _ & Hv).
    exists flat, frow. split; [exact Hflat|]. split; [exact Hf|exact Hv].
Defined.

End MainFacts.

(** ** The states threaded through the loop *)

Module ThreadFacts.
Import Pipeline Trace.

Lemma final_state_cons (M : Models) (latents : batch) (cuda : rng M)
    (s : step_out M) (trace : list (step_out M)) :
  final_state M latents cuda (s :: trace)
  = final_state M (so_latents s) (so_cuda s) trace.
Proof. unfold final_state. rewrite last_cons. destruct (last trace); reflexivity. Qed.

Lemma denoise_loop_threaded (M : Models) (morph : Args.pyval) (img : Mask.gray_image)
    (source : batch) (emb : list (embedding M)) (gs : spec_float) (threshold : Z)
    (its : list (Z * timestep M)) :
  forall latents cuda r,
  denoise_loop M morph img source emb gs threshold its latents cuda = Ok r ->
  threaded M emb latents cuda (snd r) /\
  (fst (fst r), snd (fst r)) = final_state M latents cuda (snd r).
Proof.
  induction its as [|[i t] its IH]; intros latents cuda r; cbn [denoise_loop].
  - intros [= <-]. cbn. split; [exact I|reflexivity].
  - destruct (denoise_step _ _ _ _ _ _ _ _ _ _ _) as [s|e] eqn:Hs; cbn [bind]; [|discriminate].
    destruct (denoise_loop _ _ _ _ _ _ _ _ _ _) as [r'|e] eqn:Hr; cbn [bind]; [|discriminate].
    intros [= <-]. cbn [fst snd].
    destruct (IH _ _ _ Hr) as (Hth & Hfin).
    destruct (PipelineFacts.denoise_step_inv _ _ _ _ _ _ _ _ _ _ _ _ Hs)
      as (_ & Ht & Hnp & _ & Hc & _ & Hn & Hcu & _ & _).
    split.
    + cbn [threaded]. rewrite Ht. repeat split; assumption.
    + rewrite Hfin. symmetry. apply final_state_cons.
Qed.

(** X14. In every run that returns, the iterations are numbered from 0;
    each starts from the latents blended by the iteration before (the
    first from the initial normal latents) and draws its noise from the
    device generator in the state the iteration before left it; the
    generator passed to [edit_image] is drawn from once, for the initial
    latents; and the images are decoded from the latents of the last
    iteration. *)
Theorem run_threads_latents_and_generator (M : Models) (morph : Args.pyval)
    (a : edit_args M) (generator cuda : rng M) (r : run_out M) :
  edit_image_trace M morph a generator cuda = Ok r ->
  map so_index (ro_trace r) = map Z.of_nat (seq 0 (length (ro_trace r))) /\
  threaded M (text_embeddings M (prompts a)) (fst (initial_latents M a generator)) cuda
    (ro_trace r) /\
  ro_generator r = snd (initial_latents M a generator) /\
  ro_images r
  = decode M (fst (final_state M (fst (initial_latents M a generator)) cuda (ro_trace r))) /\
  ro_cuda r
  = snd (final_state M (fst (initial_latents M a generator)) cuda (ro_trace r)).
Proof.
  intros Hr.
  destruct (PipelineFacts.edit_image_trace_inv M morph a generator cuda r Hr)
    as (its & lr & _ & Hlr & ->).
  destruct (denoise_loop_threaded _ _ _ _ _ _ _ _ _ _ _ Hlr) as (Hth & Hfin).
  destruct (PipelineFacts.denoise_loop_trace _ _ _ _ _ _ _ _ _ _ _ Hlr) as (Hmap & _).
  cbn [ro_trace ro_generator ro_images ro_cuda]. rewrite <- Hfin. cbn [fst snd].
  split; [|repeat split; exact Hth].
  assert (Hidx : map so_index (snd lr) = map fst (enumerate its)).
  { rewrite <- Hmap, map_map. reflexivity. }
  assert (Hlen : length (snd lr) = length its).
  { rewrite <- (length_map so_index), Hidx, length_map. unfold enumerate.
    apply length_imap. }
  rewrite Hidx, Hlen. apply MorphRunFacts.enumerate_fst.
Qed.

(** X14, with the stand-in models on a 512 x 512 source, whose generators
    count the draws: the generator passed in is left at 1. *)
Lemma run_threads_latents_and_generator_witness :
  exists r, edit_image_trace Toy.shaped_models (Args.parsed_morph None)
              (Toy.shaped_args 2 PyFloat.zero) 0 0 = Ok r /\
            ro_generator r = 1.
Proof.
  destruct PipelineFacts.shaped_models_keep as (HM & HS & _).
  destruct (PipelineFacts.run_returns Toy.shaped_models (Args.parsed_morph None)
              (Toy.shaped_args 2 PyFloat.zero) 0 0 [1; 0] HM HS eq_refl eq_refl eq_refl)
    as (r & Hr & _).
  - vm_compute. reflexivity.
  - exists r. split; [exact Hr|].
    destruct (run_threads_latents_and_generator _ _ _ _ _ r Hr) as (_ & _ & Hg & _).
    exact Hg.
Defined.

Lemma denoise_loop_same_mask (M : Models) (morph : Args.pyval) (img : Mask.gray_image)
    (mask : plane) (source : batch) (emb : list (embedding M)) (gs : spec_float)
    (threshold : Z) (its : list (Z * timestep M)) :
  Args.morph_enabled morph = false ->
  Mask._read_mask img 64 64 = Ok (mask, img) ->
  forall latents cuda r,
  denoise_loop M morph img source emb gs threshold its latents cuda = Ok r ->
  Forall (fun s => so_mask s = HalfMask mask) (snd r).
Proof.
  intros Hm Hmask.
  induction its as [|[i t] its IH]; intros latents cuda r; cbn [denoise_loop].
  - intros [= <-]. constructor.
  - destruct (denoise_step _ _ _ _ _ _ _ _ _ _ _) as [s|e] eqn:Hs; cbn [bind]; [|discriminate].
    destruct (denoise_loop _ _ _ _ _ _ _ _ _ _) as [r'|e] eqn:Hr; cbn [bind]; [|discriminate].
    intros [= <-]. cbn [snd]. constructor; [|exact (IH _ _ _ Hr)].
    destruct (PipelineFacts.denoise_step_inv _ _ _ _ _ _ _ _ _ _ _ _ Hs)
      as (_ & _ & _ & _ & _ & Hsm & _).
    unfold step_mask in Hsm. rewrite Hmask in Hsm. cbn [bind fst] in Hsm.
    rewrite Hm in Hsm. injection Hsm as <-. reflexivity.
Qed.

End ThreadFacts.

(** ** Where the result comes from outside the mask *)

Module BackgroundFacts.
Import Pipeline Trace.

(** Every step of a trace is the outcome of the loop body. *)
Lemma denoise_loop_steps (M : Models) (morph : Args.pyval) (img : Mask.gray_image)
    (source : batch) (emb : list (embedding M)) (gs : spec_float) (threshold : Z)
    (its : list (Z * timestep M)) :
  forall latents cuda r,
  denoise_loop M morph img source emb gs threshold its latents cuda = Ok r ->
  Forall (fun s => exists l g i t,
            denoise_step M morph img source emb gs threshold l g i t = Ok s) (snd r).
Proof.
  induction its as [|[i t] its IH]; intros latents cuda r; cbn [denoise_loop].
  - intros [= <-]. constructor.
  - destruct (denoise_step _ _ _ _ _ _ _ _ _ _ _) as [s|e] eqn:Hs; cbn [bind]; [|discriminate].
    destruct (denoise_loop _ _ _ _ _ _ _ _ _ _) as [r'|e] eqn:Hr; cbn [bind]; [|discriminate].
    intros [= <-]. cbn [snd]. constructor; [|exact (IH _ _ _ Hr)].
    exists latents, cuda, i, t. exact Hs.
Qed.

Lemma Forall_last {A : Type} (P : A -> Prop) (l : list A) (x : A) :
  Forall P l -> last l = Some x -> P x.
Proof.
  intros Hall Hlast. apply last_Some in Hlast. destruct Hlast as [l' ->].
  apply Forall_app in Hall. destruct Hall as [_ Hx].
  inversion Hx; assumption.
Qed.

Lemma read_mask_is_binary (img : Mask.gray_image) (mask : plane) :
  Mask.image_ok img -> Mask._read_mask img 64 64 = Ok (mask, img) ->
  mask_binary (HalfMask mask).
Proof.
  intros Hok Hr.
  destruct (MaskFacts.read_mask_spec img 64 64 Hok ltac:(lia) ltac:(lia)) as (mx & _ & Hs).
  assert (E : mask = map2d (Mask.mask_value mx) (Mask.resize_nearest img 64 64)).
  { rewrite Hs in Hr.
    apply (f_equal (fun res => match res with Ok (m, _) => m | Raise _ => mask end)) in Hr.
    cbv beta iota in Hr. symmetry. exact Hr. }
  rewrite E. unfold mask_binary.
  apply (MaskFacts.map2d_Forall (fun _ => True)).
  - intros v _. apply MaskFacts.mask_value_binary.
  - apply Forall_forall. intros row _. apply Forall_forall. intros v _. exact I.
Qed.

(** X16. In a run without morphing, the images are decoded from the
    latents of the last iteration, and in these every position where the
    mask is 0 holds the source latent noised at the last timestep, and
    every position where the mask is 1 the sampler's candidate (finite
    values taken; equal as numbers, and as data unless the value is a
    zero). Outside the mask the result is therefore fixed by the source
    image and the last noise draw alone. *)
Theorem result_outside_mask_is_noised_source (M : Models) (morph : Args.pyval)
    (a : edit_args M) (generator cuda : rng M) (r : run_out M) (s : step_out M) :
  Args.morph_enabled morph = false ->
  Mask.image_ok (mask_image a) ->
  edit_image_trace M morph a generator cuda = Ok r ->
  last (ro_trace r) = Some s ->
  ro_images r = decode M (so_latents s) /\
  so_noised_source s
  = add_noise M (_image2latent M (image a)) (so_noise s) (so_timestep s) /\
  exists mask,
    Mask._read_mask (mask_image a) 64 64 = Ok (mask, mask_image a) /\
    forall n c y x cv nv mv,
      at_position (so_candidate s) n c y x = Some cv ->
      at_position (so_noised_source s) n c y x = Some nv ->
      at_pixel mask y x = Some mv ->
      Half.valid cv = true -> Half.valid nv = true ->
      Half.is_finite cv = true -> Half.is_finite nv = true ->
      exists v,
        at_position (so_latents s) n c y x = Some v /\
        (mv = Half.zero ->
         Half.eqb v nv = true /\ (Half.is_zero nv = false -> v = nv)) /\
        (mv = Half.one ->
         Half.eqb v cv = true /\ (Half.is_zero cv = false -> v = cv)).
Proof.
  intros Hm Hok Hr Hlast.
  destruct (PipelineFacts.edit_image_trace_inv M morph a generator cuda r Hr)
    as (its & lr & _ & Hlr & ->).
  cbn [ro_trace ro_images] in *.
  destruct (ThreadFacts.denoise_loop_threaded _ _ _ _ _ _ _ _ _ _ _ Hlr) as (_ & Hfin).
  unfold final_state in Hfin. rewrite Hlast in Hfin.
  destruct (PipelineFacts.read_mask_returns (mask_image a)) as [mask Hmask].
  pose proof (Forall_last _ _ _ (denoise_loop_steps _ _ _ _ _ _ _ _ _ _ _ Hlr) Hlast)
    as (l & g & i & t & Hstep).
  pose proof (Forall_last _ _ _
                (ThreadFacts.denoise_loop_same_mask _ _ _ _ _ _ _ _ _ Hm Hmask _ _ _ Hlr)
                Hlast) as Hsm.
  destruct (PipelineFacts.denoise_step_inv _ _ _ _ _ _ _ _ _ _ _ _ Hstep)
    as (_ & Ht & _ & _ & _ & _ & _ & _ & Hns & Hbl).
  split; [|split].
  - f_equal. injection Hfin as -> _. reflexivity.
  - rewrite Hns, Ht. reflexivity.
  - exists mask. split; [exact Hmask|].
    intros n c y x cv nv mv Hc Hn Hmv Hvc Hvn Hfc Hfn.
    exists (blend_elem cv mv nv). split; [|split].
    + rewrite Hbl, Hsm.
      apply PipelineFacts.blend_at;
        [exact (read_mask_is_binary _ _ Hok Hmask)|exact Hc|exact Hn|exact Hmv].
    + intros ->. unfold blend_elem.
      change (Half.sub Half.one Half.zero) with Half.one.
      rewrite (HalfFacts.mul_one nv Hvn).
      apply HalfFacts.add_zero_l; [exact Hfn|]. apply HalfFacts.mul_zero. exact Hfc.
    + intros ->. unfold blend_elem.
      rewrite (HalfFacts.mul_one cv Hvc).
      change (Half.sub Half.one Half.one) with (S754_zero false).
      apply HalfFacts.add_zero_r; [exact Hfc|]. apply HalfFacts.mul_zero. exact Hfn.
Qed.

(** X16, with the stand-in models on a 512 x 512 source and two
    timesteps. *)
Lemma result_outside_mask_is_noised_source_witness :
  exists r s,
    edit_image_trace Toy.shaped_models (Args.parsed_morph None)
      (Toy.shaped_args 2 PyFloat.zero) 0 0 = Ok r /\
    last (ro_trace r) = Some s /\
    ro_images r = decode Toy.shaped_models (so_latents s).
Proof.
  destruct PipelineFacts.shaped_models_keep as (HM & HS & _).
  destruct (PipelineFacts.run_returns Toy.shaped_models (Args.parsed_morph None)
              (Toy.shaped_args 2 PyFloat.zero) 0 0 [1; 0] HM HS eq_refl eq_refl eq_refl)
    as (r & Hr & Hts).
  - vm_compute. reflexivity.
  - destruct (ro_trace r) as [|s1 [|s2 [|s3 tr]]] eqn:Htr; try discriminate Hts.
    exists r, s2. split; [exact Hr|]. rewrite Htr. split; [reflexivity|].
    destruct (result_outside_mask_is_noised_source Toy.shaped_models (Args.parsed_morph None)
                (Toy.shaped_args 2 PyFloat.zero) 0 0 r s2) as (Himg & _).
    + reflexivity.
    + unfold Mask.image_ok, Mask.pixel_ok. cbn. repeat constructor; lia.
    + exact Hr.
    + rewrite Htr. reflexivity.
    + exact Himg.
Defined.

End BackgroundFacts.
